(** * OCR-API: job lifecycle and extraction pipeline

  A shallow embedding of the two servers of the repository:

  - the job-based server (the source file with the [/api/ocr/*] routes,
    backed by the SQLite table [ocr_jobs]), in [Module JobApi];
  - the synchronous server of [index.js], of which the [/pdf] route and the
    functions it calls are embedded, in [Module Visionless].

  Handlers are written in a small free monad [Prog] over the calls they
  make (database statements, file-system operations, recognizer, page
  renderer, HTTP response).  Every call may throw; [await], [try]/[catch]
  and the fire-and-forget background closure are constructors or
  combinators of the monad.  A program is run against a world by an
  executor that decides what each call does; collaborator outcomes are
  drawn from an oracle indexed by logical time, so that every sequence
  of collaborator results is covered. *)

From Stdlib Require Import NArith ZArith Lia Ascii String List.
From stdpp Require Import base list option strings gmap pretty sorting.

Set Default Proof Using "Type".
Local Open Scope string_scope.
Local Open Scope list_scope.

(** ** JavaScript strings

  A JavaScript string is a sequence of UTF-16 code units; [length],
  [substring], [slice], [trim] and a regular expression without the [u]
  flag all work on code units. *)

Module Js.

Definition jstring : Type := list N.

(** A literal of the source, given by its ASCII characters. *)
Definition lit (s : string) : jstring :=
  (fun a => N_of_ascii a) <$> list_ascii_of_string s.

Definition LF : N := 10.
Definition SPACE : N := 32.

(** ECMAScript [WhiteSpace] and [LineTerminator] code points: what
    [String.prototype.trim] strips.  All of them are in the basic plane,
    so the test on code units is exact. *)
Definition is_whitespace (c : N) : bool :=
  ((9 <=? c) && (c <=? 13) || (c =? 32) || (c =? 160) || (c =? 5760)
   || (8192 <=? c) && (c <=? 8202) || (c =? 8232) || (c =? 8233)
   || (c =? 8239) || (c =? 8287) || (c =? 12288) || (c =? 65279))%N.

Fixpoint trim_start (s : jstring) : jstring :=
  match s with
  | c :: s' => if is_whitespace c then trim_start s' else s
  | [] => []
  end.

Definition trim_end (s : jstring) : jstring :=
  reverse (trim_start (reverse s)).

(** [s.trim()] *)
Definition trim (s : jstring) : jstring := trim_end (trim_start s).

(** [s.substring(a, b)] for non-negative integer arguments: both are
    clamped to the length and swapped when out of order. *)
Definition substring (a b : nat) (s : jstring) : jstring :=
  let a' := a `min` length s in
  let b' := b `min` length s in
  let from := a' `min` b' in
  let to := a' `max` b' in
  take (to - from) (drop from s).

(** [s.slice(a, b)] for non-negative integer arguments: clamped, empty
    when out of order. *)
Definition slice (a b : nat) (s : jstring) : jstring :=
  let a' := a `min` length s in
  let b' := b `min` length s in
  take (b' - a') (drop a' s).

(** [s.replace(/c/g, r)] for a pattern that is one literal code unit:
    the scan replaces every occurrence, left to right. *)
Fixpoint replace_all (c : N) (r : jstring) (s : jstring) : jstring :=
  match s with
  | [] => []
  | x :: s' => (if (x =? c)%N then r else [x]) ++ replace_all c r s'
  end.

(** [parts.join(sep)] *)
Fixpoint join (sep : jstring) (parts : list jstring) : jstring :=
  match parts with
  | [] => []
  | [p] => p
  | p :: ps => p ++ sep ++ join sep ps
  end.

(** Truthiness of a string value that may be [undefined]/[null]. *)
Definition truthy (s : option jstring) : bool :=
  match s with
  | Some (_ :: _) => true
  | _ => false
  end.

End Js.

(** ** Node's [path.extname], [path.basename] (POSIX) and [toLowerCase]

  Library functions, modelled after Node's implementation: the scan runs
  from the end of the string, [-1] is the "not found" sentinel. *)

Module Path.

Record scan := {
  startDot : Z; startPart : Z; endp : Z;
  matchedSlash : bool; preDotState : Z; stop : bool }.

Definition scan0 : scan :=
  {| startDot := -1; startPart := 0; endp := -1;
     matchedSlash := true; preDotState := 0; stop := false |}.

(** One iteration of the loop, at index [i] holding character [code]. *)
Definition scan_step (i : Z) (code : ascii) (st : scan) : scan :=
  if stop st then st else
  if Ascii.eqb code "/" then
    if negb (matchedSlash st)
    then {| startDot := startDot st; startPart := i + 1; endp := endp st;
            matchedSlash := matchedSlash st; preDotState := preDotState st;
            stop := true |}
    else st
  else
    let st1 :=
      if (endp st =? -1)%Z
      then {| startDot := startDot st; startPart := startPart st;
              endp := i + 1; matchedSlash := false;
              preDotState := preDotState st; stop := false |}
      else st in
    if Ascii.eqb code "."
    then
      if (startDot st1 =? -1)%Z
      then {| startDot := i; startPart := startPart st1; endp := endp st1;
              matchedSlash := matchedSlash st1;
              preDotState := preDotState st1; stop := false |}
      else if negb (preDotState st1 =? 1)%Z
      then {| startDot := startDot st1; startPart := startPart st1;
              endp := endp st1; matchedSlash := matchedSlash st1;
              preDotState := 1; stop := false |}
      else st1
    else if negb (startDot st1 =? -1)%Z
      then {| startDot := startDot st1; startPart := startPart st1;
              endp := endp st1; matchedSlash := matchedSlash st1;
              preDotState := -1; stop := false |}
      else st1.

(** The loop [for (i = path.length - 1; i >= 0; --i)]: the characters are
    visited last to first; [chars] is the string reversed and [i] the
    index of its head. *)
Fixpoint scan_loop (chars : list ascii) (i : Z) (st : scan) : scan :=
  match chars with
  | [] => st
  | c :: rest => scan_loop rest (i - 1) (scan_step i c st)
  end.

Definition extname (p : string) : string :=
  let cs := list_ascii_of_string p in
  let st := scan_loop (reverse cs) (Z.of_nat (length cs) - 1) scan0 in
  if ((startDot st =? -1) || (endp st =? -1) || (preDotState st =? 0)
      || ((preDotState st =? 1) && (startDot st =? endp st - 1)
          && (startDot st =? startPart st + 1)))%Z
  then EmptyString
  else
    string_of_list_ascii
      (take (Z.to_nat (endp st - startDot st))
            (drop (Z.to_nat (startDot st)) cs)).

(** [path.basename(p)] without suffix argument: the last segment, trailing
  slashes dropped.  [bs] is (start, end, matchedSlash, stop). *)
Definition base_step (i : Z) (code : ascii) (bs : Z * Z * bool * bool)
  : Z * Z * bool * bool :=
  let '(start, e, matched, stopped) := bs in
  if stopped then bs else
  if Ascii.eqb code "/" then
    if negb matched then ((i + 1)%Z, e, matched, true) else bs
  else if (e =? -1)%Z then (start, (i + 1)%Z, false, false) else bs.

Fixpoint base_loop (chars : list ascii) (i : Z) (bs : Z * Z * bool * bool)
  : Z * Z * bool * bool :=
  match chars with
  | [] => bs
  | c :: rest => base_loop rest (i - 1) (base_step i c bs)
  end.

Definition basename (p : string) : string :=
  let cs := list_ascii_of_string p in
  let '(start, e, _, _) :=
    base_loop (reverse cs) (Z.of_nat (length cs) - 1) (0%Z, (-1)%Z, true, false) in
  if (e =? -1)%Z then EmptyString
  else string_of_list_ascii
         (take (Z.to_nat (e - start)) (drop (Z.to_nat start) cs)).

(** [path.join(...segments)] and [path.normalize(p)].  Node joins the
    segments that are not empty with [/] and normalizes the result: its
    scan cuts the path at every [/], drops the empty segments and the
    segments [.], and lets a segment [..] remove the segment before it,
    unless there is none or that one is [..] itself; then [..] is kept in
    a relative path and dropped in an absolute one.  A leading and a
    trailing [/] are kept. *)
Fixpoint segments (p : string) : list string :=
  match p with
  | EmptyString => [EmptyString]
  | String c rest =>
      if Ascii.eqb c "/" then EmptyString :: segments rest
      else
        match segments rest with
        | seg :: more => String c seg :: more
        | [] => [String c EmptyString]
        end
  end.

(** One segment more; [res] holds the segments kept so far, the last one
    first. *)
Definition keep_segment (allowAboveRoot : bool) (res : list string)
  (seg : string) : list string :=
  if String.eqb seg EmptyString || String.eqb seg "." then res
  else if String.eqb seg ".." then
    match res with
    | top :: below =>
        if String.eqb top ".."
        then (if allowAboveRoot then ".." :: res else res)
        else below
    | [] => if allowAboveRoot then [".."] else []
    end
  else seg :: res.

Definition ends_with_slash (p : string) : bool :=
  match reverse (list_ascii_of_string p) with
  | c :: _ => Ascii.eqb c "/"
  | [] => false
  end.

Definition normalize (p : string) : string :=
  match p with
  | EmptyString => "."
  | String c _ =>
      let isAbsolute := Ascii.eqb c "/" in
      let trailingSeparator := ends_with_slash p in
      let res :=
        String.concat "/"
          (reverse (fold_left (keep_segment (negb isAbsolute)) (segments p) [])) in
      if String.eqb res EmptyString
      then (if isAbsolute then "/" else if trailingSeparator then "./" else ".")
      else
        (if isAbsolute then "/" else EmptyString)
        +:+ res +:+ (if trailingSeparator then "/" else EmptyString)
  end.

Definition join (args : list string) : string :=
  match filter (fun arg => arg <> EmptyString) args with
  | [] => "."
  | joined => normalize (String.concat "/" joined)
  end.

Definition lower_ascii (a : ascii) : ascii :=
  let n := nat_of_ascii a in
  if (65 <=? n)%nat && (n <=? 90)%nat then ascii_of_nat (n + 32) else a.

(** [s.toLowerCase()], exact on ASCII letters; no other character maps to
    an ASCII letter of [".pdf"], the only string the result is compared
    with. *)
Definition toLowerCase (s : string) : string :=
  string_of_list_ascii (lower_ascii <$> list_ascii_of_string s).

End Path.

(** ** Programs: calls, exceptions, [await], [try]/[catch], background tasks *)

(** A thrown JavaScript [Error], identified by its [message]. *)
Definition Error : Type := string.

Inductive Result (A : Type) : Type :=
| Ok (a : A)
| Err (e : Error).
Arguments Ok {A} a.
Arguments Err {A} e.

Section Prog.

(** [E X] is the type of calls that answer with an [X]. *)
Context {E : Type -> Type}.

(** [Vis c k] performs call [c] and continues with its outcome, a value
    or a thrown error; [Fork child k] starts [child] as a detached
    asynchronous closure (its promise is dropped, so nothing [child] throws
    reaches [k]) and continues.  JavaScript runs the closure up to its
    first [await] at once; here the closure makes its first call whenever
    it is scheduled, at once included. *)
Inductive Prog (A : Type) : Type :=
| Ret (a : A)
| Throw (e : Error)
| Vis {X : Type} (c : E X) (k : Result X -> Prog A)
| Fork (child : Prog unit) (k : Prog A).

Global Arguments Ret {A} a.
Global Arguments Throw {A} e.
Global Arguments Vis {A X} c k.
Global Arguments Fork {A} child k.

Fixpoint bind {A B} (p : Prog A) (f : A -> Prog B) : Prog B :=
  match p with
  | Ret a => f a
  | Throw e => Throw e
  | Vis c k => Vis c (fun r => bind (k r) f)
  | Fork child k => Fork child (bind k f)
  end.

(** A call whose error, if any, is thrown at the call site. *)
Definition call {X} (c : E X) : Prog X :=
  Vis c (fun r => match r with Ok x => Ret x | Err e => Throw e end).

(** [try { body } catch (e) { handler e }] *)
Fixpoint try_catch {A} (body : Prog A) (handler : Error -> Prog A) : Prog A :=
  match body with
  | Ret a => Ret a
  | Throw e => handler e
  | Vis c k => Vis c (fun r => try_catch (k r) handler)
  | Fork child k => Fork child (try_catch k handler)
  end.

(** *** Running one program to its end *)

Context {W : Type}.

(** What a call does to the world. *)
Variable exec : forall X, E X -> W -> Result X * W.

(** A call together with its outcome. *)
Definition Event : Type := sigT (fun X => (E X * Result X)%type).
Definition ev {X} (c : E X) (r : Result X) : Event := existT X (c, r).

Record Outcome (A : Type) : Type := {
  result : Result A;          (* returned value or uncaught error *)
  world : W;                  (* world at the end *)
  calls : list Event;         (* calls made and their outcomes, in order *)
  spawned : list (Prog unit)  (* detached closures started, in order *)
}.
Global Arguments result {A} _.
Global Arguments world {A} _.
Global Arguments calls {A} _.
Global Arguments spawned {A} _.
Global Arguments Build_Outcome {A} _ _ _ _.

Fixpoint run {A} (p : Prog A) (w : W) : Outcome A :=
  match p with
  | Ret a => Build_Outcome (Ok a) w [] []
  | Throw e => Build_Outcome (Err e) w [] []
  | Vis c k =>
      let '(r, w') := exec _ c w in
      let o := run (k r) w' in
      Build_Outcome (result o) (world o) (ev c r :: calls o) (spawned o)
  | Fork child k =>
      let o := run k w in
      Build_Outcome (result o) (world o) (calls o) (child :: spawned o)
  end.

(** Composition of outcomes: [o1] followed by [o2], and [o] cut short by a
    thrown error. *)
Definition then_run {A B} (o1 : Outcome A) (o2 : Outcome B)
  : Outcome B :=
  {| result := result o2; world := world o2;
     calls := calls o1 ++ calls o2; spawned := spawned o1 ++ spawned o2 |}.

Definition rethrow {A B} (o : Outcome A) (e : Error) : Outcome B :=
  {| result := Err e; world := world o; calls := calls o; spawned := spawned o |}.

End Prog.

Arguments Prog E A : clear implicits.
Arguments Outcome E W A : clear implicits.
Arguments Event E : clear implicits.

Declare Scope prog_scope.
Delimit Scope prog_scope with prog.
Notation "x <- c1 ;; c2" := (bind c1 (fun x => c2))
  (at level 100, c1 at next level, c2 at level 200, right associativity)
  : prog_scope.
Notation "c1 ;; c2" := (bind c1 (fun _ => c2))
  (at level 100, c2 at level 200, right associativity) : prog_scope.

Local Open Scope prog_scope.

(** * The job-based server: table [ocr_jobs] and the [/api/ocr] routes *)

Module JobApi.

Import Js.

Definition Bytes : Type := list Byte.byte.

(** ** Data *)

(** The page object returned by the recognizer.  The server reads [text]
    only; every other property (confidence, words, boxes, ...) is copied
    without being read and kept here as [details].  The object has no
    property named [page]. *)
Record OcrData : Type := {
  text : jstring;
  details : list (string * jstring) }.

(** An element of [resultJson]: [{ page: i + 1, ...data }] in the PDF
    branch, [data] itself (no [page] property) in the other branch. *)
Record PageEntry : Type := {
  page : option nat;
  data : OcrData }.

(** A row of [ocr_jobs].  [result_text] and [result_json] are [NULL] until
    an [UPDATE] sets them; [result_json] is kept in parsed form
    ([JSON.parse] of what [JSON.stringify] wrote, taken to be the value
    itself).  Timestamps are readings of the logical clock. *)
Record Row : Type := {
  row_id : string;
  filename : string;
  status : string;
  language : string;
  result_text : option jstring;
  result_json : option (list PageEntry);
  created_at : nat;
  updated_at : nat }.

(** [req.file] as set by the upload middleware. *)
Record File : Type := {
  path : string;
  originalname : string }.

(** A request to [POST /api/ocr/upload]. *)
Record UploadReq : Type := {
  file : option File;
  body_language : option string }.

(** The [accessibility] object of a result. *)
Record Accessibility : Type := {
  alt_text : jstring;
  has_text : bool;
  language_detected : string }.

(** JSON bodies sent by the handlers. *)
Inductive Body : Type :=
| BError (error : string)
| BAccepted (jobId status : string)
| BStatus (id status : string) (created_at updated_at : nat)
| BResult (id filename language : string) (text : jstring)
          (data : option (list PageEntry)) (accessibility : Accessibility)
| BLanguages (languages : list (string * string)).

(** A recognizer worker handle. *)
Definition Worker : Type := nat.

(** ** Calls made by the handlers *)

Inductive Call : Type -> Type :=
| Uuidv4 : Call string
  (* INSERT INTO ocr_jobs (id, filename, status, language) VALUES (?,?,?,?) *)
| DbInsert (id filename status language : string) : Call unit
  (* UPDATE ocr_jobs SET status = ?, result_text = ?, result_json = ?,
     updated_at = CURRENT_TIMESTAMP WHERE id = ? *)
| DbUpdateResult (status : string) (result_text : jstring)
                 (result_json : list PageEntry) (id : string) : Call unit
  (* UPDATE ocr_jobs SET status = ?, updated_at = CURRENT_TIMESTAMP
     WHERE id = ? *)
| DbUpdateStatus (status id : string) : Call unit
  (* SELECT ... FROM ocr_jobs WHERE id = ? *)
| DbSelect (id : string) : Call (option Row)
| PdfConvert (filePath : string) : Call (list Bytes)
| WriteFileSync (path : string) (content : Bytes) : Call unit
| UnlinkSync (path : string) : Call unit
| CreateWorker (language : string) : Call Worker
| Recognize (worker : Worker) (filePath : string) : Call OcrData
| Terminate (worker : Worker) : Call unit
| ConsoleError (label : string) (e : Error) : Call unit
  (* res.status(code).json(body) on the response object [res] *)
| Respond (res : nat) (code : nat) (body : Body) : Call unit.

Abbreviation Task := (Prog Call unit).

(** ** The world the server runs in *)

Record World : Type := {
  db : gmap string Row;                 (* table ocr_jobs, keyed by id *)
  files : gmap string Bytes;            (* the file system *)
  sent : list (nat * nat * Body);       (* responses sent, oldest first *)
  console : list (string * Error);      (* console.error output *)
  clock : nat }.                        (* logical time: calls made so far *)

Definition set_db (f : gmap string Row -> gmap string Row) (w : World) : World :=
  {| db := f (db w); files := files w; sent := sent w;
     console := console w; clock := clock w |}.

Definition set_files (f : gmap string Bytes -> gmap string Bytes) (w : World)
  : World :=
  {| db := db w; files := f (files w); sent := sent w;
     console := console w; clock := clock w |}.

Definition tick (w : World) : World :=
  {| db := db w; files := files w; sent := sent w;
     console := console w; clock := S (clock w) |}.

(** Outcomes of the collaborators (id generator, page renderer,
    recognizer), as functions of the logical time of the call. *)
Record Oracle : Type := {
  uuid : nat -> string;
  convert : nat -> string -> Result (list Bytes);
  createWorker : nat -> string -> Result Worker;
  recognize : nat -> Worker -> string -> Result OcrData;
  terminate : nat -> Worker -> Result unit }.

Definition new_row (id fname st lang : string) (now : nat) : Row :=
  {| row_id := id; filename := fname; status := st; language := lang;
     result_text := None; result_json := None;
     created_at := now; updated_at := now |}.

Definition with_result (st : string) (txt : jstring) (js : list PageEntry)
  (now : nat) (r : Row) : Row :=
  {| row_id := row_id r; filename := filename r; status := st;
     language := language r; result_text := Some txt; result_json := Some js;
     created_at := created_at r; updated_at := now |}.

Definition with_status (st : string) (now : nat) (r : Row) : Row :=
  {| row_id := row_id r; filename := filename r; status := st;
     language := language r; result_text := result_text r;
     result_json := result_json r;
     created_at := created_at r; updated_at := now |}.

(** What each call does at time [clock w].  The database follows SQL: an
    [INSERT] of an existing primary key fails and changes nothing, an
    [UPDATE] changes the row with that id if there is one. *)
Definition exec (o : Oracle) (X : Type) (c : Call X) (w : World)
  : Result X * World :=
  let now := clock w in
  let w := tick w in
  match c in Call X return Result X * World with
  | Uuidv4 => (Ok (uuid o now), w)
  | DbInsert id fname st lang =>
      match db w !! id with
      | Some _ => (Err "SQLITE_CONSTRAINT: UNIQUE constraint failed: ocr_jobs.id", w)
      | None => (Ok tt, set_db (insert id (new_row id fname st lang now)) w)
      end
  | DbUpdateResult st txt js id =>
      (Ok tt, set_db (alter (with_result st txt js now) id) w)
  | DbUpdateStatus st id =>
      (Ok tt, set_db (alter (with_status st now) id) w)
  | DbSelect id => (Ok (db w !! id), w)
  | PdfConvert filePath => (convert o now filePath, w)
  | WriteFileSync p content => (Ok tt, set_files (insert p content) w)
  | UnlinkSync p =>
      match files w !! p with
      | Some _ => (Ok tt, set_files (delete p) w)
      | None => (Err "ENOENT: no such file or directory, unlink", w)
      end
  | CreateWorker lang => (createWorker o now lang, w)
  | Recognize wk filePath => (recognize o now wk filePath, w)
  | Terminate wk => (terminate o now wk, w)
  | ConsoleError label e =>
      (Ok tt, {| db := db w; files := files w; sent := sent w;
                 console := console w ++ [(label, e)]; clock := clock w |})
  | Respond res code body =>
      (Ok tt, {| db := db w; files := files w;
                 sent := sent w ++ [(res, code, body)];
                 console := console w; clock := clock w |})
  end.

(** ** The code *)

(** [performOCR(filePath, language)] *)
Definition performOCR (filePath language : string) : Prog Call OcrData :=
  worker <- call (CreateWorker language) ;;
  d <- call (Recognize worker filePath) ;;
  call (Terminate worker) ;;
  Ret d.

(** [`uploads/temp_${jobId}_${i}.png`] *)
Definition tempPath (jobId : string) (i : nat) : string :=
  "uploads/temp_" +:+ jobId +:+ "_" +:+ pretty i +:+ ".png".

(** The temporary files of pages [i], ..., [i + n - 1]. *)
Definition temp_paths (jobId : string) (i n : nat) : list string :=
  tempPath jobId <$> seq i n.

(** ['\n\n'] *)
Definition page_break : jstring := [LF; LF].

(** The loop [for (let i = 0; i < pdfImages.length; i++)] of the PDF branch,
    entered at index [i] with the images from [i] on still to do. *)
Fixpoint pdf_pages (jobId language : string) (i : nat) (pdfImages : list Bytes)
  (resultText : jstring) (resultJson : list PageEntry)
  : Prog Call (jstring * list PageEntry) :=
  match pdfImages with
  | [] => Ret (resultText, resultJson)
  | image :: rest =>
      call (WriteFileSync (tempPath jobId i) image) ;;
      d <- performOCR (tempPath jobId i) language ;;
      let resultText := resultText ++ (text d ++ page_break) in
      let resultJson := resultJson ++ [{| page := Some (i + 1); data := d |}] in
      call (UnlinkSync (tempPath jobId i)) ;;
      pdf_pages jobId language (S i) rest resultText resultJson
  end.

(** The body of the [try] block of the background closure, up to the
    values of [resultText] and [resultJson]. *)
Definition extract (jobId language filePath fileExt : string)
  : Prog Call (jstring * list PageEntry) :=
  if String.eqb fileExt ".pdf" then
    pdfImages <- call (PdfConvert filePath) ;;
    pdf_pages jobId language 0 pdfImages [] []
  else
    d <- performOCR filePath language ;;
    Ret (text d, [{| page := None; data := d |}]).

(** The background closure [(async () => { try {...} catch {...} })()]. *)
Definition background (jobId language filePath fileExt : string) : Task :=
  try_catch
    (r <- extract jobId language filePath fileExt ;;
     call (DbUpdateResult "completed" r.1 r.2 jobId))
    (fun error =>
       call (ConsoleError "OCR Processing Error:" error) ;;
       call (DbUpdateStatus "failed" jobId)).

(** [req.body.language || 'eng'] *)
Definition language_of (req : UploadReq) : string :=
  match body_language req with
  | Some l => if String.eqb l EmptyString then "eng" else l
  | None => "eng"
  end.

(** [POST /api/ocr/upload], answering on [res]. *)
Definition upload (res : nat) (req : UploadReq) : Task :=
  try_catch
    match file req with
    | None => call (Respond res 400 (BError "No file uploaded"))
    | Some f =>
        jobId <- call Uuidv4 ;;
        let language := language_of req in
        let filePath := path f in
        let fileExt := Path.toLowerCase (Path.extname (originalname f)) in
        call (DbInsert jobId (originalname f) "processing" language) ;;
        call (Respond res 202 (BAccepted jobId "processing")) ;;
        Fork (background jobId language filePath fileExt) (Ret tt)
    end
    (fun error =>
       call (ConsoleError "Upload Error:" error) ;;
       call (Respond res 500 (BError "Internal server error"))).

(** [GET /api/ocr/status/:id] *)
Definition get_status (res : nat) (id : string) : Task :=
  job <- call (DbSelect id) ;;
  match job with
  | None => call (Respond res 404 (BError "Job not found"))
  | Some job =>
      call (Respond res 200
              (BStatus (row_id job) (status job) (created_at job) (updated_at job)))
  end.

(** The [accessibility] object built from [job.result_text] and
    [job.language]. *)
Definition accessibility_of (result_text : jstring) (lang : string)
  : Accessibility :=
  {| alt_text :=
       replace_all LF [SPACE] (substring 0 200 result_text)
       ++ (if (200 <? length result_text)%nat then lit "..." else lit EmptyString);
     has_text := (0 <? length (trim result_text))%nat;
     language_detected := lang |}.

(** [GET /api/ocr/result/:id].  Reading [substring] of a [NULL]
    [result_text] throws; the handler has no [try], so nothing is sent. *)
Definition get_result (res : nat) (id : string) : Task :=
  job <- call (DbSelect id) ;;
  match job with
  | None => call (Respond res 404 (BError "Job not found"))
  | Some job =>
      if negb (String.eqb (status job) "completed")
      then call (Respond res 400 (BError "Job not completed yet"))
      else
        match result_text job with
        | None =>
            Throw "TypeError: Cannot read properties of null (reading 'substring')"
        | Some t =>
            call (Respond res 200
                    (BResult (row_id job) (filename job) (language job) t
                       (result_json job)
                       (accessibility_of t (language job))))
        end
  end.

Definition languages : list (string * string) :=
  [("eng", "English"); ("fra", "French"); ("deu", "German");
   ("spa", "Spanish"); ("ita", "Italian"); ("chi_sim", "Chinese Simplified");
   ("chi_tra", "Chinese Traditional"); ("jpn", "Japanese"); ("kor", "Korean");
   ("rus", "Russian"); ("ara", "Arabic"); ("hin", "Hindi")].

(** [GET /api/ocr/languages] *)
Definition get_languages (res : nat) : Task :=
  call (Respond res 200 (BLanguages languages)).

(** ** The server as a transition system

    The event loop holds a pool of tasks: handler invocations and the
    background closures they started.  A step either accepts a request,
    lets one task make its next call (with any collaborator outcome), or
    detaches a closure.  Tasks may be interleaved at every call, which
    includes every interleaving at an [await]. *)

Inductive Request : Type :=
| PostUpload (res : nat) (req : UploadReq)
| GetStatus (res : nat) (id : string)
| GetResult (res : nat) (id : string)
| GetLanguages (res : nat).

Definition handler (r : Request) : Task :=
  match r with
  | PostUpload res req => upload res req
  | GetStatus res id => get_status res id
  | GetResult res id => get_result res id
  | GetLanguages res => get_languages res
  end.

Record Sys : Type := {
  sys_world : World;
  pool : list Task }.

Inductive step : Sys -> Sys -> Prop :=
| step_request w ts r :
    step {| sys_world := w; pool := ts |}
         {| sys_world := w; pool := ts ++ [handler r] |}
| step_call w ts i X (c : Call X) k o :
    ts !! i = Some (Vis c k) ->
    step {| sys_world := w; pool := ts |}
         {| sys_world := (exec o X c w).2;
            pool := <[i := k (exec o X c w).1]> ts |}
| step_fork w ts i child k :
    ts !! i = Some (Fork child k) ->
    step {| sys_world := w; pool := ts |}
         {| sys_world := w; pool := <[i := k]> ts ++ [child] |}.

(** [trace_from s0 tr s]: the server, started in [s0], went through the
    states [tr] (oldest first) and is now in [s], the last of them. *)
Inductive trace_from (s0 : Sys) : list Sys -> Sys -> Prop :=
| trace_start : trace_from s0 [s0] s0
| trace_next tr s s' :
    trace_from s0 tr s -> step s s' -> trace_from s0 (tr ++ [s']) s'.

(** The server at start-up: table created and empty, no task. *)
Definition boot (fs : gmap string Bytes) : Sys :=
  {| sys_world := {| db := ∅; files := fs; sent := []; console := []; clock := 0 |};
     pool := [] |}.

(** The status the store holds for [id] in a state, if the job exists. *)
Definition status_in (id : string) (s : Sys) : option string :=
  status <$> db (sys_world s) !! id.

(** The status values the store holds for [id] along a trace, in order,
    each state contributing one reading. *)
Definition readings (id : string) (tr : list Sys) : list string :=
  omap (status_in id) tr.

(** The sequence of distinct successive values: runs of equal adjacent
    readings are merged. *)
Fixpoint changes (l : list string) : list string :=
  match l with
  | [] => []
  | x :: l' =>
      match l' with
      | y :: _ => if String.eqb x y then changes l' else x :: changes l'
      | [] => [x]
      end
  end.

(** The history of a job whose current status is [st]: the sequence of
    changes that leads to it. *)
Definition story (st : option string) : list string :=
  match st with
  | None => []
  | Some s => if String.eqb s "processing" then [s] else ["processing"; s]
  end.

(** ** What a task may still write

    The only statements that write to [ocr_jobs] are the [INSERT] of the
    upload handler and the two [UPDATE]s of the background closure. *)

Inductive Write : Type :=
| NoWrite
| Inserts (id st : string)
| Updates (id st : string) (sets_result : bool).

Definition write_of {X} (c : Call X) : Write :=
  match c with
  | DbInsert id _ st _ => Inserts id st
  | DbUpdateResult st _ _ id => Updates id st true
  | DbUpdateStatus st id => Updates id st false
  | _ => NoWrite
  end.

(** The events that call the page renderer. *)
Definition renders (e : Event Call) : bool :=
  match (projT2 e).1 with
  | PdfConvert _ => true
  | _ => false
  end.

(** Two versions of the row of one job: the columns set at submission are
    the same. *)
Definition same_job (r r' : Row) : Prop :=
  row_id r' = row_id r /\ filename r' = filename r /\
  language r' = language r /\ created_at r' = created_at r.

(** The calls that answer a request. *)
Definition responds {X} (c : Call X) : bool :=
  match c with
  | Respond _ _ _ => true
  | _ => false
  end.

(** [quiet p]: [p] writes nothing to the table and detaches nothing. *)
Fixpoint quiet {A : Type} (p : Prog Call A) : Prop :=
  match p with
  | Ret _ | Throw _ => True
  | Vis c k => write_of c = NoWrite /\ forall r, quiet (k r)
  | Fork _ _ => False
  end.

Definition final_write (st : string) (sets_result : bool) : Prop :=
  (st = "completed" /\ sets_result = true) \/ st = "failed".

(** [owner id p]: the only write [p] may still make is one final [UPDATE]
    of job [id]; once it has succeeded [p] is quiet.  A task that detaches
    the closure owning [id] hands the job over to it. *)
Fixpoint owner {A : Type} (id : string) (p : Prog Call A) : Prop :=
  match p with
  | Ret _ | Throw _ => True
  | Vis c k =>
      match write_of c with
      | NoWrite => forall r, owner id (k r)
      | Inserts _ _ => False
      | Updates id' st full =>
          id' = id /\ final_write st full /\
          (forall x, quiet (k (Ok x))) /\ (forall e, owner id (k (Err e)))
      end
  | Fork child k => owner id child /\ quiet k
  end.

(** [starter p]: [p] has written nothing yet; its first write, if any, is
    the [INSERT] of a row in status [processing], which makes it the owner
    of that job if the statement succeeds. *)
Fixpoint starter {A : Type} (p : Prog Call A) : Prop :=
  match p with
  | Ret _ | Throw _ => True
  | Vis c k =>
      match write_of c with
      | NoWrite => forall r, starter (k r)
      | Inserts id st =>
          st = "processing" /\
          (forall x, owner id (k (Ok x))) /\ (forall e, quiet (k (Err e)))
      | Updates _ _ _ => False
      end
  | Fork _ _ => False
  end.

(** A task is tagged with the job it owns, if any. *)
Definition tagged (p : Task) (t : option string) : Prop :=
  match t with
  | None => starter p
  | Some id => owner id p
  end.

Definition row_ok (r : Row) : Prop :=
  (status r = "processing" \/ status r = "completed" \/ status r = "failed")
  /\ (status r = "completed" -> is_Some (result_text r) /\ is_Some (result_json r)).

(** The invariant of the server: every job in status [processing] has at
    most one owner among the tasks, and only jobs in that status have one. *)
Record invariant (s : Sys) (tags : list (option string)) : Prop := {
  inv_tagged : Forall2 tagged (pool s) tags;
  inv_processing :
    forall i id, tags !! i = Some (Some id) -> status_in id s = Some "processing";
  inv_unique :
    forall i i' id,
      tags !! i = Some (Some id) -> tags !! i' = Some (Some id) -> i = i';
  inv_rows : map_Forall (fun _ r => row_ok r) (db (sys_world s)) }.

(** One step of the status of a job, as the state machine allows it. *)
Definition status_move (a b : option string) : Prop :=
  a = b
  \/ (a = None /\ b = Some "processing")
  \/ (a = Some "processing" /\ (b = Some "completed" \/ b = Some "failed")).

(** ** A scheduler, to build traces by computation *)

Inductive Action : Type :=
| Accept (r : Request)
| Advance (i : nat) (o : Oracle)
| Detach (i : nat).

Definition act (a : Action) (s : Sys) : option Sys :=
  match a with
  | Accept r =>
      Some {| sys_world := sys_world s; pool := pool s ++ [handler r] |}
  | Advance i o =>
      match pool s !! i with
      | Some (Vis c k) =>
          Some {| sys_world := (exec o _ c (sys_world s)).2;
                  pool := <[i := k (exec o _ c (sys_world s)).1]> (pool s) |}
      | _ => None
      end
  | Detach i =>
      match pool s !! i with
      | Some (Fork child k) =>
          Some {| sys_world := sys_world s; pool := <[i := k]> (pool s) ++ [child] |}
      | _ => None
      end
  end.

(** The states visited by a schedule, the start excluded; the schedule
    stops at the first action that is not enabled. *)
Fixpoint play (acts : list Action) (s : Sys) : list Sys :=
  match acts with
  | [] => []
  | a :: rest =>
      match act a s with
      | Some s' => s' :: play rest s'
      | None => []
      end
  end.

(** The state a schedule ends in. *)
Definition final (acts : list Action) (s : Sys) : Sys :=
  default s (last (play acts s)).

(** ** Sample inputs *)

Module Sample.

Definition w0 : World :=
  {| db := ∅; files := ∅; sent := []; console := []; clock := 0 |}.

Definition page_a : OcrData := {| text := lit "a"; details := [] |}.
Definition page_b : OcrData := {| text := lit "b"; details := [] |}.

(** Collaborators that all succeed: a two-page document, pages read as
    [a] and [b]. *)
Definition good : Oracle :=
  {| uuid := fun _ => "j1";
     convert := fun _ _ => Ok [[Byte.x01]; [Byte.x02]];
     createWorker := fun _ _ => Ok 0;
     recognize := fun _ _ p =>
       if String.eqb p "uploads/temp_j1_1.png" then Ok page_b else Ok page_a;
     terminate := fun _ _ => Ok tt |}.

(** The same with a recognizer that throws [msg]. *)
Definition failing (msg : string) : Oracle :=
  {| uuid := uuid good; convert := convert good;
     createWorker := createWorker good;
     recognize := fun _ _ _ => Err msg;
     terminate := terminate good |}.

Definition png : UploadReq :=
  {| file := Some {| path := "uploads/u1.png"; originalname := "scan.png" |};
     body_language := Some "eng" |}.

Definition exe : UploadReq :=
  {| file := Some {| path := "uploads/u2.exe"; originalname := "setup.exe" |};
     body_language := None |}.

Definition pdf : UploadReq :=
  {| file := Some {| path := "uploads/u3.pdf"; originalname := "paper.pdf" |};
     body_language := None |}.

(** A row in each status. *)
Definition row (st : string) (t : option jstring) : Row :=
  {| row_id := "j1"; filename := "scan.png"; status := st; language := "eng";
     result_text := t; result_json := None; created_at := 0; updated_at := 0 |}.

Definition world_with (r : Row) : World :=
  {| db := {[ "j1" := r ]}; files := ∅; sent := []; console := []; clock := 0 |}.

(** A schedule: one image upload, run to its end while a status request
    and a result request come in. *)
Definition schedule : list Action :=
  [Accept (PostUpload 0 png); Advance 0 good; Advance 0 good;
   Accept (GetStatus 1 "j1"); Advance 0 good; Detach 0; Advance 1 good;
   Advance 2 good; Advance 2 good; Advance 1 good; Advance 2 good;
   Advance 2 good; Accept (GetResult 2 "j1"); Advance 3 good; Advance 3 good].

End Sample.

End JobApi.


(** * The synchronous server of [index.js]: the [/pdf] route *)

Module Visionless.

Import Js.

Definition Bytes : Type := list Byte.byte.

(** ** Data *)

(** What [analyzeImage] returns. *)
Record Meta : Type := {
  format : string;
  width : nat;
  height : nat;
  channels : nat;
  hasAlpha : bool;
  density : option nat;
  dominant : option (nat * nat * nat) }.

(** What [ocrImage] returns: [{ text }] or [{ text, words }]. *)
Record Ocr : Type := {
  text : jstring;
  words : option (list jstring) }.

(** What [pdfParse] resolves to; the handler reads [text] only. *)
Record Parsed : Type := {
  parsed_text : option jstring }.

(** An element of [out.pages]. *)
Record Page : Type := {
  page : nat;
  image : string;
  meta : Meta;
  ocr : Ocr }.

(** The object [out] of the [/pdf] handler; [out_text] and [summary] are
    absent until assigned. *)
Record Out : Type := {
  out_file : string;
  pages : list Page;
  textExtracted : bool;
  out_text : option jstring;
  summary : option (option jstring) }.

(** [req.file], [req.query] and [req.body] as the handlers read them. *)
Record Upload : Type := {
  path : string;
  originalname : string }.

Record Fields : Type := {
  url : option string;
  lang : option string }.

Record Req : Type := {
  file : option Upload;
  query : Fields;
  body : option Fields }.

(** What [getFileFromReq] returns. *)
Record Source : Type := {
  src_path : string;
  src_originalname : string;
  cleanup : bool }.

Inductive Body : Type :=
| BOk (result : Out)              (* { ok: true, result: out } *)
| BFail (error : string).         (* { ok: false, error: e.message } *)

(** ** Calls

    [analyzeImage], [ocrImage] and [pdfToImages] are the wrappers of
    [index.js] around the image library, the recognizer and the page
    renderer; they are calls here, like the libraries themselves.  The
    handler uses their results, and they act on the files: [pdfToImages]
    leaves the page images it lists on disk, [ocrImage] may write or
    remove the output file of the command-line recognizer.  [files] holds
    the regular files; directories are part of the state of the module
    [Tools] below, where the wrappers are embedded call by call. *)

Inductive Call : Type -> Type :=
| Uuidv4 : Call string
  (* path.extname(new URL(url).pathname) *)
| UrlExtname (url : string) : Call string
| DownloadToFile (url destPath : string) : Call string
| ReadFileSync (path : string) : Call Bytes
| PdfParse (buffer : Bytes) : Call (option Parsed)
| PdfToImages (pdfPath outDir baseName : string) : Call (list string)
| AnalyzeImage (filePath : string) : Call Meta
| OcrImage (filePath lang : string) : Call Ocr
| G4fCall (prompt : jstring) : Call jstring
| UnlinkSync (path : string) : Call unit
| ConsoleError (label : string) (e : Error) : Call unit
| Respond (res : nat) (code : nat) (body : Body) : Call unit.

Record World : Type := {
  files : gmap string Bytes;
  sent : list (nat * nat * Body);
  console : list (string * Error);
  clock : nat }.

Record Oracle : Type := {
  uuid : nat -> string;
  urlExtname : nat -> string -> Result string;
  download : nat -> string -> string -> Result Bytes;
  pdfParse : nat -> Bytes -> Result (option Parsed);
  pdfToImages : nat -> string -> string -> string -> Result (list string);
  analyzeImage : nat -> string -> Result Meta;
  ocrImage : nat -> string -> string -> Result Ocr;
  g4f : nat -> jstring -> Result jstring;
  (* what a download that fails leaves in the file it had opened *)
  partial : nat -> string -> string -> Bytes;
  (* the image the page renderer wrote at a path *)
  page_image : nat -> string -> Bytes;
  (* what [ocrImage] does to the output file of the command-line
     recognizer: nothing, or it leaves it absent, or with a content *)
  ocr_output : nat -> string -> string -> option (option Bytes) }.

(** The output file of the command-line recognizer for an image:
    [filePath + '-ocr' + '.txt']. *)
Definition ocr_txt (filePath : string) : string :=
  (filePath +:+ "-ocr") +:+ ".txt".

Definition set_files (f : gmap string Bytes -> gmap string Bytes) (w : World)
  : World :=
  {| files := f (files w); sent := sent w; console := console w;
     clock := clock w |}.

(** The files after the page renderer has written its images. *)
Definition render (content : string -> Bytes) (imgs : list string)
  (fs : gmap string Bytes) : gmap string Bytes :=
  foldr (fun p acc => <[p := content p]> acc) fs imgs.

Definition exec (o : Oracle) (X : Type) (c : Call X) (w : World)
  : Result X * World :=
  let now := clock w in
  let w := {| files := files w; sent := sent w; console := console w;
              clock := S (clock w) |} in
  match c in Call X return Result X * World with
  | Uuidv4 => (Ok (uuid o now), w)
  | UrlExtname u => (urlExtname o now u, w)
  | DownloadToFile u dest =>
      match download o now u dest with
      | Ok content =>
          (Ok dest, {| files := <[dest := content]> (files w); sent := sent w;
                       console := console w; clock := clock w |})
      | Err e =>
          (* [createWriteStream] has created the file before the request *)
          (Err e, set_files (insert dest (partial o now u dest)) w)
      end
  | ReadFileSync p =>
      match files w !! p with
      | Some content => (Ok content, w)
      | None => (Err "ENOENT: no such file or directory, open", w)
      end
  | PdfParse buffer => (pdfParse o now buffer, w)
  | PdfToImages pdfPath outDir baseName =>
      (* the images listed are on disk; when the wrapper throws nothing
         has been rendered: [mkdirSync] comes before the renderer *)
      match pdfToImages o now pdfPath outDir baseName with
      | Ok imgs => (Ok imgs, set_files (render (page_image o now) imgs) w)
      | Err e => (Err e, w)
      end
  | AnalyzeImage p => (analyzeImage o now p, w)
  | OcrImage p l =>
      (ocrImage o now p l,
       match ocr_output o now p l with
       | None => w
       | Some None => set_files (delete (ocr_txt p)) w
       | Some (Some content) => set_files (insert (ocr_txt p) content) w
       end)
  | G4fCall prompt => (g4f o now prompt, w)
  | UnlinkSync p =>
      match files w !! p with
      | Some _ => (Ok tt, {| files := delete p (files w); sent := sent w;
                             console := console w; clock := clock w |})
      | None => (Err "ENOENT: no such file or directory, unlink", w)
      end
  | ConsoleError label e =>
      (Ok tt, {| files := files w; sent := sent w;
                 console := console w ++ [(label, e)]; clock := clock w |})
  | Respond res code body =>
      (Ok tt, {| files := files w; sent := sent w ++ [(res, code, body)];
                 console := console w; clock := clock w |})
  end.

(** ** The code *)

Section Code.

(** [path.resolve(__dirname, 'uploads')] *)
Variable UPLOAD_DIR : string.

(** [path.join(...segments)] *)
Definition path_join (segments : list string) : string :=
  Path.join segments.

Definition truthy_string (s : option string) : bool :=
  match s with
  | Some s => negb (String.eqb s EmptyString)
  | None => false
  end.

(** [req.query.url || req.body && req.body.url] *)
Definition url_of (req : Req) : option string :=
  if truthy_string (url (query req)) then url (query req)
  else match body req with
       | Some b => url b
       | None => None
       end.

(** The message of the error thrown when neither a file nor a url is given;
    the word [file] is between double quotes in the source. *)
Definition no_file_message : string :=
  let q := String (ascii_of_nat 34) EmptyString in
  "no file uploaded and no url provided (use multipart form field "
  +:+ q +:+ "file" +:+ q +:+ " or ?url=...)".

(** [getFileFromReq(req)] *)
Definition getFileFromReq (req : Req) : Prog Call Source :=
  match file req with
  | Some f =>
      Ret {| src_path := path f; src_originalname := originalname f;
             cleanup := false |}
  | None =>
      let url := url_of req in
      if negb (truthy_string url)
      then Throw no_file_message
      else
        let url := default EmptyString url in
        e <- call (UrlExtname url) ;;
        let ext := e in
        id <- call Uuidv4 ;;
        let tmpName :=
          path_join [UPLOAD_DIR; id +:+ (if String.eqb ext EmptyString then ".bin" else ext)] in
        call (DownloadToFile url tmpName) ;;
        Ret {| src_path := tmpName; src_originalname := url; cleanup := true |}
  end.

(** [llmSummarize(prompt)]: the summarizer's answer, [null] when it
    throws. *)
Definition llmSummarize (prompt : jstring) : Prog Call (option jstring) :=
  try_catch
    (out <- call (G4fCall prompt) ;; Ret (Some out))
    (fun e => call (ConsoleError "LLM error" e) ;; Ret None).

(** [parsed && parsed.text && parsed.text.trim().length > 30]: the text
    layer when the test passes. *)
Definition text_layer (parsed : option Parsed) : option jstring :=
  match parsed with
  | Some p =>
      match parsed_text p with
      | Some t =>
          if truthy (Some t) && (30 <? length (trim t))%nat then Some t else None
      | None => None
      end
  | None => None
  end.

(** [req.query.lang || 'eng'] *)
Definition query_lang (req : Req) : string :=
  if truthy_string (lang (query req)) then default EmptyString (lang (query req))
  else "eng".

(** The loop [for (let i=0;i<imgs.length;i++)] of the rasterize branch,
    entered at index [i]; [acc] is [out.pages] so far. *)
Fixpoint ocr_pages (req : Req) (i : nat) (imgs : list string) (acc : list Page)
  : Prog Call (list Page) :=
  match imgs with
  | [] => Ret acc
  | p :: rest =>
      m <- call (AnalyzeImage p) ;;
      o <- call (OcrImage p (query_lang req)) ;;
      ocr_pages req (S i) rest
        (acc ++ [{| page := i + 1; image := Path.basename p; meta := m; ocr := o |}])
  end.

(** ['\n\n'] *)
Definition page_break : jstring := [LF; LF].

(** [(out.text || out.pages.map(p => p.ocr && p.ocr.text ? p.ocr.text : '')
      .join('\n\n')).slice(0,4000)] *)
Definition combined (out : Out) : jstring :=
  slice 0 4000
    (if truthy (out_text out) then default [] (out_text out)
     else join page_break ((fun p => text (ocr p)) <$> pages out)).

Definition summarize_prompt : jstring :=
  lit "Summarize the document in 5 sentences and return keywords:" ++ [LF; LF].

Definition with_summary (s : option jstring) (out : Out) : Out :=
  {| out_file := out_file out; pages := pages out;
     textExtracted := textExtracted out; out_text := out_text out;
     summary := Some s |}.

(** The [try] block of the [/pdf] handler up to the value of [out] before
    the summary. *)
Definition pdf_extract (req : Req) (f : Source) : Prog Call Out :=
  buffer <- call (ReadFileSync (src_path f)) ;;
  parsed <- call (PdfParse buffer) ;;
  match text_layer parsed with
  | Some t =>
      Ret {| out_file := src_originalname f; pages := []; textExtracted := true;
             out_text := Some t; summary := None |}
  | None =>
      id <- call Uuidv4 ;;
      let imagesDir := path_join [UPLOAD_DIR; "pdfimgs"; id] in
      imgs <- call (PdfToImages (src_path f) imagesDir "p") ;;
      ps <- ocr_pages req 0 imgs [] ;;
      Ret {| out_file := src_originalname f; pages := ps; textExtracted := false;
             out_text := None; summary := None |}
  end.

(** The end of the [try] block: summary, removal of a downloaded file,
    response. *)
Definition pdf_reply (res : nat) (f : Source) (out : Out) : Prog Call unit :=
  s <- llmSummarize (summarize_prompt ++ combined out) ;;
  (if cleanup f
   then try_catch (call (UnlinkSync (src_path f))) (fun _ => Ret tt)
   else Ret tt) ;;
  call (Respond res 200 (BOk (with_summary s out))).

(** [app.all('/pdf', ...)], answering on [res]. *)
Definition pdf (res : nat) (req : Req) : Prog Call unit :=
  try_catch
    (f <- getFileFromReq req ;;
     out <- pdf_extract req f ;;
     pdf_reply res f out)
    (fun e =>
       call (ConsoleError EmptyString e) ;;
       call (Respond res 400 (BFail e))).

End Code.

Arguments path_join : simpl never.

(** The events that rasterize or recognize a page. *)
Definition rasterizes (e : Event Call) : bool :=
  match (projT2 e).1 with
  | PdfToImages _ _ _ | AnalyzeImage _ | OcrImage _ _ => true
  | _ => false
  end.

(** The text layer read by an event, if it is a successful [pdfParse]. *)
Definition parsed_by (e : Event Call) : option (option Parsed) :=
  match e with
  | existT X (c, r) =>
      match c in Call X return Result X -> option (option Parsed) with
      | PdfParse _ => fun r => match r with Ok p => Some p | Err _ => None end
      | _ => fun _ => None
      end r
  end.

(** The calls that answer a request. *)
Definition responds {X} (c : Call X) : bool :=
  match c with
  | Respond _ _ _ => true
  | _ => false
  end.

(** The calls that create, change or remove a file. *)
Definition writes_file {X} (c : Call X) : bool :=
  match c with
  | DownloadToFile _ _ | UnlinkSync _ | PdfToImages _ _ _ | OcrImage _ _ => true
  | _ => false
  end.

(** The calls of the handler itself on the file of the request. *)
Definition downloads_or_unlinks {X} (c : Call X) : bool :=
  match c with
  | DownloadToFile _ _ | UnlinkSync _ => true
  | _ => false
  end.

(** The paths an event of the wrappers [pdfToImages] and [ocrImage] may
    have written or removed: the page images listed, the output file of
    the command-line recognizer. *)
Definition wrapper_paths_of (e : Event Call) : list string :=
  match e with
  | existT X (c, r) =>
      match c in Call X return Result X -> list string with
      | PdfToImages _ _ _ =>
          fun r => match r with Ok imgs => imgs | Err _ => [] end
      | OcrImage p _ => fun _ => [ocr_txt p]
      | _ => fun _ => []
      end r
  end.

Definition wrapper_paths (events : list (Event Call)) : list string :=
  concat (wrapper_paths_of <$> events).

(** The prompt of a call to the summarizer: the fixed instruction, then
    at most 4000 code units of text. *)
Definition prompt_bounded {X} (c : Call X) : Prop :=
  match c with
  | G4fCall prompt =>
      exists txt, prompt = summarize_prompt ++ txt /\ length txt <= 4000
  | _ => True
  end.

(** The [catch] block of the [/pdf] handler. *)
Definition pdf_catch (res : nat) (e : Error) : Prog Call unit :=
  call (ConsoleError EmptyString e) ;;
  call (Respond res 400 (BFail e)).

(** An event that neither rasterizes nor reads a text layer. *)
Definition plain (e : Event Call) : Prop :=
  rasterizes e = false /\ parsed_by e = None.

(** ** Sample inputs *)

Module Sample.

Definition w0 : World :=
  {| files := {[ "uploads/doc" := [Byte.x25; Byte.x50] ]};
     sent := []; console := []; clock := 0 |}.

Definition req : Req :=
  {| file := Some {| path := "uploads/doc"; originalname := "doc.pdf" |};
     query := {| url := None; lang := None |}; body := None |}.

Definition some_meta : Meta :=
  {| format := "png"; width := 10; height := 10; channels := 3;
     hasAlpha := false; density := None; dominant := None |}.

(** A document whose text layer is [t], rendered as two pages read as
    [a] and [b]. *)
Definition layered (t : jstring) : Oracle :=
  {| uuid := fun _ => "u";
     urlExtname := fun _ _ => Ok ".pdf";
     download := fun _ _ _ => Ok [];
     pdfParse := fun _ _ => Ok (Some {| parsed_text := Some t |});
     pdfToImages := fun _ _ dir _ => Ok [dir +:+ "/p-1.png"; dir +:+ "/p-2.png"];
     analyzeImage := fun _ _ => Ok some_meta;
     ocrImage := fun _ p _ =>
       if String.eqb (Path.basename p) "p-1.png"
       then Ok {| text := lit "a"; words := None |}
       else Ok {| text := lit "b"; words := None |};
     g4f := fun _ _ => Ok (lit "summary");
     partial := fun _ _ _ => [];
     page_image := fun _ _ => [Byte.x89; Byte.x50];
     ocr_output := fun _ _ _ => Some None |}.

(** Forty letters, and forty spaces. *)
Definition letters : jstring := replicate 40 120%N.
Definition blanks : jstring := replicate 40 SPACE.

(** A request by url. *)
Definition by_url : Req :=
  {| file := None;
     query := {| url := Some "http://example.org/a.pdf"; lang := None |};
     body := None |}.

(** A document that downloads as one byte and that the parser rejects. *)
Definition unparsable : Oracle :=
  {| uuid := uuid (layered letters);
     urlExtname := urlExtname (layered letters);
     download := fun _ _ _ => Ok [Byte.x25];
     pdfParse := fun _ _ => Err "bad XRef entry";
     pdfToImages := pdfToImages (layered letters);
     analyzeImage := analyzeImage (layered letters);
     ocrImage := ocrImage (layered letters);
     g4f := g4f (layered letters);
     partial := partial (layered letters);
     page_image := page_image (layered letters);
     ocr_output := ocr_output (layered letters) |}.

(** A host that refuses the connection. *)
Definition unreachable : Oracle :=
  {| uuid := uuid (layered letters);
     urlExtname := urlExtname (layered letters);
     download := fun _ _ _ => Err "connect ECONNREFUSED";
     pdfParse := pdfParse (layered letters);
     pdfToImages := pdfToImages (layered letters);
     analyzeImage := analyzeImage (layered letters);
     ocrImage := ocrImage (layered letters);
     g4f := g4f (layered letters);
     partial := partial (layered letters);
     page_image := page_image (layered letters);
     ocr_output := ocr_output (layered letters) |}.

End Sample.

End Visionless.

(** * The helpers of [index.js] and the routes [/ocr] and [/describe]

    [analyzeImage], [ocrImage] and [pdfToImages], calls of the [/pdf]
    embedding above, are embedded here over the calls they make
    themselves; [getFileFromReq] and [llmSummarize] are reused through
    [lift]. *)

Module Tools.

Import Js.

(** ** Data *)

(** What the image library reports: the fields [analyzeImage] reads. *)
Record SharpMeta : Type := {
  s_format : string;
  s_width : nat;
  s_height : nat;
  s_channels : nat;
  s_hasAlpha : bool;
  s_density : option nat }.

Record SharpStats : Type := {
  s_dominant : option (nat * nat * nat) }.

(** The [data] of a recognition by the library worker. *)
Record RecData : Type := {
  rec_text : jstring;
  rec_words : list jstring }.

Definition Worker : Type := nat.

(** JSON bodies of [/ocr] and [/describe]. *)
Inductive Reply : Type :=
  (* { ok: true, file, meta, ocr } *)
| ROcr (file : string) (meta : Visionless.Meta) (ocr : Visionless.Ocr)
  (* { ok: true, file, meta, ocr, llm } *)
| RDescribe (file : string) (meta : Visionless.Meta) (ocr : Visionless.Ocr)
            (llm : option jstring)
  (* { ok: false, error } *)
| RFail (error : string).

(** ** Calls *)

Inductive Call : Type -> Type :=
| Base {X : Type} (c : Visionless.Call X) : Call X
  (* sharp(filePath).metadata() and .stats() *)
| SharpMetadata (filePath : string) : Call SharpMeta
| SharpStatsOf (filePath : string) : Call (option SharpStats)
  (* spawnSync('tesseract', args, ...); its return value is not read *)
| SpawnTesseract (args : list string) : Call unit
| ExistsSync (path : string) : Call bool
  (* fs.readFileSync(path, 'utf8') *)
| ReadFileUtf8 (path : string) : Call jstring
| ConsoleWarn (msg : string) (e : Error) : Call unit
| CreateWorker : Call Worker
| WorkerLoad (worker : Worker) : Call unit
| LoadLanguage (worker : Worker) (lang : string) : Call unit
| Initialize (worker : Worker) (lang : string) : Call unit
| Recognize (worker : Worker) (filePath : string) : Call RecData
| Terminate (worker : Worker) : Call unit
  (* fs.mkdirSync(dir, { recursive: true }) *)
| MkdirSync (dir : string) : Call unit
  (* spawnSync('pdftoppm', ['-png', pdfPath, outBase], ...) *)
| SpawnPdftoppm (pdfPath outBase : string) : Call unit
| ReaddirSync (dir : string) : Call (list string)
  (* res.status(code).json(body) *)
| Respond (res : nat) (code : nat) (body : Reply) : Call unit.

(** ** World *)

Record World : Type := {
  base : Visionless.World;              (* files, console, clock *)
  dirs : gset string;                   (* directories *)
  replies : list (nat * nat * Reply) }. (* responses of /ocr and /describe *)

Record Oracle : Type := {
  vis : Visionless.Oracle;
  metadata : nat -> string -> Result SharpMeta;
  stats : nat -> string -> Result (option SharpStats);
  (* the recognizer program: throws, writes nothing, or writes its output *)
  tesseract : nat -> list string -> Result (option Visionless.Bytes);
  utf8 : Visionless.Bytes -> jstring;
  createWorker : nat -> Result Worker;
  load : nat -> Worker -> Result unit;
  loadLanguage : nat -> Worker -> string -> Result unit;
  initialize : nat -> Worker -> string -> Result unit;
  recognize : nat -> Worker -> string -> Result RecData;
  terminate : nat -> Worker -> Result unit;
  pdftoppm : nat -> string -> string -> Result unit;
  (* the files the page renderer writes: suffix after [outBase], content *)
  pdftoppm_writes : nat -> string -> string -> list (string * Visionless.Bytes);
  readdir : nat -> string -> Result (list string) }.

Definition with_base (b : Visionless.World) (w : World) : World :=
  {| base := b; dirs := dirs w; replies := replies w |}.

Definition tick (w : World) : World :=
  with_base
    {| Visionless.files := Visionless.files (base w);
       Visionless.sent := Visionless.sent (base w);
       Visionless.console := Visionless.console (base w);
       Visionless.clock := S (Visionless.clock (base w)) |} w.

Definition set_files
  (f : gmap string Visionless.Bytes -> gmap string Visionless.Bytes) (w : World)
  : World :=
  with_base
    {| Visionless.files := f (Visionless.files (base w));
       Visionless.sent := Visionless.sent (base w);
       Visionless.console := Visionless.console (base w);
       Visionless.clock := Visionless.clock (base w) |} w.

(** The file the recognizer program writes: its second argument with
    [.txt] appended. *)
Definition output_of (args : list string) : option string :=
  match args with
  | _ :: outputBase :: _ => Some (outputBase +:+ ".txt")
  | _ => None
  end.

Definition exec (o : Oracle) (X : Type) (c : Call X) (w : World)
  : Result X * World :=
  let now := Visionless.clock (base w) in
  match c in Call X return Result X * World with
  | Base c' =>
      let '(r, b) := Visionless.exec (vis o) _ c' (base w) in (r, with_base b w)
  | SharpMetadata p => (metadata o now p, tick w)
  | SharpStatsOf p => (stats o now p, tick w)
  | SpawnTesseract args =>
      match tesseract o now args with
      | Err e => (Err e, tick w)
      | Ok None => (Ok tt, tick w)
      | Ok (Some content) =>
          match output_of args with
          | Some txtPath => (Ok tt, set_files (insert txtPath content) (tick w))
          | None => (Ok tt, tick w)
          end
      end
  | ExistsSync p =>
      (Ok (bool_decide (is_Some (Visionless.files (base w) !! p))
           || bool_decide (p ∈ dirs w)), tick w)
  | ReadFileUtf8 p =>
      match Visionless.files (base w) !! p with
      | Some content => (Ok (utf8 o content), tick w)
      | None => (Err "ENOENT: no such file or directory, open", tick w)
      end
  | ConsoleWarn msg e =>
      (Ok tt,
       with_base
         {| Visionless.files := Visionless.files (base w);
            Visionless.sent := Visionless.sent (base w);
            Visionless.console := Visionless.console (base w) ++ [(msg, e)];
            Visionless.clock := S (Visionless.clock (base w)) |} w)
  | CreateWorker => (createWorker o now, tick w)
  | WorkerLoad wk => (load o now wk, tick w)
  | LoadLanguage wk l => (loadLanguage o now wk l, tick w)
  | Initialize wk l => (initialize o now wk l, tick w)
  | Recognize wk p => (recognize o now wk p, tick w)
  | Terminate wk => (terminate o now wk, tick w)
  | MkdirSync d =>
      (Ok tt, {| base := base (tick w); dirs := {[ d ]} ∪ dirs w;
                 replies := replies w |})
  | SpawnPdftoppm pdfPath outBase =>
      (pdftoppm o now pdfPath outBase,
       set_files
         (fun fs =>
            foldr (fun f acc => <[outBase +:+ f.1 := f.2]> acc) fs
              (pdftoppm_writes o now pdfPath outBase))
         (tick w))
  | ReaddirSync d => (readdir o now d, tick w)
  | Respond res code body =>
      (Ok tt, {| base := base (tick w); dirs := dirs w;
                 replies := replies w ++ [(res, code, body)] |})
  end.

(** ** The code *)

(** A program over the calls of the [/pdf] embedding, as a program
    here. *)
Fixpoint lift {A : Type} (p : Prog Visionless.Call A) : Prog Call A :=
  match p with
  | Ret a => Ret a
  | Throw e => Throw e
  | Vis c k => Vis (Base c) (fun r => lift (k r))
  | Fork child k => Fork (lift child) (lift k)
  end.

(** [meta.density || null] *)
Definition density_of (d : option nat) : option nat :=
  match d with
  | Some (S n) => Some (S n)
  | _ => None
  end.

(** [analyzeImage(filePath)] *)
Definition analyzeImage (filePath : string) : Prog Call Visionless.Meta :=
  m <- call (SharpMetadata filePath) ;;
  st <- call (SharpStatsOf filePath) ;;
  let dominant := match st with Some s => s_dominant s | None => None end in
  Ret {| Visionless.format := s_format m; Visionless.width := s_width m;
         Visionless.height := s_height m; Visionless.channels := s_channels m;
         Visionless.hasAlpha := s_hasAlpha m;
         Visionless.density := density_of (s_density m);
         Visionless.dominant := dominant |}.

(** The arguments [ocrImage] passes to the recognizer program. *)
Definition tesseract_args (filePath lang : string) : list string :=
  [filePath; filePath +:+ "-ocr"; "-l"; lang; "--oem"; "1"; "--psm"; "3"].

(** The [if (USE_TESSERACT_CLI) { try {...} catch {...} }] block of
    [ocrImage]: the value returned from inside it, if any. *)
Definition ocr_cli (filePath lang : string) : Prog Call (option Visionless.Ocr) :=
  try_catch
    (let outputBase := filePath +:+ "-ocr" in
     call (SpawnTesseract (tesseract_args filePath lang)) ;;
     let txtPath := outputBase +:+ ".txt" in
     found <- call (ExistsSync txtPath) ;;
     if found : bool then
       txt <- call (ReadFileUtf8 txtPath) ;;
       try_catch (call (Base (Visionless.UnlinkSync txtPath))) (fun _ => Ret tt) ;;
       Ret (Some {| Visionless.text := txt; Visionless.words := None |})
     else Ret None)
    (fun e =>
       call (ConsoleWarn "tesseract CLI failed, falling back to tesseract.js" e) ;;
       Ret None).

(** The rest of [ocrImage]: the library worker. *)
Definition ocr_worker (filePath lang : string) : Prog Call Visionless.Ocr :=
  worker <- call CreateWorker ;;
  call (WorkerLoad worker) ;;
  call (LoadLanguage worker lang) ;;
  call (Initialize worker lang) ;;
  d <- call (Recognize worker filePath) ;;
  call (Terminate worker) ;;
  Ret {| Visionless.text := rec_text d; Visionless.words := Some (rec_words d) |}.

Section Code.

(** [USE_TESSERACT_CLI] and [UPLOAD_DIR], fixed when the server starts. *)
Variable USE_TESSERACT_CLI : bool.
Variable UPLOAD_DIR : string.

(** [ocrImage(filePath, lang)] *)
Definition ocrImage (filePath lang : string) : Prog Call Visionless.Ocr :=
  returned <- (if USE_TESSERACT_CLI then ocr_cli filePath lang else Ret None) ;;
  match returned with
  | Some o => Ret o
  | None => ocr_worker filePath lang
  end.

(** [f.startsWith(baseName) && f.endsWith('.png')] *)
Definition is_page_image (baseName f : string) : bool :=
  bool_decide (list_ascii_of_string baseName `prefix_of` list_ascii_of_string f)
  && bool_decide (list_ascii_of_string ".png" `suffix_of` list_ascii_of_string f).

(** The order of [Array.prototype.sort] without comparator: strings by
    their code units. *)
Definition str_le (a b : string) : Prop := String.leb a b = true.

#[global] Instance str_le_dec : RelDecision str_le.
Proof. intros a b. unfold str_le. apply _. Defined.

(** [pdfToImages(pdfPath, outDir, baseName)] *)
Definition pdfToImages (pdfPath outDir baseName : string)
  : Prog Call (list string) :=
  found <- call (ExistsSync outDir) ;;
  (if negb found then call (MkdirSync outDir) else Ret tt) ;;
  let outBase := Visionless.path_join [outDir; baseName] in
  call (SpawnPdftoppm pdfPath outBase) ;;
  entries <- call (ReaddirSync outDir) ;;
  Ret (merge_sort str_le
         ((fun f => Visionless.path_join [outDir; f])
            <$> filter (fun f => is_page_image baseName f = true)
                  (entries : list string))).

(** [req.query.lang || req.body && req.body.lang || 'eng'] *)
Definition lang_of (req : Visionless.Req) : string :=
  if Visionless.truthy_string (Visionless.lang (Visionless.query req))
  then default EmptyString (Visionless.lang (Visionless.query req))
  else
    match Visionless.body req with
    | Some b =>
        if Visionless.truthy_string (Visionless.lang b)
        then default EmptyString (Visionless.lang b)
        else "eng"
    | None => "eng"
    end.

(** [if (file.cleanup) try{ fs.unlinkSync(file.path); }catch(e){}] *)
Definition cleanup_file (f : Visionless.Source) : Prog Call unit :=
  if Visionless.cleanup f
  then try_catch (call (Base (Visionless.UnlinkSync (Visionless.src_path f))))
         (fun _ => Ret tt)
  else Ret tt.

(** The [catch] block of both routes. *)
Definition route_catch (res : nat) (e : Error) : Prog Call unit :=
  call (Base (Visionless.ConsoleError EmptyString e)) ;;
  call (Respond res 400 (RFail e)).

(** [app.all('/ocr', ...)] *)
Definition ocr_route (res : nat) (req : Visionless.Req) : Prog Call unit :=
  try_catch
    (let lang := lang_of req in
     f <- lift (Visionless.getFileFromReq UPLOAD_DIR req) ;;
     m <- analyzeImage (Visionless.src_path f) ;;
     o <- ocrImage (Visionless.src_path f) lang ;;
     cleanup_file f ;;
     call (Respond res 200 (ROcr (Visionless.src_originalname f) m o)))
    (route_catch res).

(** [ocr && ocr.text ? ocr.text.trim().slice(0,400) : '[none]'] *)
Definition excerpt (o : Visionless.Ocr) : jstring :=
  if truthy (Some (Visionless.text o))
  then slice 0 400 (trim (Visionless.text o))
  else lit "[none]".

(** A number in a template literal. *)
Definition decimal (n : nat) : jstring := lit (pretty n).

(** The prompt of [/describe]: four parts joined by ['\n\n']; the third
    template literal ends with a line feed. *)
Definition describe_prompt (m : Visionless.Meta) (o : Visionless.Ocr) : jstring :=
  join [LF; LF]
    [lit "You are a professional image describer and accessibility writer.";
     lit "Image size: " ++ decimal (Visionless.width m) ++ lit "x"
       ++ decimal (Visionless.height m) ++ lit ", format="
       ++ lit (Visionless.format m) ++ lit ".";
     lit "OCR excerpt (first 400 chars): " ++ excerpt o ++ [LF];
     lit "Please return a JSON object with fields: caption (one sentence), description (3-5 sentences), alt (<=125 chars), keywords (array)."].

(** [app.all('/describe', ...)] *)
Definition describe_route (res : nat) (req : Visionless.Req) : Prog Call unit :=
  try_catch
    (let lang := lang_of req in
     f <- lift (Visionless.getFileFromReq UPLOAD_DIR req) ;;
     m <- analyzeImage (Visionless.src_path f) ;;
     o <- ocrImage (Visionless.src_path f) lang ;;
     llm <- lift (Visionless.llmSummarize (describe_prompt m o)) ;;
     cleanup_file f ;;
     call (Respond res 200 (RDescribe (Visionless.src_originalname f) m o llm)))
    (route_catch res).

End Code.

(** The calls that answer a request of [/ocr] or [/describe]. *)
Definition responds {X} (c : Call X) : bool :=
  match c with
  | Respond _ _ _ => true
  | _ => false
  end.

Definition is_failure (body : Reply) : bool :=
  match body with
  | RFail _ => true
  | _ => false
  end.

(** [answers_once o res p]: from every world, [p] ends without throwing
    and has sent exactly one response on [res]: 200 with a result, or 400
    with an error. *)
Definition answers_once (o : Oracle) (res : nat) (p : Prog Call unit) : Prop :=
  forall w,
    result (run (exec o) p w) = Ok tt /\
    exists code body,
      replies (world (run (exec o) p w)) = replies w ++ [(res, code, body)] /\
      (code = 200 /\ is_failure body = false
       \/ code = 400 /\ is_failure body = true).

(** [may_touch c p]: call [c] may create, change or remove the file at
    path [p]. *)
Definition may_touch {X} (c : Call X) (p : string) : Prop :=
  match c with
  | Base c' =>
      match c' with
      | Visionless.UnlinkSync q => q = p
      | Visionless.DownloadToFile _ _ | Visionless.PdfToImages _ _ _
      | Visionless.OcrImage _ _ => True
      | _ => False
      end
  | SpawnTesseract args => output_of args = Some p
  | SpawnPdftoppm _ _ => True
  | _ => False
  end.

(** The events that use the library worker. *)
Definition uses_worker (e : Event Call) : bool :=
  match (projT2 e).1 with
  | CreateWorker | WorkerLoad _ | LoadLanguage _ _ | Initialize _ _
  | Recognize _ _ | Terminate _ => true
  | _ => false
  end.

(** ** Sample inputs *)

Module Sample.

Definition w0 : World :=
  {| base := Visionless.Sample.w0; dirs := ∅; replies := [] |}.

(** The identity on ASCII bytes stands for the UTF-8 decoder. *)
Definition ascii_text (b : Visionless.Bytes) : jstring :=
  (fun x => N.of_nat (Byte.to_nat x)) <$> b.

(** The recognizer program writes [hi]; the library worker reads [yo]. *)
Definition cli (wrote : Result (option Visionless.Bytes)) : Oracle :=
  {| vis := Visionless.Sample.layered Visionless.Sample.letters;
     metadata := fun _ _ =>
       Ok {| s_format := "png"; s_width := 640; s_height := 480;
             s_channels := 3; s_hasAlpha := false; s_density := Some 0 |};
     stats := fun _ _ => Ok None;
     tesseract := fun _ _ => wrote;
     utf8 := ascii_text;
     createWorker := fun _ => Ok 1;
     load := fun _ _ => Ok tt;
     loadLanguage := fun _ _ _ => Ok tt;
     initialize := fun _ _ _ => Ok tt;
     recognize := fun _ _ _ => Ok {| rec_text := lit "yo"; rec_words := [lit "yo"] |};
     terminate := fun _ _ => Ok tt;
     pdftoppm := fun _ _ _ => Ok tt;
     pdftoppm_writes := fun _ _ _ =>
       [("-1.png", [Byte.x89; Byte.x50]); ("-2.png", [Byte.x89; Byte.x50])];
     readdir := fun _ _ => Ok ["p-2.png"; "notes.txt"; "p-1.png"; "q-1.png"; "p-3.jpg"] |}.

Definition hi : Visionless.Bytes := [Byte.x68; Byte.x69].

End Sample.

End Tools.

(** * Programs that only make calls of one kind *)

(** [only_calls P p]: every call [p] can make, whatever the outcomes of
    the calls before it, satisfies [P]; the closures it detaches
    included. *)
Fixpoint only_calls {E : Type -> Type} (P : forall X, E X -> Prop) {A : Type}
  (p : Prog E A) : Prop :=
  match p with
  | Ret _ | Throw _ => True
  | Vis c k => P _ c /\ forall r, only_calls P (k r)
  | Fork child k => only_calls P child /\ only_calls P k
  end.

(** * Facts about running programs *)

Section RunFacts.

Context {E : Type -> Type} {W : Type}.
Variable exec : forall X, E X -> W -> Result X * W.

Lemma run_bind {A B} (p : Prog E A) (f : A -> Prog E B) (w : W) :
  run exec (bind p f) w =
    match result (run exec p w) with
    | Ok a => then_run (run exec p w) (run exec (f a) (world (run exec p w)))
    | Err e => rethrow (run exec p w) e
    end.
Proof.
  revert B f w.
  induction p as [A a|A e|A X c k IH|A child _ k IH]; intros B f w; simpl.
  - unfold then_run; simpl. by destruct (run exec (f a) w).
  - reflexivity.
  - destruct (exec X c w) as [r w']. rewrite IH.
    destruct (result (run exec (k r) w')); reflexivity.
  - rewrite IH. destruct (result (run exec k w)); reflexivity.
Qed.

Lemma run_try_catch {A} (p : Prog E A) (h : Error -> Prog E A) (w : W) :
  run exec (try_catch p h) w =
    match result (run exec p w) with
    | Ok a => run exec p w
    | Err e => then_run (run exec p w) (run exec (h e) (world (run exec p w)))
    end.
Proof.
  revert h w.
  induction p as [A a|A e|A X c k IH|A child _ k IH]; intros h w; simpl.
  - reflexivity.
  - unfold then_run; simpl. by destruct (run exec (h e) w).
  - destruct (exec X c w) as [r w']. rewrite IH.
    destruct (result (run exec (k r) w')) eqn:Hr; simpl.
    + rewrite <- Hr. by destruct (run exec (k r) w').
    + reflexivity.
  - rewrite IH. destruct (result (run exec k w)) eqn:Hr; simpl.
    + rewrite <- Hr. by destruct (run exec k w).
    + reflexivity.
Qed.

Lemma run_call {X} (c : E X) (w : W) :
  run exec (call c) w =
    {| result := (exec X c w).1; world := (exec X c w).2;
       calls := [ev c (exec X c w).1]; spawned := [] |}.
Proof.
  unfold call. simpl. destruct (exec X c w) as [[x|e] w']; reflexivity.
Qed.

End RunFacts.

(** * Facts about JavaScript strings *)

Section JsFacts.

Import Js.

Lemma substring_prefix (n : nat) (s : jstring) : substring 0 n s = take n s.
Proof.
  unfold substring. rewrite Nat.min_0_l, Nat.min_0_l, Nat.max_0_l, Nat.sub_0_r.
  simpl. destruct (decide (n <= length s)) as [Hle|Hgt].
  - by rewrite Nat.min_l.
  - rewrite Nat.min_r by lia. rewrite (take_ge s n) by lia.
    by rewrite take_ge.
Qed.

Lemma replace_all_map (c r : N) (s : jstring) :
  replace_all c [r] s = (fun x => if (x =? c)%N then r else x) <$> s.
Proof.
  induction s as [|x s IH]; [done|]. simpl. rewrite IH.
  by destruct (x =? c)%N.
Qed.

Lemma trim_start_blank (s : jstring) :
  Forall (fun c => is_whitespace c = true) s -> trim_start s = [].
Proof.
  induction 1 as [|c s Hc _ IH]; [done|]. simpl. by rewrite Hc.
Qed.

Lemma trim_start_keeps (c : N) (s : jstring) :
  c ∈ s -> is_whitespace c = false -> c ∈ trim_start s.
Proof.
  intros Hin Hc. induction s as [|x s IH]; [done|]. simpl.
  destruct (is_whitespace x) eqn:Hx.
  - apply IH. apply elem_of_cons in Hin as [->|Hin]; [congruence|done].
  - done.
Qed.

Lemma trim_keeps (c : N) (s : jstring) :
  c ∈ s -> is_whitespace c = false -> c ∈ trim s.
Proof.
  intros Hin Hc. unfold trim, trim_end.
  apply elem_of_reverse, trim_start_keeps; [|done].
  by apply elem_of_reverse, trim_start_keeps.
Qed.

(** The trimmed string is non-empty exactly when the string has a code
    unit that is not white space. *)
Lemma trim_nonempty (s : jstring) :
  trim s <> [] <-> exists c, c ∈ s /\ is_whitespace c = false.
Proof.
  split.
  - intros Hne.
    destruct (decide (Forall (fun c => is_whitespace c = true) s)) as [Hall|Hex].
    + exfalso. apply Hne. unfold trim. by rewrite trim_start_blank.
    + apply not_Forall_Exists in Hex; [|apply _].
      apply Exists_exists in Hex as (c & Hin & Hc).
      exists c. split; [done|]. simpl in Hc. by destruct (is_whitespace c).
  - intros (c & Hin & Hc) Hnil.
    pose proof (trim_keeps c s Hin Hc) as Hk. rewrite Hnil in Hk.
    by apply elem_of_nil in Hk.
Qed.

End JsFacts.

(** * The handlers of the job-based server, run alone *)

Section Handlers.

Import Js JobApi.

(** What the upload handler does when it is given a file and the generated
    id is not in the table: shared by the claims about submission. *)
Lemma upload_file_run (o : Oracle) (w : World) (res : nat) (req : UploadReq)
  (f : File) :
  file req = Some f ->
  db w !! uuid o (clock w) = None ->
  let jobId := uuid o (clock w) in
  let lang := language_of req in
  let out := run (exec o) (upload res req) w in
  result out = Ok tt /\
  db (world out) =
    <[jobId := new_row jobId (originalname f) "processing" lang (S (clock w))]>
      (db w) /\
  files (world out) = files w /\
  sent (world out) = sent w ++ [(res, 202, BAccepted jobId "processing")] /\
  calls out =
    [ev Uuidv4 (Ok jobId);
     ev (DbInsert jobId (originalname f) "processing" lang) (Ok tt);
     ev (Respond res 202 (BAccepted jobId "processing")) (Ok tt)] /\
  spawned out =
    [background jobId lang (path f)
       (Path.toLowerCase (Path.extname (originalname f)))].
Proof.
  intros Hf Hfresh jobId lang out. subst out jobId lang.
  unfold upload. rewrite Hf. cbn. rewrite Hfresh. cbn. auto 10.
Qed.




(** C6, as amended: the only synchronous rejection is for a missing file
    (400, no row created, nothing detached); a submission with a file is
    never answered 400, whatever its name or extension.  When the id
    generated for it is not yet a key of the table it is accepted: 202, a
    row is created and the background closure is detached for it.  When
    the id is already a key, the [INSERT] fails and the answer is 500,
    with no row created and nothing detached. *)
Theorem upload_rejects_only_a_missing_file (o : Oracle) (w : World)
  (res : nat) (req : UploadReq) :
  let out := run (exec o) (upload res req) w in
  match file req with
  | None =>
      sent (world out) = sent w ++ [(res, 400, BError "No file uploaded")]
      /\ db (world out) = db w /\ spawned out = []
  | Some f =>
      (db w !! uuid o (clock w) = None ->
       sent (world out) =
         sent w ++ [(res, 202, BAccepted (uuid o (clock w)) "processing")]
       /\ is_Some (db (world out) !! uuid o (clock w))
       /\ spawned out =
            [background (uuid o (clock w)) (language_of req) (path f)
               (Path.toLowerCase (Path.extname (originalname f)))])
      /\ (is_Some (db w !! uuid o (clock w)) ->
          sent (world out) =
            sent w ++ [(res, 500, BError "Internal server error")]
          /\ db (world out) = db w /\ spawned out = [])
  end.
Proof.
  intros out. destruct (file req) as [f|] eqn:Hf.
  - split.
    + intros Hfresh.
      destruct (upload_file_run o w res req f Hf Hfresh)
        as (_ & Hdb & _ & Hsent & _ & Hsp).
      cbv zeta in *. subst out. rewrite Hdb, Hsent, Hsp.
      split; [done|]. split; [|done]. rewrite lookup_insert_eq. by eexists.
    + intros [r Hr]. subst out. unfold upload. rewrite Hf. cbn.
      rewrite Hr. by cbn.
  - subst out. unfold upload. rewrite Hf. by cbn.
Qed.

Lemma upload_rejects_only_a_missing_file_witness :
  let out := run (exec Sample.good) (upload 0 Sample.exe) Sample.w0 in
  sent (world out) = [(0, 202, BAccepted "j1" "processing")]
  /\ is_Some (db (world out) !! "j1")
  /\ spawned out = [background "j1" "eng" "uploads/u2.exe" ".exe"].
Proof.
  exact (proj1 (upload_rejects_only_a_missing_file Sample.good Sample.w0 0
                  Sample.exe) eq_refl).
Defined.

(** C6, as stated, fails: a file named [setup.exe] is not rejected with
    400, and a row is created for it. *)
Lemma upload_accepts_exe :
  let out := run (exec Sample.good) (upload 0 Sample.exe) Sample.w0 in
  ~ ((exists e, sent (world out) = [(0, 400, BError e)])
     /\ db (world out) = db Sample.w0).
Proof.
  intros out [[e Hsent] _]. vm_compute in Hsent. discriminate Hsent.
Qed.

(** The result handler on any table: 404 when the job does not exist, 400
    with the fixed error body whenever the status is not [completed], 200
    with the full result when the status is [completed] and the text is
    not [NULL]; a 200 is sent in no other case, and the table is not
    changed. *)
Lemma get_result_cases (o : Oracle) (w : World) (res : nat) (id : string) :
  let out := run (exec o) (get_result res id) w in
  (db w !! id = None ->
     sent (world out) = sent w ++ [(res, 404, BError "Job not found")]) /\
  (forall job, db w !! id = Some job -> status job <> "completed" ->
     sent (world out) = sent w ++ [(res, 400, BError "Job not completed yet")]) /\
  (forall job t, db w !! id = Some job -> status job = "completed" ->
     result_text job = Some t ->
     sent (world out) =
       sent w ++ [(res, 200,
                   BResult (row_id job) (filename job) (language job) t
                     (result_json job) (accessibility_of t (language job)))]) /\
  (forall body, sent (world out) = sent w ++ [(res, 200, body)] ->
     exists job, db w !! id = Some job /\ status job = "completed") /\
  db (world out) = db w.
Proof.
  intros out. subst out. unfold get_result. cbn.
  destruct (db w !! id) as [job|] eqn:Hjob; cbn.
  - destruct (String.eqb (status job) "completed") eqn:Hst; cbn.
    + apply String.eqb_eq in Hst.
      destruct (result_text job) as [t|] eqn:Ht; cbn.
      * repeat split; try done.
        -- intros job' Heq Hne. by simplify_eq.
        -- intros job' t' Heq _ Ht'. by simplify_eq.
        -- intros _ _. by exists job.
      * repeat split; try done.
        -- intros job' Heq Hne. by simplify_eq.
        -- intros job' t' Heq _ Ht'. simplify_eq.
        -- intros _ _. by exists job.
    + apply String.eqb_neq in Hst. repeat split; try done.
      * intros job' t' Heq Hc. by simplify_eq.
      * intros body Hs. apply app_inv_head in Hs. by simplify_eq.
  - repeat split; try done.
    intros body Hs. apply app_inv_head in Hs. by simplify_eq.
Qed.

Lemma get_result_cases_witness :
  let out := run (exec Sample.good) (get_result 5 "j1")
               (Sample.world_with (Sample.row "failed" None)) in
  sent (world out) = [(5, 400, BError "Job not completed yet")].
Proof.
  destruct (get_result_cases Sample.good
              (Sample.world_with (Sample.row "failed" None)) 5 "j1")
    as (_ & H & _).
  apply (H (Sample.row "failed" None)); [reflexivity|discriminate].
Defined.

(** C10: for a completed job the result carries an accessibility object
    whose [alt_text] is the first 200 code units of the stored text with
    every line feed replaced by a space, followed by ["..."] exactly when
    the text is longer than 200, and whose [has_text] is true exactly
    when the trimmed text is non-empty, that is when the text has a code
    unit that is not white space. *)
Theorem get_result_accessibility (o : Oracle) (w : World) (res : nat)
  (id : string) (job : Row) (t : jstring) :
  db w !! id = Some job -> status job = "completed" ->
  result_text job = Some t ->
  exists a data,
    sent (world (run (exec o) (get_result res id) w)) =
      sent w ++ [(res, 200,
                  BResult (row_id job) (filename job) (language job) t data a)]
    /\ alt_text a =
         ((fun c => if (c =? LF)%N then SPACE else c) <$> take 200 t)
         ++ (if decide (200 < length t) then lit "..." else [])
    /\ (has_text a = true <-> trim t <> [])
    /\ (has_text a = true <-> exists c, c ∈ t /\ is_whitespace c = false).
Proof.
  intros Hjob Hst Ht.
  destruct (get_result_cases o w res id) as (_ & _ & H & _).
  specialize (H job t Hjob Hst Ht).
  eexists _, _. split; [exact H|]. simpl.
  assert (Hhas : (0 <? length (trim t))%nat = true <-> trim t <> []).
  { rewrite Nat.ltb_lt. destruct (trim t); simpl; split; intros; try done; lia. }
  split; [|split].
  - rewrite substring_prefix, replace_all_map. f_equal.
    case_decide as Hlen.
    + apply Nat.ltb_lt in Hlen. by rewrite Hlen.
    + apply Nat.ltb_nlt in Hlen. by rewrite Hlen.
  - exact Hhas.
  - rewrite Hhas. apply trim_nonempty.
Qed.

Lemma get_result_accessibility_witness :
  exists a data,
    sent (world (run (exec Sample.good) (get_result 5 "j1")
                   (Sample.world_with (Sample.row "completed" (Some (lit "a b")))))) =
      [(5, 200, BResult "j1" "scan.png" "eng" (lit "a b") data a)]
    /\ alt_text a = lit "a b" /\ has_text a = true.
Proof.
  destruct (get_result_accessibility Sample.good
              (Sample.world_with (Sample.row "completed" (Some (lit "a b"))))
              5 "j1" (Sample.row "completed" (Some (lit "a b"))) (lit "a b")
              eq_refl eq_refl eq_refl)
    as (a & data & Hs & Halt & Hhas & _).
  exists a, data. split; [exact Hs|]. split; [exact Halt|].
  apply Hhas. discriminate.
Defined.

End Handlers.

(** * The background closure *)

Section Background.

Import Js JobApi.

Lemma exec_no_write (o : Oracle) X (c : Call X) (w : World) :
  write_of c = NoWrite -> db (exec o X c w).2 = db w.
Proof.
  destruct c; try discriminate; intros _; simpl;
    repeat case_match; reflexivity.
Qed.

(** A quiet program leaves the table as it found it. *)
Lemma quiet_run_db (o : Oracle) {A} (p : Prog Call A) (w : World) :
  quiet p -> db (world (run (exec o) p w)) = db w.
Proof.
  revert w. induction p as [A a|A e|A X c k IH|A child _ k _]; intros w Hq; simpl.
  - done.
  - done.
  - destruct Hq as [Hc Hk]. pose proof (exec_no_write o X c w Hc) as Hdb.
    destruct (exec o X c w) as [r w']. simpl in *. by rewrite IH.
  - destruct Hq.
Qed.

Lemma quiet_bind {A B} (p : Prog Call A) (f : A -> Prog Call B) :
  quiet p -> (forall a, quiet (f a)) -> quiet (bind p f).
Proof.
  intros Hp Hf. induction p as [A a|A e|A X c k IH|A child _ k _]; simpl in *.
  - apply Hf.
  - done.
  - destruct Hp as [Hc Hk]. split; [done|]. intros r. by apply IH.
  - done.
Qed.

Lemma quiet_call {X} (c : Call X) : write_of c = NoWrite -> quiet (call c).
Proof. intros Hc. split; [done|]. by intros [x|e]. Qed.

Lemma quiet_performOCR (filePath lang : string) : quiet (performOCR filePath lang).
Proof.
  unfold performOCR. apply quiet_bind; [by apply quiet_call|]. intros wk.
  apply quiet_bind; [by apply quiet_call|]. intros d.
  apply quiet_bind; [by apply quiet_call|]. done.
Qed.

Lemma pdf_pages_cons (jobId lang : string) (i : nat) (img : Bytes)
  (rest : list Bytes) (txt : jstring) (js : list PageEntry) :
  pdf_pages jobId lang i (img :: rest) txt js =
    (call (WriteFileSync (tempPath jobId i) img) ;;
     d <- performOCR (tempPath jobId i) lang ;;
     call (UnlinkSync (tempPath jobId i)) ;;
     pdf_pages jobId lang (S i) rest (txt ++ (text d ++ page_break))
       (js ++ [{| page := Some (i + 1); data := d |}])).
Proof. reflexivity. Qed.

Lemma quiet_pdf_pages (jobId lang : string) (imgs : list Bytes) :
  forall i txt js, quiet (pdf_pages jobId lang i imgs txt js).
Proof.
  induction imgs as [|img rest IH]; intros i txt js; [done|].
  rewrite pdf_pages_cons.
  apply quiet_bind; [by apply quiet_call|]. intros _.
  apply quiet_bind; [apply quiet_performOCR|]. intros d.
  apply quiet_bind; [by apply quiet_call|]. intros _. apply IH.
Qed.

Lemma quiet_extract (jobId lang filePath ext : string) :
  quiet (extract jobId lang filePath ext).
Proof.
  unfold extract. destruct (String.eqb ext ".pdf").
  - apply quiet_bind; [by apply quiet_call|]. intros imgs. apply quiet_pdf_pages.
  - apply quiet_bind; [apply quiet_performOCR|]. done.
Qed.

(** The closure in terms of its [try] block: the final [UPDATE] is decided
    by the way [extract] ends. *)
Lemma background_run (o : Oracle) (w : World) (jobId lang filePath ext : string) :
  let ox := run (exec o) (extract jobId lang filePath ext) w in
  let out := run (exec o) (background jobId lang filePath ext) w in
  result out = Ok tt /\
  files (world out) = files (world ox) /\
  sent (world out) = sent (world ox) /\
  match result ox with
  | Ok r =>
      db (world out) =
        alter (with_result "completed" r.1 r.2 (clock (world ox))) jobId (db w)
      /\ console (world out) = console (world ox)
  | Err e =>
      db (world out) =
        alter (with_status "failed" (S (clock (world ox)))) jobId (db w)
      /\ console (world out) =
           console (world ox) ++ [("OCR Processing Error:", e)]
  end.
Proof.
  intros ox out. subst out. unfold background.
  rewrite run_try_catch, run_bind. fold ox.
  pose proof (quiet_run_db o _ w (quiet_extract jobId lang filePath ext)) as Hdb.
  fold ox in Hdb.
  destruct (result ox) as [r|e] eqn:Hr; cbn; rewrite Hdb; auto.
Qed.

Lemma lookup_alter_status (f : Row -> Row) (id id' : string) (m : gmap string Row) r :
  alter f id m !! id' = Some r ->
  (id' = id /\ exists r0, m !! id = Some r0 /\ r = f r0) \/ (id' <> id /\ m !! id' = Some r).
Proof.
  destruct (decide (id' = id)) as [->|Hne].
  - rewrite lookup_alter_eq. destruct (m !! id) as [r0|]; [|done].
    intros [= <-]. left. eauto.
  - rewrite lookup_alter_ne by done. auto.
Qed.

(** After the closure has run, its job, if it exists, is in a final
    status. *)
Lemma background_ends_final (o : Oracle) (w : World)
  (jobId lang filePath ext : string) (r : Row) :
  db (world (run (exec o) (background jobId lang filePath ext) w)) !! jobId = Some r ->
  status r = "completed" \/ status r = "failed".
Proof.
  intros Hr.
  destruct (background_run o w jobId lang filePath ext) as (_ & _ & _ & H).
  destruct (result (run (exec o) (extract jobId lang filePath ext) w)) as [x|e];
    destruct H as [Hdb _]; rewrite Hdb in Hr;
    apply lookup_alter_status in Hr as [(_ & r0 & _ & ->)|[? _]]; try done; auto.
Qed.

End Background.

(** * What [extract] computes and what it leaves on disk *)

Section Extract.

Import Js JobApi.

Lemma performOCR_files (o : Oracle) (p lang : string) (w : World) :
  files (world (run (exec o) (performOCR p lang) w)) = files w.
Proof.
  unfold performOCR. cbn.
  destruct (createWorker o (clock w) lang) as [wk|e]; cbn; [|done].
  destruct (recognize o (S (clock w)) wk p) as [d|e]; cbn; [|done].
  by destruct (terminate o (S (S (clock w))) wk) as [[]|e].
Qed.

Lemma run_write (o : Oracle) (p : string) (img : Bytes) (w : World) :
  run (exec o) (call (WriteFileSync p img)) w =
    {| result := Ok tt; world := set_files (insert p img) (tick w);
       calls := [ev (WriteFileSync p img) (Ok tt)]; spawned := [] |}.
Proof. reflexivity. Qed.

Lemma run_unlink (o : Oracle) (p : string) (w : World) :
  is_Some (files w !! p) ->
  run (exec o) (call (UnlinkSync p)) w =
    {| result := Ok tt; world := set_files (delete p) (tick w);
       calls := [ev (UnlinkSync p) (Ok tt)]; spawned := [] |}.
Proof. intros [x Hx]. cbn. by rewrite Hx. Qed.

Lemma foldr_delete_commute (p : string) (l : list string) (m : gmap string Bytes) :
  foldr delete (delete p m) l = delete p (foldr delete m l).
Proof.
  induction l as [|q l IH]; [done|]. simpl. rewrite IH. apply delete_delete.
Qed.

Lemma lookup_foldr_delete (q : string) (l : list string) (m : gmap string Bytes) :
  foldr delete m l !! q = if decide (q ∈ l) then None else m !! q.
Proof.
  induction l as [|p l IH]; [done|]. simpl.
  destruct (decide (q = p)) as [->|Hne].
  - rewrite lookup_delete_eq. rewrite decide_True; [done|]. apply elem_of_cons; auto.
  - rewrite lookup_delete_ne by done. rewrite IH.
    destruct (decide (q ∈ l)) as [Hin|Hnin].
    + rewrite decide_True; [done|]. apply elem_of_cons; auto.
    + rewrite decide_False; [done|]. intros [?|?]%elem_of_cons; done.
Qed.

(** The page loop, run from index [i].  When it returns, the text is the
    page texts each followed by the page break, the entries are numbered
    from [i + 1], and every temporary file is gone; when it throws, at
    page [i + k], the temporary file of that page is still there. *)
Lemma pdf_pages_run (o : Oracle) (jobId lang : string) (imgs : list Bytes) :
  forall i txt js w,
    let out := run (exec o) (pdf_pages jobId lang i imgs txt js) w in
    match result out with
    | Ok r =>
        (exists ds : list OcrData,
           length ds = length imgs /\
           r.1 = txt ++ concat ((fun d => text d ++ page_break) <$> ds) /\
           r.2 = js ++ imap (fun k d => {| page := Some (i + k + 1); data := d |}) ds)
        /\ files (world out) =
             foldr delete (files w) (temp_paths jobId i (length imgs))
    | Err e =>
        exists k img,
          imgs !! k = Some img /\
          files (world out) =
            <[tempPath jobId (i + k) := img]>
              (foldr delete (files w) (temp_paths jobId i k))
    end.
Proof.
  induction imgs as [|img rest IH]; intros i txt js w out; subst out.
  - simpl. split; [|done]. exists []. simpl. by rewrite !app_nil_r.
  - rewrite pdf_pages_cons, run_bind, run_write. cbn [result world then_run].
    rewrite run_bind.
    set (w1 := set_files (insert (tempPath jobId i) img) (tick w)).
    pose proof (performOCR_files o (tempPath jobId i) lang w1) as Hfiles.
    destruct (result (run (exec o) (performOCR (tempPath jobId i) lang) w1))
      as [d|e] eqn:Hocr.
    + cbn [then_run result world].
      set (w2 := world (run (exec o) (performOCR (tempPath jobId i) lang) w1)) in *.
      rewrite run_bind, run_unlink; cycle 1.
      { rewrite Hfiles. subst w1. simpl. rewrite lookup_insert_eq. by eexists. }
      cbn [fst snd result world then_run].
      set (w3 := set_files (delete (tempPath jobId i)) (tick w2)).
      specialize (IH (S i) (txt ++ (text d ++ page_break))
                    (js ++ [{| page := Some (i + 1); data := d |}]) w3).
      cbv zeta in IH.
      assert (Hw3 : files w3 = delete (tempPath jobId i) (files w)).
      { subst w3. simpl. rewrite Hfiles. subst w1. simpl.
        apply delete_insert_eq. }
      destruct (result (run (exec o) (pdf_pages jobId lang (S i) rest _ _) w3))
        as [r|e].
      * destruct IH as [(ds & Hlen & Htxt & Hjs) Hfs]. split.
        -- exists (d :: ds). simpl. split; [by rewrite Hlen|].
           rewrite Htxt, Hjs, <- !app_assoc. split; [done|].
           f_equal. simpl. f_equal; [do 2 f_equal; lia|].
           apply imap_ext. intros k x _. simpl. do 2 f_equal. lia.
        -- rewrite Hfs, Hw3. simpl. unfold temp_paths.
           apply foldr_delete_commute.
      * destruct IH as (k & img' & Hk & Hfs). exists (S k), img'.
        split; [done|]. rewrite Hfs, Hw3.
        replace (S i + k) with (i + S k) by lia.
        unfold temp_paths. simpl. by rewrite foldr_delete_commute.
    + cbn [rethrow then_run result world]. exists 0, img. split; [done|].
      rewrite Hfiles. subst w1. simpl. by rewrite Nat.add_0_r.
Qed.

(** The branch taken for a file that is not a PDF: one recognizer run on
    the uploaded file, its data stored as it is. *)
Lemma extract_image (o : Oracle) (w : World) (jobId lang filePath ext : string) r :
  String.eqb ext ".pdf" = false ->
  result (run (exec o) (extract jobId lang filePath ext) w) = Ok r ->
  exists d, r = (text d, [{| page := None; data := d |}]).
Proof.
  intros Hext. unfold extract. rewrite Hext, run_bind.
  destruct (result (run (exec o) (performOCR filePath lang) w)) as [d|e];
    [|done].
  simpl. intros [= <-]. by exists d.
Qed.

(** The PDF branch. *)
Lemma extract_pdf (o : Oracle) (w : World) (jobId lang filePath : string) :
  let out := run (exec o) (extract jobId lang filePath ".pdf") w in
  match result out with
  | Ok r =>
      exists ds : list OcrData,
        r.1 = concat ((fun d => text d ++ page_break) <$> ds) /\
        r.2 = imap (fun k d => {| page := Some (k + 1); data := d |}) ds /\
        exists imgs, convert o (clock w) filePath = Ok imgs /\
          length ds = length imgs /\
          files (world out) =
            foldr delete (files w) (temp_paths jobId 0 (length imgs))
  | Err e =>
      convert o (clock w) filePath = Err e /\ files (world out) = files w
      \/ exists imgs k img,
           convert o (clock w) filePath = Ok imgs /\ imgs !! k = Some img /\
           files (world out) =
             <[tempPath jobId k := img]>
               (foldr delete (files w) (temp_paths jobId 0 k))
  end.
Proof.
  intros out. subst out. unfold extract. simpl String.eqb. cbv iota.
  rewrite run_bind, run_call. cbn [exec fst snd result world].
  destruct (convert o (clock w) filePath) as [imgs|e]; cbn [rethrow result world].
  - pose proof (pdf_pages_run o jobId lang imgs 0 [] [] (tick w)) as H.
    cbv zeta in H. cbn [then_run result world].
    destruct (result (run (exec o) (pdf_pages jobId lang 0 imgs [] []) (tick w)))
      as [r|e].
    + destruct H as [(ds & Hlen & Htxt & Hjs) Hfs]. exists ds.
      split; [done|]. split; [done|]. exists imgs. by split.
    + destruct H as (k & img & Hk & Hfs). right. exists imgs, k, img. by split.
  - left. by split.
Qed.

End Extract.

(** * Claims about the outcome of a job *)

Section Jobs.

Import Js JobApi.

(** The row of the job after the closure has run, by the way [extract]
    ended. *)
Lemma background_row (o : Oracle) (w : World) (jobId lang filePath ext : string)
  (r : Row) :
  let ox := run (exec o) (extract jobId lang filePath ext) w in
  let out := run (exec o) (background jobId lang filePath ext) w in
  db (world out) !! jobId = Some r ->
  exists r0 t, db w !! jobId = Some r0 /\
    match result ox with
    | Ok x => r = with_result "completed" x.1 x.2 t r0
    | Err e => r = with_status "failed" t r0
               /\ last (console (world out)) = Some ("OCR Processing Error:", e)
    end.
Proof.
  intros ox out Hr. subst out.
  destruct (background_run o w jobId lang filePath ext) as (_ & _ & _ & H).
  fold ox in H. destruct (result ox) as [x|e]; destruct H as [Hdb Hcon];
    rewrite Hdb in Hr;
    apply lookup_alter_status in Hr as [(_ & r0 & Hr0 & ->)|[? _]]; try done;
    exists r0; eexists; (split; [done|]); [done|].
  split; [done|]. rewrite Hcon. apply last_snoc.
Qed.

(** A recognition that returns: the data is what the recognizer
    returned for the file. *)
Lemma performOCR_returns (o : Oracle) (w : World) (filePath lang : string)
  (d : OcrData) :
  result (run (exec o) (performOCR filePath lang) w) = Ok d ->
  exists wk,
    createWorker o (clock w) lang = Ok wk
    /\ recognize o (S (clock w)) wk filePath = Ok d.
Proof.
  unfold performOCR. cbn.
  destruct (createWorker o (clock w) lang) as [wk|e] eqn:Hwk; cbn; [|done].
  destruct (recognize o (S (clock w)) wk filePath) as [d'|e] eqn:Hrec; cbn;
    [|done].
  destruct (terminate o (S (S (clock w))) wk) as [[]|e]; cbn; [|done].
  intros [= ->]. by exists wk.
Qed.

Lemma extract_image_data (o : Oracle) (w : World)
  (jobId lang filePath ext : string) r :
  String.eqb ext ".pdf" = false ->
  result (run (exec o) (extract jobId lang filePath ext) w) = Ok r ->
  exists d, result (run (exec o) (performOCR filePath lang) w) = Ok d
            /\ r = (text d, [{| page := None; data := d |}]).
Proof.
  intros Hext. unfold extract. rewrite Hext, run_bind.
  destruct (result (run (exec o) (performOCR filePath lang) w)) as [d|e];
    [|done].
  simpl. intros [= <-]. by exists d.
Qed.

(** C8, as amended: a job for a file that is not a PDF, once completed,
    holds exactly one entry, the data the recognizer returned for the
    uploaded file, as returned and without a page number, and the stored
    text is the text of that data. *)
Theorem image_job_has_one_unnumbered_entry (o : Oracle) (w : World)
  (jobId lang filePath ext : string) (r : Row) :
  String.eqb ext ".pdf" = false ->
  db (world (run (exec o) (background jobId lang filePath ext) w)) !! jobId
    = Some r ->
  status r = "completed" ->
  exists wk d,
    createWorker o (clock w) lang = Ok wk
    /\ recognize o (S (clock w)) wk filePath = Ok d
    /\ result (run (exec o) (performOCR filePath lang) w) = Ok d
    /\ result_json r = Some [{| page := None; data := d |}]
    /\ result_text r = Some (text d).
Proof.
  intros Hext Hr Hst.
  destruct (background_row o w jobId lang filePath ext r Hr) as (r0 & t & _ & H).
  destruct (result (run (exec o) (extract jobId lang filePath ext) w))
    as [x|e] eqn:Hx.
  - destruct (extract_image_data o w jobId lang filePath ext x Hext Hx)
      as (d & Hd & ->).
    destruct (performOCR_returns o w filePath lang d Hd) as (wk & Hwk & Hrec).
    exists wk, d. by subst r.
  - destruct H as [-> _]. discriminate Hst.
Qed.

Lemma image_job_has_one_unnumbered_entry_witness :
  let w := Sample.world_with (Sample.row "processing" None) in
  let r := with_result "completed" (lit "a")
             [{| page := None; data := Sample.page_a |}] 3
             (Sample.row "processing" None) in
  exists wk d,
    createWorker Sample.good (clock w) "eng" = Ok wk
    /\ recognize Sample.good (S (clock w)) wk "uploads/u1.png" = Ok d
    /\ result (run (exec Sample.good) (performOCR "uploads/u1.png" "eng") w)
       = Ok d
    /\ result_json r = Some [{| page := None; data := d |}]
    /\ result_text r = Some (text d).
Proof.
  apply (image_job_has_one_unnumbered_entry Sample.good
           (Sample.world_with (Sample.row "processing" None))
           "j1" "eng" "uploads/u1.png" ".png"); vm_compute; reflexivity.
Defined.

(** C8, as stated, fails: the single entry of a completed image job has no
    page number, so it is not numbered 1. *)
Lemma image_job_entry_is_not_numbered :
  let out := run (exec Sample.good)
               (background "j1" "eng" "uploads/u1.png"
                  (Path.toLowerCase (Path.extname "scan.png")))
               (Sample.world_with (Sample.row "processing" None)) in
  ~ (exists r e, db (world out) !! "j1" = Some r /\ status r = "completed"
                 /\ result_json r = Some [e] /\ page e = Some 1
                 /\ result_text r = Some (text (data e))).
Proof.
  intros out (r & e & Hr & _ & Hjs & Hp & _).
  vm_compute in Hr. injection Hr as <-. simpl in Hjs. injection Hjs as <-.
  discriminate Hp.
Qed.

(** C7, as amended: whatever happens, the closure leaves its job in a
    final status, never in [processing]; when its [try] block throws [e],
    the row becomes the row it was with status [failed] (and a new
    [updated_at]): no column holds the reason, which goes to the console
    only. *)
Theorem failed_job_keeps_no_reason (o : Oracle) (w : World)
  (jobId lang filePath ext : string) :
  let ox := run (exec o) (extract jobId lang filePath ext) w in
  let out := run (exec o) (background jobId lang filePath ext) w in
  result out = Ok tt /\
  (forall r, db (world out) !! jobId = Some r ->
     status r = "completed" \/ status r = "failed") /\
  (forall e r0, result ox = Err e -> db w !! jobId = Some r0 ->
     exists t, db (world out) !! jobId = Some (with_status "failed" t r0)
               /\ last (console (world out)) = Some ("OCR Processing Error:", e)).
Proof.
  intros ox out. split; [|split].
  - apply background_run.
  - apply background_ends_final.
  - intros e r0 He Hr0.
    destruct (background_run o w jobId lang filePath ext) as (_ & _ & _ & H).
    fold ox out in H. rewrite He in H. destruct H as [Hdb Hcon].
    eexists. split.
    + by rewrite Hdb, lookup_alter_eq, Hr0.
    + rewrite Hcon. apply last_snoc.
Qed.

Lemma failed_job_keeps_no_reason_witness :
  exists t,
    db (world (run (exec (Sample.failing "boom"))
                 (background "j1" "eng" "uploads/u1.png" ".png")
                 (Sample.world_with (Sample.row "processing" None)))) !! "j1"
      = Some (with_status "failed" t (Sample.row "processing" None))
    /\ last (console (world (run (exec (Sample.failing "boom"))
                 (background "j1" "eng" "uploads/u1.png" ".png")
                 (Sample.world_with (Sample.row "processing" None)))))
       = Some ("OCR Processing Error:", "boom").
Proof.
  destruct (failed_job_keeps_no_reason (Sample.failing "boom")
              (Sample.world_with (Sample.row "processing" None))
              "j1" "eng" "uploads/u1.png" ".png") as (_ & _ & H).
  apply (H "boom" (Sample.row "processing" None)); reflexivity.
Defined.

(** C7, as stated, fails: the record of a failed job does not tell the
    reason.  Two runs that fail for different reasons leave the same row,
    so no reading of the row gives the reason back. *)
Lemma failed_row_does_not_tell_the_reason :
  let final (e : Error) :=
    db (world (run (exec (Sample.failing e))
                 (background "j1" "eng" "uploads/u1.png" ".png")
                 (Sample.world_with (Sample.row "processing" None)))) !! "j1" in
  ~ (exists reason_of : Row -> Error,
       forall e, e ∈ ["boom"; "out of memory"] ->
         exists r, final e = Some r /\ status r = "failed" /\ reason_of r = e).
Proof.
  intros final [reason_of H].
  destruct (H "boom") as (r1 & Hr1 & _ & He1); [set_solver|].
  destruct (H "out of memory") as (r2 & Hr2 & _ & He2); [set_solver|].
  vm_compute in Hr1, Hr2. injection Hr1 as <-. injection Hr2 as <-.
  rewrite He1 in He2. discriminate He2.
Qed.

(** C9: the code leaves a temporary file behind on failure.  Whenever a
    PDF job whose pages were rendered ends in [failed], the temporary
    image of the page being recognized is still on disk when the closure
    has exited. *)
Theorem failed_pdf_job_leaves_a_temp_file (o : Oracle) (w : World)
  (jobId lang filePath : string) (imgs : list Bytes) (r : Row) :
  convert o (clock w) filePath = Ok imgs ->
  let out := run (exec o) (background jobId lang filePath ".pdf") w in
  db (world out) !! jobId = Some r ->
  status r = "failed" ->
  exists k img, imgs !! k = Some img
                /\ files (world out) !! tempPath jobId k = Some img.
Proof.
  intros Hconv out Hr Hst.
  destruct (background_row o w jobId lang filePath ".pdf" r Hr) as (r0 & t & _ & H).
  destruct (background_run o w jobId lang filePath ".pdf") as (_ & Hfs & _).
  pose proof (extract_pdf o w jobId lang filePath) as Hx. cbv zeta in Hx.
  destruct (result (run (exec o) (extract jobId lang filePath ".pdf") w))
    as [x|e].
  - subst r. discriminate Hst.
  - destruct Hx as [[Hc _]|(imgs' & k & img & Hc & Hk & Hfiles)];
      rewrite Hconv in Hc; [done|]. injection Hc as <-.
    exists k, img. split; [done|]. fold out in Hfs.
    rewrite Hfs, Hfiles. apply lookup_insert_eq.
Qed.

Lemma failed_pdf_job_leaves_a_temp_file_witness :
  exists k img,
    [[Byte.x01]; [Byte.x02]] !! k = Some img /\
    files (world (run (exec (Sample.failing "boom"))
                    (background "j1" "eng" "uploads/u3.pdf" ".pdf")
                    (Sample.world_with (Sample.row "processing" None))))
      !! tempPath "j1" k = Some img.
Proof.
  apply (failed_pdf_job_leaves_a_temp_file (Sample.failing "boom")
           (Sample.world_with (Sample.row "processing" None))
           "j1" "eng" "uploads/u3.pdf" [[Byte.x01]; [Byte.x02]]
           (with_status "failed" 5 (Sample.row "processing" None)));
    vm_compute; reflexivity.
Defined.

(** A sample run: the recognizer throws on the first page of a two-page
    PDF; the job ends [failed] and [uploads/temp_j1_0.png] is still
    there. *)
Lemma temp_file_left_behind :
  let out := run (exec (Sample.failing "boom"))
               (background "j1" "eng" "uploads/u3.pdf" ".pdf")
               (Sample.world_with (Sample.row "processing" None)) in
  status <$> db (world out) !! "j1" = Some "failed"
  /\ files (world out) !! "uploads/temp_j1_0.png" = Some [Byte.x01].
Proof. vm_compute. split; reflexivity. Qed.

(** On the other exit path the files are removed: when the job is
    completed, none of its temporary files exists. *)
Lemma completed_pdf_job_leaves_no_temp_file (o : Oracle) (w : World)
  (jobId lang filePath : string) (imgs : list Bytes) (r : Row) :
  convert o (clock w) filePath = Ok imgs ->
  let out := run (exec o) (background jobId lang filePath ".pdf") w in
  db (world out) !! jobId = Some r ->
  status r = "completed" ->
  forall k, k < length imgs -> files (world out) !! tempPath jobId k = None.
Proof.
  intros Hconv out Hr Hst k Hk.
  destruct (background_row o w jobId lang filePath ".pdf" r Hr) as (r0 & t & _ & H).
  destruct (background_run o w jobId lang filePath ".pdf") as (_ & Hfs & _).
  pose proof (extract_pdf o w jobId lang filePath) as Hx. cbv zeta in Hx.
  destruct (result (run (exec o) (extract jobId lang filePath ".pdf") w))
    as [x|e].
  - destruct Hx as (ds & _ & _ & imgs' & Hc & _ & Hfiles).
    rewrite Hconv in Hc. injection Hc as <-. fold out in Hfs.
    rewrite Hfs, Hfiles, lookup_foldr_delete. rewrite decide_True; [done|].
    unfold temp_paths. apply list_elem_of_fmap. exists k. split; [done|].
    apply elem_of_seq. lia.
  - destruct H as [-> _]. discriminate Hst.
Qed.

End Jobs.

(** * The [/pdf] route of [index.js] *)

Section Pdf.

Import Js Visionless.

Variable UPLOAD_DIR : string.

Local Ltac plain_events :=
  repeat first [ apply Forall_nil_2 | apply Forall_cons_2; [by split|] ].

Lemma getFileFromReq_events (o : Oracle) (w : World) (req : Req) :
  Forall plain (calls (run (exec o) (getFileFromReq UPLOAD_DIR req) w)).
Proof.
  unfold getFileFromReq. destruct (file req) as [f|]; [plain_events|].
  destruct (truthy_string (url_of req)); simpl negb; cbv iota; [|plain_events].
  cbn. destruct (urlExtname o (clock w) _) as [ext|e]; cbn; [|plain_events].
  destruct (download o _ _ _) as [content|e]; cbn; plain_events.
Qed.

Lemma pdf_reply_run (o : Oracle) (w : World) (res : nat) (f : Source) (out0 : Out) :
  let out := run (exec o) (pdf_reply res f out0) w in
  result out = Ok tt /\ Forall plain (calls out) /\
  exists s, sent (world out) = sent w ++ [(res, 200, BOk (with_summary s out0))].
Proof.
  unfold pdf_reply, llmSummarize. cbn.
  destruct (g4f o (clock w) _) as [s|e]; cbn;
    destruct (cleanup f); cbn; try destruct (files w !! src_path f); cbn;
    (split; [done|]); (split; [plain_events|]); by eexists.
Qed.

Lemma pdf_catch_run (o : Oracle) (w : World) (res : nat) (e : Error) :
  let out := run (exec o)
               (call (ConsoleError EmptyString e) ;; call (Respond res 400 (BFail e))) w in
  Forall plain (calls out) /\ sent (world out) = sent w ++ [(res, 400, BFail e)].
Proof. cbn. split; [plain_events|done]. Qed.

Lemma ocr_pages_events (o : Oracle) (req : Req) (imgs : list string) :
  forall i acc w,
    Forall (fun e => parsed_by e = None)
      (calls (run (exec o) (ocr_pages req i imgs acc) w)).
Proof.
  induction imgs as [|p rest IH]; intros i acc w; [by constructor|].
  cbn. destruct (analyzeImage o (clock w) p) as [m|e]; cbn;
    [|by repeat constructor].
  constructor; [done|].
  destruct (ocrImage o (S (clock w)) p _) as [x|e]; cbn;
    [|by repeat constructor].
  constructor; [done|]. apply IH.
Qed.

(** The three ways [pdf_extract] can go: it throws before any text layer
    is obtained; the text layer is sufficient and nothing else is called;
    the text layer is insufficient and the pages are rasterized. *)
Lemma pdf_extract_cases (o : Oracle) (w : World) (req : Req) (f : Source) :
  let ox := run (exec o) (pdf_extract UPLOAD_DIR req f) w in
  ((exists e, result ox = Err e) /\ Forall plain (calls ox))
  \/ (exists pre e0 p t,
        calls ox = pre ++ [e0] /\ Forall plain pre /\ rasterizes e0 = false /\
        parsed_by e0 = Some p /\ text_layer p = Some t /\
        sent (world ox) = sent w /\
        result ox = Ok {| out_file := src_originalname f; pages := [];
                          textExtracted := true; out_text := Some t;
                          summary := None |})
  \/ (exists pre e0 p post,
        calls ox = pre ++ e0 :: post /\ Forall plain pre /\ rasterizes e0 = false /\
        parsed_by e0 = Some p /\ text_layer p = None /\
        Forall (fun e => parsed_by e = None) post /\
        exists a b c r, ev (PdfToImages a b c) r ∈ post).
Proof.
  unfold pdf_extract. cbn.
  destruct (files w !! src_path f) as [buffer|]; cbn;
    [|left; split; [by eexists|plain_events]].
  destruct (pdfParse o (S (clock w)) buffer) as [p|e]; cbn;
    [|left; split; [by eexists|plain_events]].
  destruct (text_layer p) as [t|] eqn:Ht; cbn.
  - right. left. exists [ev (ReadFileSync (src_path f)) (Ok buffer)].
    eexists (ev (PdfParse buffer) (Ok p)), p, t.
    split; [done|]. split; [plain_events|]. by repeat split.
  - right. right. exists [ev (ReadFileSync (src_path f)) (Ok buffer)].
    eexists (ev (PdfParse buffer) (Ok p)), p, _.
    split; [done|]. split; [plain_events|]. split; [done|]. split; [done|].
    split; [done|].
    destruct (pdfToImages o _ _ _ _) as [imgs|e]; cbn.
    + split.
      * constructor; [done|]. constructor; [done|]. rewrite run_bind.
        match goal with
        | |- context [run (exec o) (ocr_pages req 0 imgs []) ?w1] =>
            pose proof (ocr_pages_events o req imgs 0 [] w1) as Hev;
            destruct (result (run (exec o) (ocr_pages req 0 imgs []) w1))
        end; simpl; [by rewrite app_nil_r|done].
      * eexists _, _, _, (Ok imgs). apply elem_of_cons. right.
        apply elem_of_cons. by left.
    + split; [by repeat constructor|].
      eexists _, _, _, (Err e). apply elem_of_cons. right.
      apply elem_of_cons. by left.
Qed.

(** The run of the handler, cut at the event that obtained the text
    layer, if there is one. *)
Lemma pdf_shape (o : Oracle) (w : World) (res : nat) (req : Req) :
  let out := run (exec o) (pdf UPLOAD_DIR res req) w in
  Forall plain (calls out)
  \/ (exists pre e0 p t post s name,
        calls out = pre ++ e0 :: post /\ Forall plain pre /\ Forall plain post /\
        rasterizes e0 = false /\ parsed_by e0 = Some p /\ text_layer p = Some t /\
        sent (world out) =
          sent w ++ [(res, 200,
                      BOk {| out_file := name; pages := []; textExtracted := true;
                             out_text := Some t; summary := Some s |})])
  \/ (exists pre e0 p post,
        calls out = pre ++ e0 :: post /\ Forall plain pre /\
        rasterizes e0 = false /\ parsed_by e0 = Some p /\ text_layer p = None /\
        Forall (fun e => parsed_by e = None) post /\
        exists a b c r, ev (PdfToImages a b c) r ∈ post).
Proof.
  intros out. subst out. unfold pdf. rewrite run_try_catch, run_bind.
  pose proof (getFileFromReq_events o w req) as Hg.
  set (og := run (exec o) (getFileFromReq UPLOAD_DIR req) w) in *.
  assert (Hsent_g : sent (world og) = sent w).
  { subst og. unfold getFileFromReq. destruct (file req); [done|].
    destruct (truthy_string (url_of req)); simpl negb; cbv iota; [|done].
    cbn. destruct (urlExtname o (clock w) _); cbn; [|done].
    by destruct (download o _ _ _). }
  destruct (result og) as [f|e].
  - rewrite run_bind.
    destruct (pdf_extract_cases o (world og) req f) as
      [[[e He] Hx]|[(pre & e0 & p & t & Hc & Hpre & He0 & Hp & Ht & Hs & Hr)
                   |(pre & e0 & p & post & Hc & Hpre & He0 & Hp & Ht & Hpost
                     & a & b & c & r & Hin)]].
    + rewrite He. cbn [then_run rethrow result world calls].
      left. rewrite !Forall_app. repeat split; try done.
      apply pdf_catch_run.
    + rewrite Hr. cbn [then_run rethrow result world calls].
      destruct (pdf_reply_run o (world (run (exec o) (pdf_extract UPLOAD_DIR req f) (world og)))
                  res f {| out_file := src_originalname f; pages := [];
                           textExtracted := true; out_text := Some t;
                           summary := None |}) as (Hok & Hev & s & Hsent).
      rewrite Hok. cbn [then_run rethrow result world calls].
      right. left. exists (calls og ++ pre), e0, p, t. eexists _, s, _.
      split; [by rewrite Hc, <- !app_assoc|].
      split; [by apply Forall_app|]. split; [exact Hev|].
      repeat split; try done. by rewrite Hsent, Hs, Hsent_g.
    + right. right. exists (calls og ++ pre), e0, p.
      set (ox := run (exec o) (pdf_extract UPLOAD_DIR req f) (world og)) in *.
      destruct (result ox) as [out0|e].
      * destruct (pdf_reply_run o (world ox) res f out0) as (Hok & Hev & _).
        cbn [then_run rethrow result world calls]. rewrite Hok.
        cbn [then_run rethrow result world calls].
        eexists. split; [by rewrite Hc, <- !app_assoc|].
        split; [by apply Forall_app|]. split; [done|]. split; [done|].
        split; [done|]. split.
        -- apply Forall_app. split; [done|].
           eapply Forall_impl; [exact Hev|]. by intros ? [_ ?].
        -- exists a, b, c, r. apply elem_of_app. by left.
      * cbn [then_run rethrow result world calls].
        eexists. split; [by rewrite Hc, <- !app_assoc|].
        split; [by apply Forall_app|]. split; [done|]. split; [done|].
        split; [done|]. split.
        -- apply Forall_app. split; [done|].
           eapply Forall_impl; [apply pdf_catch_run|]. by intros ? [_ ?].
        -- exists a, b, c, r. apply elem_of_app. by left.
  - cbn [then_run rethrow result world calls]. left.
    apply Forall_app. split; [done|]. apply pdf_catch_run.
Qed.

(** In a list cut at [x], an element that differs in kind from [x] and
    from everything before [x] lies after [x]. *)
Lemma found_after {A} (P : A -> Prop) (pre : list A) (x : A) (post l1 : list A)
  (e : A) (l2 : list A) :
  pre ++ x :: post = l1 ++ e :: l2 ->
  Forall (fun y => ~ P y) pre -> ~ P x -> P e -> x ∈ l1.
Proof.
  revert l1. induction pre as [|a pre IH]; intros l1 Heq Hpre Hx He.
  - destruct l1 as [|y l1]; simplify_eq/=; [done|]. apply elem_of_cons; auto.
  - apply Forall_cons in Hpre as [Ha Hpre].
    destruct l1 as [|y l1]; simplify_eq/=; [done|].
    apply elem_of_cons. right. by apply IH.
Qed.

End Pdf.

(** * Claims about text layer, rasterization and aggregated text *)

Section TextClaims.

Import Js.

Lemma text_layer_spec (p : option Visionless.Parsed) (t : jstring) :
  Visionless.text_layer p = Some t <->
  (exists q, p = Some q /\ Visionless.parsed_text q = Some t)
  /\ 30 < length (trim t).
Proof.
  unfold Visionless.text_layer. split.
  - destruct p as [q|]; [|done]. destruct (Visionless.parsed_text q) as [t'|] eqn:Hq; [|done].
    destruct (truthy (Some t') && (30 <? length (trim t'))%nat) eqn:Hc; [|done].
    intros [= ->]. apply andb_true_iff in Hc as [_ Hc]. apply Nat.ltb_lt in Hc.
    split; [by exists q|done].
  - intros [(q & -> & ->) Hlen].
    assert (Ht : truthy (Some t) = true).
    { destruct t; [simpl in Hlen; lia|done]. }
    apply Nat.ltb_lt in Hlen. by rewrite Ht, Hlen.
Qed.

Lemma numbered_pages {A} (i : nat) (l : list A) :
  imap (fun k _ => Some (i + k + 1)) l = Some <$> seq (i + 1) (length l).
Proof.
  revert i. induction l as [|x l IH]; intros i; [done|]. simpl.
  f_equal; [f_equal; lia|].
  etrans; [|exact (IH (S i))].
  apply imap_ext. intros k y _. simpl. f_equal. lia.
Qed.

(** A sufficient text layer: no rasterizing call, and the reply carries
    the text. *)
Lemma pdf_sufficient (UPLOAD_DIR : string)
  (o : Visionless.Oracle) (w : Visionless.World) (res : nat) (req : Visionless.Req)
  e0 p t :
  let out := run (Visionless.exec o) (Visionless.pdf UPLOAD_DIR res req) w in
  e0 ∈ calls out -> Visionless.parsed_by e0 = Some p ->
  Visionless.text_layer p = Some t ->
  Forall (fun e => Visionless.rasterizes e = false) (calls out) /\
  exists s name,
    Visionless.sent (world out) =
      Visionless.sent w ++
        [(res, 200,
          Visionless.BOk
            {| Visionless.out_file := name; Visionless.pages := [];
               Visionless.textExtracted := true;
               Visionless.out_text := Some t;
               Visionless.summary := Some s |})].
Proof.
  intros out Hin Hp Ht. pose proof (pdf_shape UPLOAD_DIR o w res req) as Hshape.
  fold out in Hshape.
  destruct Hshape as
    [Hall|[(pre & e1 & p1 & t1 & post & s & name & Hc & Hpre & Hpost & He1 & Hp1 & Ht1 & Hsent)
          |(pre & e1 & p1 & post & Hc & Hpre & He1 & Hp1 & Ht1 & Hpost & _)]].
  - rewrite Forall_forall in Hall. destruct (Hall e0 Hin). congruence.
  - assert (e0 = e1) as ->.
    { rewrite Hc in Hin. apply elem_of_app in Hin as [Hin|Hin].
      - rewrite Forall_forall in Hpre. destruct (Hpre e0 Hin). congruence.
      - apply elem_of_cons in Hin as [->|Hin]; [done|].
        rewrite Forall_forall in Hpost. destruct (Hpost e0 Hin). congruence. }
    assert (t1 = t) as -> by congruence. split; [|by exists s, name].
    rewrite Hc. apply Forall_app. split.
    + eapply Forall_impl; [exact Hpre|]. by intros ? [? _].
    + constructor; [done|]. eapply Forall_impl; [exact Hpost|]. by intros ? [? _].
  - assert (e0 = e1) as ->.
    { rewrite Hc in Hin. apply elem_of_app in Hin as [Hin|Hin].
      - rewrite Forall_forall in Hpre. destruct (Hpre e0 Hin). congruence.
      - apply elem_of_cons in Hin as [->|Hin]; [done|].
        rewrite Forall_forall in Hpost. specialize (Hpost e0 Hin). congruence. }
    congruence.
Qed.

(** An insufficient text layer: absent, or no longer than 30 code units
    once trimmed. *)
Lemma text_layer_none (p : option Visionless.Parsed) :
  Visionless.text_layer p = None <->
  (forall q t, p = Some q -> Visionless.parsed_text q = Some t ->
               length (trim t) <= 30).
Proof.
  unfold Visionless.text_layer. split.
  - destruct p as [q|]; [|by intros _ ? ? [=]].
    destruct (Visionless.parsed_text q) as [t'|] eqn:Hq;
      [|intros _ ? ? [= <-]; congruence].
    destruct (truthy (Some t') && (30 <? length (trim t'))%nat) eqn:Hc; [done|].
    intros _ q' t [= <-] Ht. assert (t = t') as -> by congruence.
    apply andb_false_iff in Hc as [Hc|Hc].
    + destruct t'; [simpl; lia|discriminate Hc].
    + apply Nat.ltb_ge in Hc. exact Hc.
  - intros H. destruct p as [q|]; [|done].
    destruct (Visionless.parsed_text q) as [t|] eqn:Hq; [|done].
    specialize (H q t eq_refl Hq). apply Nat.ltb_ge in H. rewrite H.
    by rewrite andb_false_r.
Qed.

(** An insufficient text layer: the page renderer is called afterwards. *)
Lemma pdf_insufficient (UPLOAD_DIR : string)
  (o : Visionless.Oracle) (w : Visionless.World) (res : nat) (req : Visionless.Req)
  e0 p :
  let out := run (Visionless.exec o) (Visionless.pdf UPLOAD_DIR res req) w in
  e0 ∈ calls out -> Visionless.parsed_by e0 = Some p ->
  Visionless.text_layer p = None ->
  exists l1 l2 a b c r,
    calls out = l1 ++ e0 :: l2 /\ ev (Visionless.PdfToImages a b c) r ∈ l2.
Proof.
  intros out Hin Hp Ht. pose proof (pdf_shape UPLOAD_DIR o w res req) as Hshape.
  fold out in Hshape.
  destruct Hshape as
    [Hall|[(pre & e1 & p1 & t1 & post & s & name & Hc & Hpre & Hpost & He1 & Hp1 & Ht1 & Hsent)
          |(pre & e1 & p1 & post & Hc & Hpre & He1 & Hp1 & Ht1 & Hpost
            & a & b & c & r & Hr)]].
  - rewrite Forall_forall in Hall. destruct (Hall e0 Hin). congruence.
  - assert (e0 = e1) as ->.
    { rewrite Hc in Hin. apply elem_of_app in Hin as [Hin|Hin].
      - rewrite Forall_forall in Hpre. destruct (Hpre e0 Hin). congruence.
      - apply elem_of_cons in Hin as [->|Hin]; [done|].
        rewrite Forall_forall in Hpost. destruct (Hpost e0 Hin). congruence. }
    congruence.
  - assert (e0 = e1) as ->.
    { rewrite Hc in Hin. apply elem_of_app in Hin as [Hin|Hin].
      - rewrite Forall_forall in Hpre. destruct (Hpre e0 Hin). congruence.
      - apply elem_of_cons in Hin as [->|Hin]; [done|].
        rewrite Forall_forall in Hpost. specialize (Hpost e0 Hin). congruence. }
    by exists pre, post, a, b, c, r.
Qed.

(** C4, as amended.  In the [/pdf] route of [index.js] the text layer is
    read first: every rasterizing or recognizing call comes after a
    [pdfParse] whose text was insufficient, that is absent or, trimmed, no
    longer than 30 code units.  When [pdfParse] returns a text whose
    trimmed length is above 30, no such call is made and the reply carries
    that text, [textExtracted: true] and no pages.  When it returns an
    insufficient text layer, the page renderer is called afterwards.  The
    job-based server has no text-layer step: the first call of the closure
    of a PDF job is the page renderer. *)
Theorem pdf_route_tries_text_layer_first (UPLOAD_DIR : string)
  (o : Visionless.Oracle) (w : Visionless.World) (res : nat) (req : Visionless.Req) :
  let out := run (Visionless.exec o) (Visionless.pdf UPLOAD_DIR res req) w in
  (forall l1 e l2,
     calls out = l1 ++ e :: l2 -> Visionless.rasterizes e = true ->
     exists e0 p,
       e0 ∈ l1 /\ Visionless.parsed_by e0 = Some p /\
       forall q t, p = Some q -> Visionless.parsed_text q = Some t ->
                   length (trim t) <= 30) /\
  (forall e0 q t,
     e0 ∈ calls out -> Visionless.parsed_by e0 = Some (Some q) ->
     Visionless.parsed_text q = Some t ->
     30 < length (trim t) ->
     Forall (fun e => Visionless.rasterizes e = false) (calls out) /\
     exists s name,
       Visionless.sent (world out) =
         Visionless.sent w ++
           [(res, 200,
             Visionless.BOk
               {| Visionless.out_file := name; Visionless.pages := [];
                  Visionless.textExtracted := true;
                  Visionless.out_text := Some t;
                  Visionless.summary := Some s |})]) /\
  (forall e0 p,
     e0 ∈ calls out -> Visionless.parsed_by e0 = Some p ->
     (forall q t, p = Some q -> Visionless.parsed_text q = Some t ->
                  length (trim t) <= 30) ->
     exists l1 l2 a b c r,
       calls out = l1 ++ e0 :: l2 /\
       ev (Visionless.PdfToImages a b c) r ∈ l2) /\
  (forall (o' : JobApi.Oracle) (w' : JobApi.World) (jobId lang filePath : string),
     head (calls (run (JobApi.exec o')
                    (JobApi.background jobId lang filePath ".pdf") w'))
     = Some (ev (JobApi.PdfConvert filePath)
               (JobApi.convert o' (JobApi.clock w') filePath))).
Proof.
  intros out. pose proof (pdf_shape UPLOAD_DIR o w res req) as Hshape.
  fold out in Hshape. split; [|split; [|split]].
  - intros l1 e l2 Heq He.
    destruct Hshape as
      [Hall|[(pre & e0 & p & t & post & s & name & Hc & Hpre & Hpost & He0 & _)
            |(pre & e0 & p & post & Hc & Hpre & He0 & Hp & Ht & _)]].
    + rewrite Heq in Hall. apply Forall_app in Hall as [_ Hall].
      apply Forall_cons in Hall as [[Hr _] _]. congruence.
    + rewrite Heq in Hc. symmetry in Hc.
      assert (He' : e ∈ pre ++ e0 :: post).
      { rewrite Hc. apply elem_of_app. right. apply elem_of_cons. auto. }
      apply elem_of_app in He' as [Hin|Hin].
      * rewrite Forall_forall in Hpre. destruct (Hpre e Hin). congruence.
      * apply elem_of_cons in Hin as [->|Hin]; [congruence|].
        rewrite Forall_forall in Hpost. destruct (Hpost e Hin). congruence.
    + exists e0, p. split; [|split; [done|by apply text_layer_none]].
      rewrite Heq in Hc. symmetry in Hc.
      eapply (found_after (fun x => Visionless.rasterizes x = true));
        [exact Hc| |congruence|done].
      eapply Forall_impl; [exact Hpre|]. intros x [Hx _]. congruence.
  - intros e0 q t Hin Hp Hq Hlen.
    apply (pdf_sufficient UPLOAD_DIR o w res req e0 (Some q) t Hin Hp).
    apply text_layer_spec. split; [by exists q|done].
  - intros e0 p Hin Hp Hins.
    apply (pdf_insufficient UPLOAD_DIR o w res req e0 p Hin Hp).
    by apply text_layer_none.
  - intros o' w' jobId lang filePath. cbn.
    by destruct (JobApi.convert o' (JobApi.clock w') filePath).
Qed.

(** C4, as stated, fails on the job-based server: for a PDF submission the
    first call of the executor is the page renderer, not a text-layer
    extraction, and the completed job has a per-page breakdown. *)
Lemma job_server_never_tries_a_text_layer :
  let out := run (JobApi.exec JobApi.Sample.good)
               (JobApi.background "j1" "eng" "uploads/u3.pdf" ".pdf")
               (JobApi.Sample.world_with (JobApi.Sample.row "processing" None)) in
  ~ ((exists e, head (calls out) = Some e /\ JobApi.renders e = false)
     \/ (exists r, JobApi.db (world out) !! "j1" = Some r
                   /\ JobApi.result_json r = Some [])).
Proof.
  intros out [(e & He & Hr)|(r & Hr & Hjs)].
  - vm_compute in He. injection He as <-. discriminate Hr.
  - vm_compute in Hr. injection Hr as <-. discriminate Hjs.
Qed.

(** C3, as amended.  For a completed PDF job of the job-based server the
    stored text is the page texts in page order, each followed by the page
    break ["\n\n"] (the last one included), the entries being numbered 1,
    2, ...; in the [/pdf] route, when the text layer is sufficient, the
    text of the reply is the text-layer text. *)
Theorem aggregated_text_is_pages_with_breaks :
  (forall (o : JobApi.Oracle) (w : JobApi.World) (jobId lang filePath : string)
          (r : JobApi.Row),
     JobApi.db (world (run (JobApi.exec o)
                         (JobApi.background jobId lang filePath ".pdf") w))
       !! jobId = Some r ->
     JobApi.status r = "completed" ->
     exists entries,
       JobApi.result_json r = Some entries /\
       JobApi.result_text r =
         Some (concat ((fun e => JobApi.text (JobApi.data e) ++ JobApi.page_break)
                         <$> entries)) /\
       JobApi.page <$> entries = Some <$> seq 1 (length entries)) /\
  (forall (UPLOAD_DIR : string) (o : Visionless.Oracle) (w : Visionless.World)
          (res : nat) (req : Visionless.Req) e0 p t,
     e0 ∈ calls (run (Visionless.exec o) (Visionless.pdf UPLOAD_DIR res req) w) ->
     Visionless.parsed_by e0 = Some p ->
     Visionless.text_layer p = Some t ->
     exists out0,
       Visionless.sent
         (world (run (Visionless.exec o) (Visionless.pdf UPLOAD_DIR res req) w))
       = Visionless.sent w ++ [(res, 200, Visionless.BOk out0)]
       /\ Visionless.out_text out0 = Some t /\ Visionless.pages out0 = []).
Proof.
  split.
  - intros o w jobId lang filePath r Hr Hst.
    destruct (background_row o w jobId lang filePath ".pdf" r Hr) as (r0 & t & _ & H).
    pose proof (extract_pdf o w jobId lang filePath) as Hx. cbv zeta in Hx.
    destruct (result (run (JobApi.exec o)
                        (JobApi.extract jobId lang filePath ".pdf") w)) as [x|e].
    + destruct Hx as (ds & Htxt & Hjs & _). subst r. simpl.
      eexists. split; [done|]. rewrite Htxt, Hjs. split.
      * f_equal. f_equal. rewrite fmap_imap.
        rewrite <- (imap_const (fun d => JobApi.text d ++ JobApi.page_break) ds).
        by apply imap_ext.
      * rewrite fmap_imap, length_imap. rewrite <- (numbered_pages 0).
        by apply imap_ext.
    + destruct H as [-> _]. discriminate Hst.
  - intros D o w res req e0 p t Hin Hp Ht.
    destruct (pdf_sufficient D o w res req e0 p t Hin Hp Ht) as (_ & s & name & Hsent).
    eexists. split; [exact Hsent|]. done.
Qed.

(** C3, as stated, fails: the stored text of a completed two-page PDF job
    is not the plain concatenation of its page texts. *)
Lemma stored_text_is_not_plain_concatenation :
  let out := run (JobApi.exec JobApi.Sample.good)
               (JobApi.background "j1" "eng" "uploads/u3.pdf" ".pdf")
               (JobApi.Sample.world_with (JobApi.Sample.row "processing" None)) in
  ~ (exists r entries,
       JobApi.db (world out) !! "j1" = Some r /\ JobApi.status r = "completed" /\
       JobApi.result_json r = Some entries /\
       JobApi.result_text r =
         Some (concat ((fun e => JobApi.text (JobApi.data e)) <$> entries))).
Proof.
  intros out (r & entries & Hr & _ & Hjs & Ht).
  vm_compute in Hr. injection Hr as <-. simpl in Hjs. injection Hjs as <-.
  vm_compute in Ht. discriminate Ht.
Qed.

(** Sample runs of the [/pdf] route: forty letters are a sufficient text
    layer; forty spaces are not, and the two pages are rasterized. *)
Example pdf_sample_text_layer :
  let out := run (Visionless.exec (Visionless.Sample.layered Visionless.Sample.letters))
               (Visionless.pdf "/srv/uploads" 0 Visionless.Sample.req)
               Visionless.Sample.w0 in
  Visionless.sent (world out) =
    [(0, 200,
      Visionless.BOk
        {| Visionless.out_file := "doc.pdf"; Visionless.pages := [];
           Visionless.textExtracted := true;
           Visionless.out_text := Some Visionless.Sample.letters;
           Visionless.summary := Some (Some (lit "summary")) |})]
  /\ Visionless.rasterizes <$> calls out = [false; false; false; false].
Proof. vm_compute. split; reflexivity. Qed.

Example pdf_sample_rasterized :
  let out := run (Visionless.exec (Visionless.Sample.layered Visionless.Sample.blanks))
               (Visionless.pdf "/srv/uploads" 0 Visionless.Sample.req)
               Visionless.Sample.w0 in
  (exists out0,
     Visionless.sent (world out) = [(0, 200, Visionless.BOk out0)]
     /\ Visionless.out_text out0 = None
     /\ Visionless.page <$> Visionless.pages out0 = [1; 2]
     /\ Visionless.image <$> Visionless.pages out0 = ["p-1.png"; "p-2.png"])
  /\ Visionless.rasterizes <$> calls out
     = [false; false; false; true; true; true; true; true; false; false].
Proof. vm_compute. split; [eexists; repeat split|reflexivity]. Qed.

(** A sample run of a two-page PDF job: the stored text is [a], break,
    [b], break. *)
Example job_sample_text :
  let out := run (JobApi.exec JobApi.Sample.good)
               (JobApi.background "j1" "eng" "uploads/u3.pdf" ".pdf")
               (JobApi.Sample.world_with (JobApi.Sample.row "processing" None)) in
  (JobApi.db (world out) !! "j1") ≫= JobApi.result_text
  = Some (lit "a" ++ JobApi.page_break ++ lit "b" ++ JobApi.page_break).
Proof. vm_compute. reflexivity. Qed.

End TextClaims.

(** * The invariant of the job-based server *)

Section Invariant.

Import Js JobApi.

Lemma quiet_owner {A} (id : string) (p : Prog Call A) : quiet p -> owner id p.
Proof.
  induction p as [A a|A e|A X c k IH|A child _ k _]; simpl; try done.
  intros [Hc Hk]. rewrite Hc. intros r. by apply IH.
Qed.

Lemma quiet_starter {A} (p : Prog Call A) : quiet p -> starter p.
Proof.
  induction p as [A a|A e|A X c k IH|A child _ k _]; simpl; try done.
  intros [Hc Hk]. rewrite Hc. intros r. by apply IH.
Qed.

(** A [try] whose block makes no write before its last statement. *)
Lemma owner_try_bind {A B} (id : string) (p : Prog Call A)
  (f : A -> Prog Call B) (h : Error -> Prog Call B) :
  quiet p ->
  (forall a, owner id (try_catch (f a) h)) ->
  (forall e, owner id (h e)) ->
  owner id (try_catch (bind p f) h).
Proof.
  intros Hp Hf Hh.
  induction p as [A a|A e|A X c k IH|A child _ k _]; simpl in *.
  - apply Hf.
  - apply Hh.
  - destruct Hp as [Hc Hk]. rewrite Hc. intros r. by apply IH.
  - done.
Qed.

Lemma owner_background (jobId lang filePath ext : string) :
  owner jobId (background jobId lang filePath ext).
Proof.
  unfold background.
  assert (Hcatch : forall e : Error,
    owner jobId (call (ConsoleError "OCR Processing Error:" e) ;;
                 call (DbUpdateStatus "failed" jobId))).
  { intros e [[]|e']; simpl; [|done].
    split; [done|]. split; [by right|]. by split. }
  apply owner_try_bind; [apply quiet_extract| |exact Hcatch].
  intros r. simpl. split; [done|]. split; [by left|]. split; [done|].
  intros e. exact (Hcatch e).
Qed.

Lemma starter_handler (r : Request) : starter (handler r).
Proof.
  destruct r as [res req|res id|res id|res]; simpl.
  - unfold upload. destruct (file req) as [f|]; simpl.
    + intros [jobId|e]; simpl.
      * split; [done|]. split.
        -- intros []. simpl. intros [[]|e]; simpl.
           ++ split; [apply owner_background|done].
           ++ intros [[]|e']; simpl; [|done]. by intros [[]|e''].
        -- intros e. simpl. split; [done|]. intros [[]|e']; simpl; [|done].
           split; [done|]. by intros [[]|e''].
      * intros [[]|e']; simpl; [|done]. by intros [[]|e''].
    + intros [[]|e]; simpl; [done|].
      intros [[]|e']; simpl; [|done]. by intros [[]|e''].
  - intros [[job|]|e]; simpl; try done; by intros [[]|e'].
  - intros [[job|]|e]; simpl; try done; [|by intros [[]|e']].
    destruct (negb (String.eqb (status job) "completed")); simpl;
      [by intros [[]|e']|].
    destruct (result_text job); simpl; [|done]. by intros [[]|e'].
  - by intros [[]|e].
Qed.

(** What the writes do to the table. *)
Lemma exec_insert (o : Oracle) X (c : Call X) (w : World) (id st : string) :
  write_of c = Inserts id st ->
  (db w !! id = None /\ (exists x, (exec o X c w).1 = Ok x) /\
   exists fname lang,
     db (exec o X c w).2 = <[id := new_row id fname st lang (clock w)]> (db w))
  \/ (is_Some (db w !! id) /\ (exists e, (exec o X c w).1 = Err e) /\
      db (exec o X c w).2 = db w).
Proof.
  destruct c; try discriminate. intros [= -> ->]. simpl.
  destruct (db w !! id) eqn:Hid; simpl.
  - right. split; [by eexists|]. split; [by eexists|done].
  - left. split; [done|]. split; [by eexists|]. by eexists _, _.
Qed.

Lemma exec_update (o : Oracle) X (c : Call X) (w : World) (id st : string)
  (full : bool) :
  write_of c = Updates id st full ->
  (exists x, (exec o X c w).1 = Ok x) /\
  exists f : Row -> Row,
    db (exec o X c w).2 = alter f id (db w) /\
    (forall r, status (f r) = st) /\
    (full = true ->
     forall r, is_Some (result_text (f r)) /\ is_Some (result_json (f r))).
Proof.
  destruct c; try discriminate; intros [= -> -> <-]; simpl.
  - split; [by eexists|]. eexists. split; [done|]. split; [done|].
    intros _ r. simpl. split; by eexists.
  - split; [by eexists|]. eexists. split; [done|]. split; [done|]. done.
Qed.

Lemma status_in_alter (f : Row -> Row) (id id' : string) (w : World) (ts ts' : list Task) st :
  (forall r, status (f r) = st) ->
  forall w', db w' = alter f id (db w) ->
  status_in id' {| sys_world := w'; pool := ts' |} =
    if decide (id' = id)
    then (fun _ => st) <$> status_in id {| sys_world := w; pool := ts |}
    else status_in id' {| sys_world := w; pool := ts |}.
Proof.
  intros Hf w' Hdb. unfold status_in. simpl. rewrite Hdb.
  case_decide as Hid.
  - subst id'. rewrite lookup_alter_eq. destruct (db w !! id); simpl; [|done].
    by rewrite Hf.
  - by rewrite lookup_alter_ne.
Qed.

(** A step keeps the invariant and moves each status along the state
    machine. *)
Lemma step_invariant (s s' : Sys) (tags : list (option string)) :
  invariant s tags -> step s s' ->
  (exists tags', invariant s' tags') /\
  forall id, status_move (status_in id s) (status_in id s').
Proof.
  intros [Htag Hproc Huniq Hrows] Hstep.
  destruct Hstep as [w ts r|w ts i X c k o Hi|w ts i child k Hi]; simpl in *.
  - (* a request comes in *)
    split; [|by left]. exists (tags ++ [None]). split; simpl.
    + apply Forall2_app; [done|]. constructor; [|done]. apply starter_handler.
    + intros j id Hj. apply (Hproc j id).
      apply lookup_app_Some in Hj as [Hj|[_ Hj]]; [done|].
      by destruct (j - length tags) as [|[|]].
    + intros j j' id Hj Hj'. apply (Huniq j j' id).
      * apply lookup_app_Some in Hj as [Hj|[_ Hj]]; [done|].
        by destruct (j - length tags) as [|[|]].
      * apply lookup_app_Some in Hj' as [Hj'|[_ Hj']]; [done|].
        by destruct (j' - length tags) as [|[|]].
    + done.
  - (* a task makes a call *)
    destruct (Forall2_lookup_l _ _ _ _ _ Htag Hi) as (t & Hti & Ht).
    destruct (write_of c) as [|id st|id st full] eqn:Hc.
    + (* not a write *)
      pose proof (exec_no_write o X c w Hc) as Hdb.
      split; [|intros id; left; unfold status_in; simpl; by rewrite Hdb].
      exists tags. split; simpl.
      * rewrite <- (list_insert_id tags i t Hti).
        apply Forall2_insert; [done|].
        destruct t as [id|]; simpl in Ht; rewrite Hc in Ht; apply Ht.
      * intros j id Hj. unfold status_in. simpl. rewrite Hdb. by apply (Hproc j).
      * done.
      * by rewrite Hdb.
    + (* the INSERT *)
      destruct t as [id'|]; simpl in Ht; rewrite Hc in Ht; [done|].
      destruct Ht as (-> & Hok & Herr).
      destruct (exec_insert o X c w id "processing" Hc)
        as [(Hnew & [x Hx] & fname & lang & Hdb)|(Hold & [e He] & Hdb)].
      * split.
        -- exists (<[i := Some id]> tags). split; simpl.
           ++ apply Forall2_insert; [done|]. rewrite Hx. apply Hok.
           ++ intros j id' Hj. unfold status_in. simpl. rewrite Hdb.
              destruct (decide (j = i)) as [->|Hne].
              ** rewrite list_lookup_insert_eq in Hj
                   by (by apply lookup_lt_Some in Hti).
                 injection Hj as ->. by rewrite lookup_insert_eq.
              ** rewrite list_lookup_insert_ne in Hj by done.
                 pose proof (Hproc j id' Hj) as Hp. unfold status_in in Hp.
                 simpl in Hp. rewrite lookup_insert_ne; [done|].
                 intros ->. by rewrite Hnew in Hp.
           ++ intros j j' id' Hj Hj'.
              assert (Hfresh : forall n, n <> i -> tags !! n = Some (Some id') ->
                                id' <> id).
              { intros n _ Hn ->. pose proof (Hproc n id Hn) as Hp.
                unfold status_in in Hp. simpl in Hp. by rewrite Hnew in Hp. }
              destruct (decide (j = i)) as [->|Hne];
                destruct (decide (j' = i)) as [->|Hne']; try done.
              ** rewrite list_lookup_insert_eq in Hj
                   by (by apply lookup_lt_Some in Hti).
                 rewrite list_lookup_insert_ne in Hj' by done.
                 injection Hj as ->. by destruct (Hfresh j' Hne' Hj').
              ** rewrite list_lookup_insert_eq in Hj'
                   by (by apply lookup_lt_Some in Hti).
                 rewrite list_lookup_insert_ne in Hj by done.
                 injection Hj' as ->. by destruct (Hfresh j Hne Hj).
              ** rewrite list_lookup_insert_ne in Hj, Hj' by done.
                 by apply (Huniq j j' id').
           ++ rewrite Hdb. apply map_Forall_insert_2; [|done].
              split; [by left|]. done.
        -- intros id'. unfold status_in. simpl. rewrite Hdb.
           destruct (decide (id' = id)) as [->|Hne].
           ++ right. left. by rewrite Hnew, lookup_insert_eq.
           ++ left. by rewrite lookup_insert_ne.
      * split; [|intros id'; left; unfold status_in; simpl; by rewrite Hdb].
        exists tags. split; simpl.
        -- rewrite <- (list_insert_id tags i None Hti).
           apply Forall2_insert; [done|]. rewrite He. simpl.
           apply quiet_starter, Herr.
        -- intros j id' Hj. unfold status_in. simpl. rewrite Hdb.
           by apply (Hproc j).
        -- done.
        -- by rewrite Hdb.
    + (* the final UPDATE *)
      destruct t as [id'|]; simpl in Ht; rewrite Hc in Ht; [|done].
      destruct Ht as (-> & Hfinal & Hok & _).
      destruct (exec_update o X c w id' st full Hc)
        as ([x Hx] & f & Hdb & Hst & Hfull).
      pose proof (Hproc i id' Hti) as Hcur.
      split.
      * exists (<[i := None]> tags). split; simpl.
        -- apply Forall2_insert; [done|]. rewrite Hx. simpl.
           apply quiet_starter, Hok.
        -- intros j id Hj.
           destruct (decide (j = i)) as [->|Hne].
           { rewrite list_lookup_insert_eq in Hj
               by (by apply lookup_lt_Some in Hti). done. }
           rewrite list_lookup_insert_ne in Hj by done.
           rewrite (status_in_alter f id' id w ts _ st Hst _ Hdb).
           rewrite decide_False; [by apply (Hproc j)|].
           intros ->. by apply Hne, (Huniq j i id').
        -- intros j j' id Hj Hj'.
           destruct (decide (j = i)) as [->|Hne].
           { rewrite list_lookup_insert_eq in Hj
               by (by apply lookup_lt_Some in Hti). done. }
           destruct (decide (j' = i)) as [->|Hne'].
           { rewrite list_lookup_insert_eq in Hj'
               by (by apply lookup_lt_Some in Hti). done. }
           rewrite list_lookup_insert_ne in Hj, Hj' by done.
           by apply (Huniq j j' id).
        -- rewrite Hdb. intros id r Hr.
           apply lookup_alter_status in Hr as [(-> & r0 & Hr0 & ->)|[_ Hr]];
             [|by apply (Hrows id)].
           split.
           ++ rewrite Hst. destruct Hfinal as [[-> _]| ->]; auto.
           ++ rewrite Hst. intros ->.
              destruct Hfinal as [[_ Hf]|Hf]; [by apply Hfull|done].
      * intros id. rewrite (status_in_alter f id' id w ts _ st Hst _ Hdb).
        case_decide as Hid; [|by left]. subst id. rewrite Hcur. simpl.
        right. right. split; [done|].
        destruct Hfinal as [[-> _]| ->]; auto.
  - (* a closure is detached *)
    split; [|by left].
    destruct (Forall2_lookup_l _ _ _ _ _ Htag Hi) as (t & Hti & Ht).
    destruct t as [id|]; simpl in Ht; [|done]. destruct Ht as [Hchild Hk].
    assert (Hlen : i < length tags) by (by apply lookup_lt_Some in Hti).
    exists (<[i := None]> tags ++ [Some id]). split; simpl.
    + apply Forall2_app; [|by constructor].
      apply Forall2_insert; [done|]. by apply quiet_starter.
    + intros j id' Hj. unfold status_in. simpl.
      apply lookup_app_Some in Hj as [Hj|[_ Hj]].
      * destruct (decide (j = i)) as [->|Hne].
        { by rewrite list_lookup_insert_eq in Hj. }
        rewrite list_lookup_insert_ne in Hj by done. by apply (Hproc j).
      * destruct (j - length (<[i:=None]> tags)) as [|[|]]; try done.
        injection Hj as <-. by apply (Hproc i).
    + intros j j' id' Hj Hj'.
      apply lookup_app_Some in Hj as [Hj|[Hge Hj]];
        apply lookup_app_Some in Hj' as [Hj'|[Hge' Hj']].
      * destruct (decide (j = i)) as [->|Hne].
        { by rewrite list_lookup_insert_eq in Hj. }
        destruct (decide (j' = i)) as [->|Hne'].
        { by rewrite list_lookup_insert_eq in Hj'. }
        rewrite list_lookup_insert_ne in Hj, Hj' by done.
        by apply (Huniq j j' id').
      * destruct (j' - length (<[i:=None]> tags)) as [|[|]] eqn:Hd; try done.
        injection Hj' as <-.
        destruct (decide (j = i)) as [->|Hne].
        { by rewrite list_lookup_insert_eq in Hj. }
        rewrite list_lookup_insert_ne in Hj by done.
        by destruct Hne, (Huniq j i id).
      * destruct (j - length (<[i:=None]> tags)) as [|[|]] eqn:Hd; try done.
        injection Hj as <-.
        destruct (decide (j' = i)) as [->|Hne].
        { by rewrite list_lookup_insert_eq in Hj'. }
        rewrite list_lookup_insert_ne in Hj' by done.
        by destruct Hne, (Huniq j' i id).
      * destruct (j - length (<[i:=None]> tags)) as [|[|]] eqn:Hd; try done.
        destruct (j' - length (<[i:=None]> tags)) as [|[|]] eqn:Hd'; try done.
        lia.
    + done.
Qed.

End Invariant.

(** * Traces of the job-based server *)

Section Traces.

Import Js JobApi.

Lemma boot_invariant (fs : gmap string Bytes) : invariant (boot fs) [].
Proof.
  split; simpl; done.
Qed.

Lemma changes_snoc (l : list string) (x : string) :
  changes (l ++ [x]) =
    if decide (last l = Some x) then changes l else changes l ++ [x].
Proof.
  induction l as [|y l IH]; [done|].
  destruct l as [|z l].
  - simpl. destruct (String.eqb_spec y x) as [->|Hne].
    + by rewrite decide_True.
    + rewrite decide_False; [done|]. by intros [= ->].
  - change (changes ((y :: z :: l) ++ [x]))
      with (if String.eqb y z then changes ((z :: l) ++ [x])
            else y :: changes ((z :: l) ++ [x])).
    change (changes (y :: z :: l))
      with (if String.eqb y z then changes (z :: l) else y :: changes (z :: l)).
    change (last (y :: z :: l)) with (last (z :: l)).
    rewrite IH. destruct (decide (last (z :: l) = Some x));
      by destruct (String.eqb y z).
Qed.

Lemma readings_snoc (id : string) (tr : list Sys) (s : Sys) :
  readings id (tr ++ [s]) =
    readings id tr ++ match status_in id s with Some st => [st] | None => [] end.
Proof.
  unfold readings. rewrite omap_app. simpl. by destruct (status_in id s).
Qed.

(** Along a trace from start-up the invariant holds, and the changes of
    status of every job are the story of its current status. *)
Lemma trace_invariant (fs : gmap string Bytes) (tr : list Sys) (s : Sys) :
  trace_from (boot fs) tr s ->
  (exists tags, invariant s tags) /\
  forall id,
    (status_in id s = None -> readings id tr = []) /\
    (forall st, status_in id s = Some st -> last (readings id tr) = Some st) /\
    changes (readings id tr) = story (status_in id s).
Proof.
  induction 1 as [|tr s s' _ [[tags Hinv] IH] Hstep].
  - split; [exists []; apply boot_invariant|]. intros id.
    unfold readings, status_in. simpl. by rewrite lookup_empty.
  - destruct (step_invariant s s' tags Hinv Hstep) as [Hinv' Hmove].
    split; [done|]. intros id.
    destruct (IH id) as (Hnone & Hlast & Hch).
    rewrite readings_snoc.
    destruct (Hmove id) as [Heq|[[Ha Hb]|[Ha Hb]]].
    + rewrite <- Heq. destruct (status_in id s) as [st|] eqn:Hst.
      * split; [done|]. split; [intros ? [= <-]; apply last_snoc|].
        rewrite changes_snoc, decide_True; [done|]. by apply Hlast.
      * rewrite app_nil_r. by rewrite (Hnone eq_refl).
    + rewrite Hb, (Hnone Ha). split; [done|]. split; [by intros ? [= <-]|done].
    + specialize (Hlast _ Ha). rewrite Ha in Hch. simpl in Hch.
      destruct Hb as [Hb|Hb]; rewrite Hb;
        (split; [done|]); (split; [intros ? [= <-]; apply last_snoc|]);
        rewrite changes_snoc, decide_False, Hch; try done;
        rewrite Hlast; by intros [= ?].
Qed.

(** The rows the server writes: a completed row has its text and its
    pages. *)
Lemma completed_rows_have_text (fs : gmap string Bytes) (tr : list Sys) (s : Sys)
  (id : string) (r : Row) :
  trace_from (boot fs) tr s ->
  db (sys_world s) !! id = Some r ->
  row_ok r.
Proof.
  intros Htr Hr. destruct (trace_invariant fs tr s Htr) as [[tags Hinv] _].
  by apply (inv_rows _ _ Hinv id).
Qed.

Lemma act_step (a : Action) (s s' : Sys) : act a s = Some s' -> step s s'.
Proof.
  destruct s as [w ts]. destruct a as [r|i o|i]; simpl.
  - intros [= <-]. constructor.
  - destruct (ts !! i) as [[a|e|X c k|child k]|] eqn:Hi; try done.
    intros [= <-]. by apply step_call.
  - destruct (ts !! i) as [[a|e|X c k|child k]|] eqn:Hi; try done.
    intros [= <-]. by apply step_fork.
Qed.

(** A schedule extends a trace by the states it visits. *)
Lemma play_trace (s0 : Sys) (acts : list Action) :
  forall tr s, trace_from s0 tr s ->
               trace_from s0 (tr ++ play acts s) (final acts s).
Proof.
  induction acts as [|a acts IH]; intros tr s Htr.
  - unfold final. simpl. by rewrite app_nil_r.
  - unfold final. simpl. destruct (act a s) as [s'|] eqn:Ha.
    + apply act_step in Ha.
      specialize (IH (tr ++ [s']) s' (trace_next s0 tr s s' Htr Ha)).
      rewrite <- app_assoc in IH. simpl in IH.
      replace (default s (last (s' :: play acts s'))) with (final acts s');
        [done|].
      unfold final. rewrite last_cons. by destruct (last (play acts s')).
    + simpl. by rewrite app_nil_r.
Qed.

End Traces.

(** * Claims about the server as a whole *)

Section Server.

Import Js JobApi.

(** C1: along every trace of the server from start-up, whatever the
    interleaving of handlers and background closures and whatever the
    collaborators answer, the successive status values the table holds for
    a job form a subsequence of pending, processing, completed or of
    pending, processing, failed. *)
Theorem status_history_follows_state_machine (fs : gmap string Bytes)
  (tr : list Sys) (s : Sys) (id : string) :
  trace_from (boot fs) tr s ->
  changes (readings id tr) `sublist_of` ["pending"; "processing"; "completed"]
  \/ changes (readings id tr) `sublist_of` ["pending"; "processing"; "failed"].
Proof.
  intros Htr. destruct (trace_invariant fs tr s Htr) as [[tags Hinv] H].
  destruct (H id) as (_ & _ & ->).
  unfold status_in. destruct (db (sys_world s) !! id) as [r|] eqn:Hr; simpl.
  - destruct (inv_rows _ _ Hinv id r Hr) as [[->|[->| ->]] _]; simpl.
    + left. apply sublist_cons, sublist_skip, sublist_nil_l.
    + left. apply sublist_cons. reflexivity.
    + right. apply sublist_cons. reflexivity.
  - left. apply sublist_nil_l.
Qed.

Lemma status_history_follows_state_machine_witness :
  changes (readings "j1" ([boot ∅] ++ play Sample.schedule (boot ∅)))
    `sublist_of` ["pending"; "processing"; "completed"]
  \/ changes (readings "j1" ([boot ∅] ++ play Sample.schedule (boot ∅)))
       `sublist_of` ["pending"; "processing"; "failed"].
Proof.
  apply (status_history_follows_state_machine ∅ _
           (final Sample.schedule (boot ∅)) "j1").
  apply play_trace. constructor.
Defined.

(** The sample schedule shows both values: the job is read as
    [processing], then as [completed]. *)
Example sample_history :
  changes (readings "j1" ([boot ∅] ++ play Sample.schedule (boot ∅)))
  = ["processing"; "completed"].
Proof. vm_compute. reflexivity. Qed.

(** C5: in every state the server can reach, the result handler answers
    404 for an unknown id, 400 with the fixed error body (no text, no
    pages) for a job in any status other than [completed], [failed]
    included, and 200 with the full result, built from the stored text,
    exactly for a job in status [completed]. *)
Theorem get_result_on_server (fs : gmap string Bytes) (tr : list Sys) (s : Sys)
  (o : Oracle) (res : nat) (id : string) :
  trace_from (boot fs) tr s ->
  let out := run (exec o) (get_result res id) (sys_world s) in
  match db (sys_world s) !! id with
  | None =>
      sent (world out) =
        sent (sys_world s) ++ [(res, 404, BError "Job not found")]
  | Some job =>
      if String.eqb (status job) "completed"
      then exists t, result_text job = Some t /\
             sent (world out) =
               sent (sys_world s) ++
                 [(res, 200,
                   BResult (row_id job) (filename job) (language job) t
                     (result_json job) (accessibility_of t (language job)))]
      else sent (world out) =
             sent (sys_world s) ++ [(res, 400, BError "Job not completed yet")]
  end.
Proof.
  intros Htr out.
  destruct (get_result_cases o (sys_world s) res id) as (H404 & H400 & H200 & _).
  fold out in H404, H400, H200.
  destruct (db (sys_world s) !! id) as [job|] eqn:Hjob; [|by apply H404].
  destruct (String.eqb_spec (status job) "completed") as [Hst|Hst].
  - destruct (completed_rows_have_text fs tr s id job Htr Hjob) as [_ Htext].
    destruct (Htext Hst) as [[t Ht] _]. exists t. split; [done|].
    by apply (H200 job t).
  - by apply (H400 job).
Qed.

Lemma get_result_on_server_witness :
  let s := final Sample.schedule (boot ∅) in
  let out := run (exec Sample.good) (get_result 9 "j1") (sys_world s) in
  match db (sys_world s) !! "j1" with
  | None =>
      sent (world out) =
        sent (sys_world s) ++ [(9, 404, BError "Job not found")]
  | Some job =>
      if String.eqb (status job) "completed"
      then exists t, result_text job = Some t /\
             sent (world out) =
               sent (sys_world s) ++
                 [(9, 200,
                   BResult (row_id job) (filename job) (language job) t
                     (result_json job) (accessibility_of t (language job)))]
      else sent (world out) =
             sent (sys_world s) ++ [(9, 400, BError "Job not completed yet")]
  end.
Proof.
  exact (get_result_on_server ∅ _ (final Sample.schedule (boot ∅))
           Sample.good 9 "j1"
           (play_trace (boot ∅) Sample.schedule _ _ (trace_start (boot ∅)))).
Defined.

(** In the state the sample schedule ends in, the job is completed and the
    handler sends the full result. *)
Example sample_result :
  let s := final Sample.schedule (boot ∅) in
  status <$> db (sys_world s) !! "j1" = Some "completed" /\
  sent (world (run (exec Sample.good) (get_result 9 "j1") (sys_world s))) =
    sent (sys_world s) ++
      [(9, 200,
        BResult "j1" "scan.png" "eng" (lit "a")
          (Some [{| page := None; data := Sample.page_a |}])
          {| alt_text := lit "a"; has_text := true; language_detected := "eng" |})].
Proof. vm_compute. split; reflexivity. Qed.

End Server.

(** * Frames: what a program leaves alone *)

Section Frames.

Context {E : Type -> Type} {W : Type}.
Variable exec : forall X, E X -> W -> Result X * W.

Lemma only_calls_bind (P : forall X, E X -> Prop) {A B} (p : Prog E A)
  (f : A -> Prog E B) :
  only_calls P p -> (forall a, only_calls P (f a)) -> only_calls P (bind p f).
Proof.
  intros Hp Hf. induction p as [A a|A e|A X c k IH|A child _ k IH]; simpl in *.
  - apply Hf.
  - done.
  - destruct Hp as [Hc Hk]. split; [done|]. intros r. by apply IH.
  - destruct Hp as [Hch Hk]. split; [done|]. by apply IH.
Qed.

Lemma only_calls_try_catch (P : forall X, E X -> Prop) {A} (p : Prog E A)
  (h : Error -> Prog E A) :
  only_calls P p -> (forall e, only_calls P (h e)) -> only_calls P (try_catch p h).
Proof.
  intros Hp Hh. induction p as [A a|A e|A X c k IH|A child _ k IH]; simpl in *.
  - done.
  - apply Hh.
  - destruct Hp as [Hc Hk]. split; [done|]. intros r. by apply IH.
  - destruct Hp as [Hch Hk]. split; [done|]. by apply IH.
Qed.

Lemma only_calls_call (P : forall X, E X -> Prop) {X} (c : E X) :
  P X c -> only_calls P (call c).
Proof. intros Hc. split; [done|]. by intros [x|e]. Qed.

(** A part of the world that no call of kind [P] changes is left as it was
    by a program that only makes such calls. *)
Lemma run_frame (P : forall X, E X -> Prop) {B} (part : W -> B) :
  (forall X (c : E X) w, P X c -> part (exec X c w).2 = part w) ->
  forall {A} (p : Prog E A) w,
    only_calls P p -> part (world (run exec p w)) = part w.
Proof.
  intros Hexec A p.
  induction p as [A a|A e|A X c k IH|A child _ k IH]; intros w Hp; simpl.
  - done.
  - done.
  - destruct Hp as [Hc Hk]. specialize (Hexec X c w Hc).
    destruct (exec X c w) as [r w']. simpl in *. by rewrite IH.
  - destruct Hp as [_ Hk]. by apply IH.
Qed.

(** The calls a program makes when it runs are among those it can make. *)
Lemma run_calls_only (P : forall X, E X -> Prop) {A} (p : Prog E A) (w : W) :
  only_calls P p ->
  Forall (fun e => P (projT1 e) (projT2 e).1) (calls (run exec p w)).
Proof.
  revert w. induction p as [A a|A e|A X c k IH|A child _ k IH];
    intros w Hp; simpl; try by constructor.
  - destruct Hp as [Hc Hk]. destruct (exec X c w) as [r w']. simpl.
    constructor; [done|]. by apply IH.
  - destruct Hp as [_ Hk]. by apply IH.
Qed.

End Frames.

(** * More about the job-based server *)

Section JobExtras.

Import Js JobApi.

(** X1.  When the generated id is already a key of the table, the
    [INSERT] fails: the handler answers 500, logs the error, detaches
    nothing and leaves the table and the files as they were. *)
Theorem upload_duplicate_id (o : Oracle) (w : World) (res : nat)
  (req : UploadReq) (f : File) :
  file req = Some f ->
  is_Some (db w !! uuid o (clock w)) ->
  let out := run (exec o) (upload res req) w in
  sent (world out) = sent w ++ [(res, 500, BError "Internal server error")]
  /\ db (world out) = db w /\ files (world out) = files w
  /\ spawned out = []
  /\ exists e, console (world out) = console w ++ [("Upload Error:", e)].
Proof.
  intros Hf [r Hr] out. subst out. unfold upload. rewrite Hf. cbn.
  rewrite Hr. cbn. repeat split; try done. by eexists.
Qed.

Lemma upload_duplicate_id_witness :
  let out := run (exec Sample.good) (upload 3 Sample.png)
               (Sample.world_with (Sample.row "completed" (Some (lit "a")))) in
  sent (world out) = [(3, 500, BError "Internal server error")]
  /\ db (world out) = db (Sample.world_with (Sample.row "completed" (Some (lit "a")))).
Proof.
  destruct (upload_duplicate_id Sample.good
              (Sample.world_with (Sample.row "completed" (Some (lit "a")))) 3
              Sample.png {| path := "uploads/u1.png"; originalname := "scan.png" |}
              eq_refl) as (H1 & H2 & _).
  - vm_compute. by eexists.
  - split; [exact H1|exact H2].
Defined.

(** X2.  Every upload request is answered exactly once, with 400, 202 or
    500; the handler itself never throws and touches no file; the table
    changes only when the answer is 202, and then only at the new id. *)
Theorem upload_answers_once (o : Oracle) (w : World) (res : nat)
  (req : UploadReq) :
  let out := run (exec o) (upload res req) w in
  result out = Ok tt /\
  files (world out) = files w /\
  (forall id, id <> uuid o (clock w) -> db (world out) !! id = db w !! id) /\
  exists code body,
    sent (world out) = sent w ++ [(res, code, body)] /\
    (code = 400 \/ code = 202 \/ code = 500) /\
    (code <> 202 -> db (world out) = db w /\ spawned out = []).
Proof.
  intros out. subst out. unfold upload.
  destruct (file req) as [f|]; cbn.
  - destruct (db w !! uuid o (clock w)) as [r|] eqn:Hr; cbn.
    + repeat split; try done. eexists _, _. split; [done|]. split; [auto|done].
    + split; [done|]. split; [done|]. split.
      * intros id Hid. by rewrite lookup_insert_ne.
      * eexists _, _. split; [done|]. split; [auto|done].
  - repeat split; try done. eexists _, _. split; [done|]. split; [auto|done].
Qed.

(** X3.  The closure of a job changes no row but its own, and of its own
    row it leaves the id, the file name, the language and the creation
    time as they were. *)
Theorem background_frame_rows (o : Oracle) (w : World)
  (jobId lang filePath ext : string) :
  let out := run (exec o) (background jobId lang filePath ext) w in
  (forall id, id <> jobId -> db (world out) !! id = db w !! id) /\
  (forall r, db (world out) !! jobId = Some r ->
     exists r0, db w !! jobId = Some r0 /\ row_id r = row_id r0 /\
                filename r = filename r0 /\ language r = language r0 /\
                created_at r = created_at r0).
Proof.
  intros out. subst out.
  destruct (background_run o w jobId lang filePath ext) as (_ & _ & _ & H).
  destruct (result (run (exec o) (extract jobId lang filePath ext) w)) as [x|e];
    destruct H as [Hdb _]; rewrite Hdb; split.
  - intros id Hid. by rewrite lookup_alter_ne.
  - intros r Hr. apply lookup_alter_status in Hr as [(_ & r0 & Hr0 & ->)|[? _]];
      [|done]. by exists r0.
  - intros id Hid. by rewrite lookup_alter_ne.
  - intros r Hr. apply lookup_alter_status in Hr as [(_ & r0 & Hr0 & ->)|[? _]];
      [|done]. by exists r0.
Qed.

Lemma extract_image_files (o : Oracle) (w : World) (jobId lang filePath ext : string) :
  String.eqb ext ".pdf" = false ->
  files (world (run (exec o) (extract jobId lang filePath ext) w)) = files w.
Proof.
  intros Hext. unfold extract. rewrite Hext, run_bind.
  pose proof (performOCR_files o filePath lang w) as Hf.
  destruct (result (run (exec o) (performOCR filePath lang) w)); simpl; done.
Qed.

(** X4.  The closure of a job creates, changes and deletes no file but its
    own temporary page images; in particular the uploaded file is still
    there when the closure has exited, whether the job completed or
    failed. *)
Theorem background_touches_only_temp_files (o : Oracle) (w : World)
  (jobId lang filePath ext p : string) :
  (forall k, p <> tempPath jobId k) ->
  files (world (run (exec o) (background jobId lang filePath ext) w)) !! p
  = files w !! p.
Proof.
  intros Hp.
  destruct (background_run o w jobId lang filePath ext) as (_ & Hfs & _).
  rewrite Hfs. clear Hfs.
  assert (Hout : forall i n, p ∉ temp_paths jobId i n).
  { intros i n [k [-> _]]%list_elem_of_fmap. by apply (Hp k). }
  destruct (String.eqb ext ".pdf") eqn:Hext.
  - apply String.eqb_eq in Hext as ->.
    pose proof (extract_pdf o w jobId lang filePath) as Hx. cbv zeta in Hx.
    destruct (result (run (exec o) (extract jobId lang filePath ".pdf") w))
      as [x|e].
    + destruct Hx as (ds & _ & _ & imgs & _ & _ & ->).
      rewrite lookup_foldr_delete. by rewrite decide_False.
    + destruct Hx as [[_ ->]|(imgs & k & img & _ & _ & ->)]; [done|].
      rewrite lookup_insert_ne by (intros Heq; by apply (Hp k)).
      rewrite lookup_foldr_delete. by rewrite decide_False.
  - by rewrite extract_image_files.
Qed.

Lemma background_touches_only_temp_files_witness :
  files (world (run (exec (Sample.failing "boom"))
                  (background "j1" "eng" "uploads/u3.pdf" ".pdf")
                  (set_files (insert "uploads/u3.pdf" [Byte.x25])
                     (Sample.world_with (Sample.row "processing" None)))))
    !! "uploads/u3.pdf"
  = Some [Byte.x25].
Proof.
  rewrite (background_touches_only_temp_files (Sample.failing "boom")
             (set_files (insert "uploads/u3.pdf" [Byte.x25])
                (Sample.world_with (Sample.row "processing" None)))
             "j1" "eng" "uploads/u3.pdf" ".pdf" "uploads/u3.pdf").
  - reflexivity.
  - intros k Hk. unfold tempPath in Hk. simpl in Hk. discriminate Hk.
Defined.

Lemma no_response_performOCR (filePath lang : string) :
  only_calls (fun X c => responds c = false) (performOCR filePath lang).
Proof.
  unfold performOCR. apply only_calls_bind; [by apply only_calls_call|].
  intros wk. apply only_calls_bind; [by apply only_calls_call|]. intros d.
  apply only_calls_bind; [by apply only_calls_call|]. done.
Qed.

Lemma no_response_pdf_pages (jobId lang : string) (imgs : list Bytes) :
  forall i txt js,
    only_calls (fun X c => responds c = false) (pdf_pages jobId lang i imgs txt js).
Proof.
  induction imgs as [|img rest IH]; intros i txt js; [done|].
  rewrite pdf_pages_cons.
  apply only_calls_bind; [by apply only_calls_call|]. intros _.
  apply only_calls_bind; [apply no_response_performOCR|]. intros d.
  apply only_calls_bind; [by apply only_calls_call|]. intros _. apply IH.
Qed.

Lemma no_response_background (jobId lang filePath ext : string) :
  only_calls (fun X c => responds c = false) (background jobId lang filePath ext).
Proof.
  unfold background. apply only_calls_try_catch.
  - apply only_calls_bind; [|intros r; by apply only_calls_call].
    unfold extract. destruct (String.eqb ext ".pdf").
    + apply only_calls_bind; [by apply only_calls_call|]. intros imgs.
      apply no_response_pdf_pages.
    + apply only_calls_bind; [apply no_response_performOCR|]. done.
  - intros e. apply only_calls_bind; [by apply only_calls_call|]. intros _.
    by apply only_calls_call.
Qed.

Lemma quiet_spawns_nothing (o : Oracle) {A} (p : Prog Call A) (w : World) :
  quiet p -> spawned (run (exec o) p w) = [].
Proof.
  revert w. induction p as [A a|A e|A X c k IH|A child _ k _];
    intros w Hp; simpl; try done.
  destruct Hp as [_ Hk]. destruct (exec o X c w). simpl. by apply IH.
Qed.

(** X5.  The closure of a job never answers a request: whatever happens,
    the responses sent are those sent before it ran, and it ends without
    throwing. *)
Theorem background_sends_nothing (o : Oracle) (w : World)
  (jobId lang filePath ext : string) :
  let out := run (exec o) (background jobId lang filePath ext) w in
  sent (world out) = sent w /\ result out = Ok tt /\ spawned out = [] /\
  Forall (fun e => responds (projT2 e).1 = false) (calls out).
Proof.
  intros out. subst out. split; [|split; [|split]].
  - apply (run_frame (exec o) (fun X c => responds c = false) sent);
      [|apply no_response_background].
    intros X c w' Hc. destruct c; try discriminate; simpl;
      repeat case_match; reflexivity.
  - apply background_run.
  - unfold background. rewrite run_try_catch, run_bind.
    pose proof (quiet_spawns_nothing o _ w (quiet_extract jobId lang filePath ext))
      as Hsp.
    destruct (result (run (exec o) (extract jobId lang filePath ext) w));
      cbn; by rewrite Hsp.
  - apply (run_calls_only (exec o) (fun X c => responds c = false)),
      no_response_background.
Qed.

End JobExtras.

Section JobExtras2.

Import Js JobApi.

(** X6.  A completed PDF job holds exactly one entry per image the page
    renderer returned. *)
Theorem completed_pdf_job_has_one_entry_per_page (o : Oracle) (w : World)
  (jobId lang filePath : string) (imgs : list Bytes) (r : Row) :
  convert o (clock w) filePath = Ok imgs ->
  db (world (run (exec o) (background jobId lang filePath ".pdf") w)) !! jobId
    = Some r ->
  status r = "completed" ->
  exists entries, result_json r = Some entries /\ length entries = length imgs.
Proof.
  intros Hconv Hr Hst.
  destruct (background_row o w jobId lang filePath ".pdf" r Hr) as (r0 & t & _ & H).
  pose proof (extract_pdf o w jobId lang filePath) as Hx. cbv zeta in Hx.
  destruct (result (run (exec o) (extract jobId lang filePath ".pdf") w))
    as [x|e].
  - destruct Hx as (ds & _ & Hjs & imgs' & Hc & Hlen & _).
    rewrite Hconv in Hc. injection Hc as <-. subst r. simpl.
    eexists. split; [done|]. by rewrite Hjs, length_imap.
  - destruct H as [-> _]. discriminate Hst.
Qed.

Lemma completed_pdf_job_has_one_entry_per_page_witness :
  exists entries,
    result_json (with_result "completed"
                   (lit "a" ++ page_break ++ lit "b" ++ page_break)
                   [{| page := Some 1; data := Sample.page_a |};
                    {| page := Some 2; data := Sample.page_b |}] 11
                   (Sample.row "processing" None)) = Some entries
    /\ length entries = 2.
Proof.
  apply (completed_pdf_job_has_one_entry_per_page Sample.good
           (Sample.world_with (Sample.row "processing" None))
           "j1" "eng" "uploads/u3.pdf" [[Byte.x01]; [Byte.x02]]);
    vm_compute; reflexivity.
Defined.

(** X7.  A PDF that the renderer turns into no image at all completes: the
    stored text is empty, there is no entry, and no file is written. *)
Theorem empty_pdf_job_completes (o : Oracle) (w : World)
  (jobId lang filePath : string) (r0 : Row) :
  convert o (clock w) filePath = Ok [] ->
  db w !! jobId = Some r0 ->
  let out := run (exec o) (background jobId lang filePath ".pdf") w in
  db (world out) !! jobId
    = Some (with_result "completed" [] [] (S (clock w)) r0)
  /\ files (world out) = files w.
Proof.
  intros Hconv Hr0 out. subst out. unfold background, extract. cbn.
  rewrite Hconv. cbn. by rewrite lookup_alter_eq, Hr0.
Qed.

Lemma empty_pdf_job_completes_witness :
  let o := {| uuid := uuid Sample.good; convert := fun _ _ => Ok [];
              createWorker := createWorker Sample.good;
              recognize := recognize Sample.good;
              terminate := terminate Sample.good |} in
  db (world (run (exec o) (background "j1" "eng" "uploads/u3.pdf" ".pdf")
               (Sample.world_with (Sample.row "processing" None)))) !! "j1"
  = Some (with_result "completed" [] [] 1 (Sample.row "processing" None)).
Proof.
  intros o.
  apply (empty_pdf_job_completes o
           (Sample.world_with (Sample.row "processing" None))
           "j1" "eng" "uploads/u3.pdf" (Sample.row "processing" None));
    reflexivity.
Defined.

(** X8.  [performOCR] terminates the worker only after a successful
    recognition: when [recognize] throws, the error is passed on and the
    worker created for the call is never terminated. *)
Theorem performOCR_leaks_worker_on_failure (o : Oracle) (w : World)
  (filePath lang : string) (wk : Worker) (e : Error) :
  createWorker o (clock w) lang = Ok wk ->
  recognize o (S (clock w)) wk filePath = Err e ->
  let out := run (exec o) (performOCR filePath lang) w in
  result out = Err e /\
  calls out = [ev (CreateWorker lang) (Ok wk); ev (Recognize wk filePath) (Err e)].
Proof.
  intros Hc Hr out. subst out. unfold performOCR. cbn. rewrite Hc. cbn.
  rewrite Hr. by cbn.
Qed.

Lemma performOCR_leaks_worker_on_failure_witness :
  calls (run (exec (Sample.failing "boom")) (performOCR "uploads/u1.png" "eng")
           Sample.w0)
  = [ev (CreateWorker "eng") (Ok 0);
     ev (Recognize 0 "uploads/u1.png") (Err "boom")].
Proof.
  apply (performOCR_leaks_worker_on_failure (Sample.failing "boom") Sample.w0
           "uploads/u1.png" "eng" 0 "boom"); reflexivity.
Defined.

Lemma replace_all_length (c r : N) (s : jstring) :
  length (replace_all c [r] s) = length s.
Proof. by rewrite replace_all_map, length_fmap. Qed.

(** X9.  The [alt_text] of a result is at most 203 code units long and,
    the stored text being cut before the ellipsis is added, holds no line
    feed; for a text of at most 200 code units without line feed it is the
    text itself. *)
Theorem alt_text_is_short_and_on_one_line (t : jstring) (lang : string) :
  length (alt_text (accessibility_of t lang)) <= 203
  /\ (LF ∉ alt_text (accessibility_of t lang))
  /\ (length t <= 200 -> (LF ∉ t) -> alt_text (accessibility_of t lang) = t).
Proof.
  unfold accessibility_of. simpl alt_text.
  rewrite substring_prefix, replace_all_map. split; [|split].
  - rewrite length_app, length_fmap, length_take.
    assert (Htail : length (if (200 <? length t)%nat then lit "..."
                            else lit EmptyString) <= 3).
    { destruct (200 <? length t)%nat; apply Nat.leb_le; reflexivity. }
    lia.
  - intros [Hin|Hin]%elem_of_app.
    + apply list_elem_of_fmap in Hin as (x & Hx & _).
      destruct (x =? LF)%N eqn:Hxc; [discriminate Hx|].
      apply N.eqb_neq in Hxc. by destruct Hxc.
    + destruct (200 <? length t)%nat; vm_compute in Hin;
        repeat (apply elem_of_cons in Hin as [Hin|Hin]; [discriminate Hin|]);
        by apply elem_of_nil in Hin.
  - intros Hlen Hlf. apply Nat.ltb_ge in Hlen. rewrite Hlen.
    rewrite take_ge by (by apply Nat.ltb_ge in Hlen). simpl. rewrite app_nil_r.
    clear Hlen. induction t as [|x t IH]; [done|]. simpl.
    destruct (x =? LF)%N eqn:Hx.
    + apply N.eqb_eq in Hx as ->. destruct Hlf. apply elem_of_cons; auto.
    + f_equal. apply IH. intros Hin. apply Hlf, elem_of_cons; auto.
Qed.

Lemma alt_text_is_short_and_on_one_line_witness :
  alt_text (accessibility_of (lit "hi") "eng") = lit "hi".
Proof.
  apply (alt_text_is_short_and_on_one_line (lit "hi") "eng").
  - vm_compute. lia.
  - apply (bool_decide_unpack _). vm_compute. exact I.
Defined.

End JobExtras2.

Section JobExtras3.

Import Js JobApi.

(** X10.  Round trip for an image: after a submission has been accepted,
    once the closure it detached has run with a recognizer that returned
    [d], the result route answers 200 with the submitted file name and
    language, the text of [d] and [d] itself as only entry. *)
Theorem upload_then_result (o1 o2 o3 : Oracle) (w : World) (res res' : nat)
  (req : UploadReq) (f : File) (d : OcrData) :
  file req = Some f ->
  db w !! uuid o1 (clock w) = None ->
  Path.toLowerCase (Path.extname (originalname f)) <> ".pdf" ->
  let jobId := uuid o1 (clock w) in
  let out1 := run (exec o1) (upload res req) w in
  result (run (exec o2) (performOCR (path f) (language_of req)) (world out1))
    = Ok d ->
  forall task, spawned out1 = [task] ->
  let out2 := run (exec o2) task (world out1) in
  sent (world (run (exec o3) (get_result res' jobId) (world out2))) =
    sent (world out2) ++
      [(res', 200,
        BResult jobId (originalname f) (language_of req) (text d)
          (Some [{| page := None; data := d |}])
          (accessibility_of (text d) (language_of req)))].
Proof.
  intros Hf Hfresh Hext jobId out1 Hocr task Htask out2.
  destruct (upload_file_run o1 w res req f Hf Hfresh)
    as (_ & Hdb & _ & _ & _ & Hsp).
  cbv zeta in Hdb, Hsp. fold jobId out1 in Hdb, Hsp.
  rewrite Hsp in Htask. injection Htask as <-.
  apply String.eqb_neq in Hext.
  destruct (background_run o2 (world out1) jobId (language_of req) (path f)
              (Path.toLowerCase (Path.extname (originalname f))))
    as (_ & _ & _ & H).
  fold out2 in H. unfold extract in H. rewrite Hext, run_bind, Hocr in H.
  cbn [then_run result world calls fst snd] in H. destruct H as [Hdb2 _].
  destruct (get_result_cases o3 (world out2) res' jobId) as (_ & _ & H200 & _).
  assert (Hjob : exists t,
    db (world out2) !! jobId =
      Some (with_result "completed" (text d) [{| page := None; data := d |}] t
              (new_row jobId (originalname f) "processing" (language_of req)
                 (S (clock w))))).
  { eexists. rewrite Hdb2, Hdb, lookup_alter_eq, lookup_insert_eq. reflexivity. }
  destruct Hjob as [t Hjob].
  exact (H200 _ (text d) Hjob eq_refl eq_refl).
Qed.

Lemma upload_then_result_witness :
  let out1 := run (exec Sample.good) (upload 0 Sample.png) Sample.w0 in
  let out2 :=
    run (exec Sample.good) (background "j1" "eng" "uploads/u1.png" ".png")
      (world out1) in
  sent (world (run (exec Sample.good) (get_result 1 "j1") (world out2))) =
    sent (world out2) ++
      [(1, 200,
        BResult "j1" "scan.png" "eng" (lit "a")
          (Some [{| page := None; data := Sample.page_a |}])
          (accessibility_of (lit "a") "eng"))].
Proof.
  intros out1.
  apply (upload_then_result Sample.good Sample.good Sample.good Sample.w0 0 1
           Sample.png {| path := "uploads/u1.png"; originalname := "scan.png" |}
           Sample.page_a eq_refl eq_refl).
  - vm_compute. discriminate.
  - vm_compute. reflexivity.
  - reflexivity.
Defined.

(** X11.  The failure path: after a submission has been accepted, once the
    closure it detached has run and its extraction has thrown, the status
    route reports [failed] and the result route answers 400. *)
Theorem upload_then_failure (o1 o2 o3 : Oracle) (w : World) (res res' : nat)
  (req : UploadReq) (f : File) (e : Error) :
  file req = Some f ->
  db w !! uuid o1 (clock w) = None ->
  let jobId := uuid o1 (clock w) in
  let out1 := run (exec o1) (upload res req) w in
  result (run (exec o2)
            (extract jobId (language_of req) (path f)
               (Path.toLowerCase (Path.extname (originalname f))))
            (world out1)) = Err e ->
  forall task, spawned out1 = [task] ->
  let out2 := run (exec o2) task (world out1) in
  (exists t t',
     sent (world (run (exec o3) (get_status res' jobId) (world out2))) =
       sent (world out2) ++ [(res', 200, BStatus jobId "failed" t t')]) /\
  sent (world (run (exec o3) (get_result res' jobId) (world out2))) =
    sent (world out2) ++ [(res', 400, BError "Job not completed yet")].
Proof.
  intros Hf Hfresh jobId out1 Hx task Htask out2.
  destruct (upload_file_run o1 w res req f Hf Hfresh)
    as (_ & Hdb & _ & _ & _ & Hsp).
  cbv zeta in Hdb, Hsp. fold jobId out1 in Hdb, Hsp.
  rewrite Hsp in Htask. injection Htask as <-.
  destruct (background_run o2 (world out1) jobId (language_of req) (path f)
              (Path.toLowerCase (Path.extname (originalname f))))
    as (_ & _ & _ & H).
  fold out2 in H. rewrite Hx in H. destruct H as [Hdb2 _].
  assert (Hrow : exists r, db (world out2) !! jobId = Some r /\
                           status r = "failed" /\ row_id r = jobId).
  { eexists. rewrite Hdb2, Hdb, lookup_alter_eq, lookup_insert_eq.
    split; [reflexivity|]. by split. }
  destruct Hrow as (r & Hr & Hst & Hid). split.
  - unfold get_status. cbn. rewrite Hr. cbn. rewrite Hst, Hid. by eexists _, _.
  - destruct (get_result_cases o3 (world out2) res' jobId) as (_ & H400 & _).
    apply (H400 r Hr). by rewrite Hst.
Qed.

Lemma upload_then_failure_witness :
  let out1 := run (exec Sample.good) (upload 0 Sample.pdf) Sample.w0 in
  let out2 :=
    run (exec (Sample.failing "boom"))
      (background "j1" "eng" "uploads/u3.pdf" ".pdf") (world out1) in
  sent (world (run (exec Sample.good) (get_result 1 "j1") (world out2))) =
    sent (world out2) ++ [(1, 400, BError "Job not completed yet")].
Proof.
  intros out1.
  apply (upload_then_failure Sample.good (Sample.failing "boom") Sample.good
           Sample.w0 0 1 Sample.pdf
           {| path := "uploads/u3.pdf"; originalname := "paper.pdf" |}
           "boom" eq_refl eq_refl); [|reflexivity].
  vm_compute. reflexivity.
Defined.

(** What a call does to the rows that exist: they stay, with the columns
    set at submission. *)
Lemma exec_keeps_rows (o : Oracle) X (c : Call X) (w : World) (id : string)
  (r : Row) :
  db w !! id = Some r ->
  exists r', db (exec o X c w).2 !! id = Some r' /\ same_job r r'.
Proof.
  intros Hr.
  assert (Hsame : same_job r r) by (by repeat split).
  destruct c; simpl; repeat case_match; simpl; try (by exists r).
  - exists r. split; [|done]. rewrite lookup_insert_ne; [done|]. congruence.
  - destruct (decide (id = id0)) as [->|Hne].
    + rewrite lookup_alter_eq, Hr. simpl. eexists. split; [done|].
      by repeat split.
    + rewrite lookup_alter_ne by done. by exists r.
  - destruct (decide (id = id0)) as [->|Hne].
    + rewrite lookup_alter_eq, Hr. simpl. eexists. split; [done|].
      by repeat split.
    + rewrite lookup_alter_ne by done. by exists r.
Qed.

Lemma step_keeps_rows (s s' : Sys) (id : string) (r : Row) :
  step s s' -> db (sys_world s) !! id = Some r ->
  exists r', db (sys_world s') !! id = Some r' /\ same_job r r'.
Proof.
  intros [w ts rq|w ts i X c k o Hi|w ts i child k Hi] Hr; simpl in *.
  - exists r. split; [done|]. by repeat split.
  - by apply exec_keeps_rows.
  - exists r. split; [done|]. by repeat split.
Qed.

(** X12.  Rows are never deleted, and the columns set at submission never
    change: a row seen in any state of a trace is still there in every
    later state, with the same id, file name, language and creation
    time. *)
Theorem rows_are_kept (s0 : Sys) (tr : list Sys) (s : Sys) :
  trace_from s0 tr s ->
  forall s1 id r1,
    s1 ∈ tr -> db (sys_world s1) !! id = Some r1 ->
    exists r, db (sys_world s) !! id = Some r /\ same_job r1 r.
Proof.
  induction 1 as [|tr s s' _ IH Hstep]; intros s1 id r1 Hin Hr1.
  - apply list_elem_of_singleton in Hin as ->. exists r1.
    split; [done|]. by repeat split.
  - apply elem_of_app in Hin as [Hin|Hin].
    + destruct (IH s1 id r1 Hin Hr1) as (r & Hr & Hsame).
      destruct (step_keeps_rows s s' id r Hstep Hr) as (r' & Hr' & Hsame').
      exists r'. split; [done|].
      destruct Hsame as (? & ? & ? & ?), Hsame' as (? & ? & ? & ?).
      repeat split; congruence.
    + apply list_elem_of_singleton in Hin as ->. exists r1.
      split; [done|]. by repeat split.
Qed.

End JobExtras3.

Section JobExtras4.

Import Js JobApi.

Lemma rows_are_kept_witness :
  exists r,
    db (sys_world (final Sample.schedule (boot ∅))) !! "j1" = Some r
    /\ same_job (new_row "j1" "scan.png" "processing" "eng" 1) r.
Proof.
  apply (rows_are_kept (boot ∅) ([boot ∅] ++ play Sample.schedule (boot ∅))
           (final Sample.schedule (boot ∅))
           (play_trace (boot ∅) Sample.schedule _ _ (trace_start (boot ∅)))
           (final (take 3 Sample.schedule) (boot ∅)) "j1").
  - apply list_elem_of_lookup. exists 3. vm_compute. reflexivity.
  - vm_compute. reflexivity.
Defined.

(** Every key of the table is the id stored in its row. *)
Lemma exec_keys_are_ids (o : Oracle) X (c : Call X) (w : World) :
  map_Forall (fun id r => row_id r = id) (db w) ->
  map_Forall (fun id r => row_id r = id) (db (exec o X c w).2).
Proof.
  intros Hw.
  destruct c; simpl; repeat case_match; simpl; try done.
  - by apply map_Forall_insert_2.
  - intros id' r Hr. apply lookup_alter_status in Hr as [(-> & r0 & Hr0 & ->)|[_ Hr]];
      [|by apply Hw]. simpl. by apply Hw.
  - intros id' r Hr. apply lookup_alter_status in Hr as [(-> & r0 & Hr0 & ->)|[_ Hr]];
      [|by apply Hw]. simpl. by apply Hw.
Qed.

Lemma trace_keys_are_ids (fs : gmap string Bytes) (tr : list Sys) (s : Sys) :
  trace_from (boot fs) tr s ->
  map_Forall (fun id r => row_id r = id) (db (sys_world s)).
Proof.
  induction 1 as [|tr s s' _ IH Hstep]; [done|].
  destruct Hstep as [w ts rq|w ts i X c k o Hi|w ts i child k Hi]; simpl in *;
    try done.
  by apply exec_keys_are_ids.
Qed.

(** X13.  In every state the server can reach, the status route answers
    404 for an unknown id and otherwise 200 with the requested id and a
    status that is [processing], [completed] or [failed]; it changes
    nothing in the table. *)
Theorem get_status_on_server (fs : gmap string Bytes) (tr : list Sys) (s : Sys)
  (o : Oracle) (res : nat) (id : string) :
  trace_from (boot fs) tr s ->
  let out := run (exec o) (get_status res id) (sys_world s) in
  db (world out) = db (sys_world s) /\
  match db (sys_world s) !! id with
  | None =>
      sent (world out) =
        sent (sys_world s) ++ [(res, 404, BError "Job not found")]
  | Some job =>
      (status job = "processing" \/ status job = "completed"
       \/ status job = "failed") /\
      sent (world out) =
        sent (sys_world s) ++
          [(res, 200, BStatus id (status job) (created_at job) (updated_at job))]
  end.
Proof.
  intros Htr out. subst out. unfold get_status. cbn.
  destruct (db (sys_world s) !! id) as [job|] eqn:Hjob; cbn; [|done].
  split; [done|].
  destruct (completed_rows_have_text fs tr s id job Htr Hjob) as [Hst _].
  split; [done|]. by rewrite (trace_keys_are_ids fs tr s Htr id job Hjob).
Qed.

Lemma get_status_on_server_witness :
  let s := final Sample.schedule (boot ∅) in
  let out := run (exec Sample.good) (get_status 9 "j1") (sys_world s) in
  db (world out) = db (sys_world s) /\
  match db (sys_world s) !! "j1" with
  | None =>
      sent (world out) =
        sent (sys_world s) ++ [(9, 404, BError "Job not found")]
  | Some job =>
      (status job = "processing" \/ status job = "completed"
       \/ status job = "failed") /\
      sent (world out) =
        sent (sys_world s) ++
          [(9, 200, BStatus "j1" (status job) (created_at job) (updated_at job))]
  end.
Proof.
  exact (get_status_on_server ∅ _ (final Sample.schedule (boot ∅))
           Sample.good 9 "j1"
           (play_trace (boot ∅) Sample.schedule _ _ (trace_start (boot ∅)))).
Defined.

End JobExtras4.

(** * More about the [/pdf] route *)

Section PdfExtras.

Import Js Visionless.

Variable UPLOAD_DIR : string.

(** The run of the handler, by the way its three parts end. *)
Lemma pdf_run_split (o : Oracle) (w : World) (res : nat) (req : Req) :
  let out := run (exec o) (pdf UPLOAD_DIR res req) w in
  let og := run (exec o) (getFileFromReq UPLOAD_DIR req) w in
  match result og with
  | Err e => out = then_run og (run (exec o) (pdf_catch res e) (world og))
  | Ok f =>
      let ox := run (exec o) (pdf_extract UPLOAD_DIR req f) (world og) in
      match result ox with
      | Err e =>
          out = then_run (then_run og ox)
                  (run (exec o) (pdf_catch res e) (world ox))
      | Ok out0 =>
          out = then_run (then_run og ox)
                  (run (exec o) (pdf_reply res f out0) (world ox))
      end
  end.
Proof.
  intros out og. subst out. unfold pdf. rewrite run_try_catch, run_bind.
  fold og. destruct (result og) as [f|e] eqn:Hg.
  - cbv zeta. rewrite run_bind.
    set (ox := run (exec o) (pdf_extract UPLOAD_DIR req f) (world og)).
    destruct (result ox) as [out0|e] eqn:Hx.
    + destruct (pdf_reply_run o (world ox) res f out0) as (Hok & _).
      cbn [then_run result]. rewrite Hok.
      unfold then_run. cbn [result world calls spawned].
      f_equal; apply (assoc_L (++)).
    + cbn [then_run rethrow result world calls spawned]. unfold pdf_catch.
      unfold then_run. cbn [result world calls spawned].
      f_equal; apply (assoc_L (++)).
  - cbn [then_run rethrow result world calls spawned]. done.
Qed.

Lemma exec_sent (o : Oracle) X (c : Call X) (w : World) :
  responds c = false -> sent (exec o X c w).2 = sent w.
Proof.
  destruct c; try discriminate; intros _; simpl; repeat case_match; reflexivity.
Qed.

Lemma exec_files (o : Oracle) X (c : Call X) (w : World) :
  writes_file c = false -> files (exec o X c w).2 = files w.
Proof.
  destruct c; try discriminate; intros _; simpl; repeat case_match; reflexivity.
Qed.

Lemma render_lookup_ne (content : string -> Bytes) (imgs : list string)
  (fs : gmap string Bytes) (p : string) :
  p ∉ imgs -> render content imgs fs !! p = fs !! p.
Proof.
  induction imgs as [|i imgs IH]; [done|]. intros Hp. simpl.
  apply not_elem_of_cons in Hp as [Hne Hp].
  rewrite lookup_insert_ne by done. by apply IH.
Qed.

Lemma render_lookup (content : string -> Bytes) (imgs : list string)
  (fs : gmap string Bytes) (p : string) :
  p ∈ imgs -> render content imgs fs !! p = Some (content p).
Proof.
  induction imgs as [|i imgs IH]; [by intros ?%elem_of_nil|]. intros Hp. simpl.
  destruct (decide (p = i)) as [->|Hne]; [by rewrite lookup_insert_eq|].
  rewrite lookup_insert_ne by done. apply IH.
  by apply elem_of_cons in Hp as [?|?].
Qed.

(** A path that is not among those of the wrappers holds after a call of
    a wrapper what it held before. *)
Lemma exec_files_at (o : Oracle) X (c : Call X) (w : World) (p : string) :
  downloads_or_unlinks c = false ->
  p ∉ wrapper_paths_of (ev c (exec o X c w).1) ->
  files (exec o X c w).2 !! p = files w !! p.
Proof.
  destruct c; try discriminate; intros _; simpl; try done.
  - by case_match.
  - destruct (pdfToImages o (clock w) _ _ _) as [imgs|e];
      simpl; [|done].
    apply render_lookup_ne.
  - intros Hp. apply not_elem_of_cons in Hp as [Hne _].
    destruct (ocr_output o (clock w) _ _) as [[content|]|]; simpl.
    + by rewrite lookup_insert_ne.
    + by rewrite lookup_delete_ne.
    + done.
Qed.

Lemma wrapper_paths_app (l1 l2 : list (Event Call)) :
  wrapper_paths (l1 ++ l2) = wrapper_paths l1 ++ wrapper_paths l2.
Proof. unfold wrapper_paths. by rewrite fmap_app, concat_app. Qed.

(** The same for a program that makes no download and no unlink call. *)
Lemma run_files_at (o : Oracle) {A} (prog : Prog Call A) (w : World)
  (p : string) :
  only_calls (fun X c => downloads_or_unlinks c = false) prog ->
  p ∉ wrapper_paths (calls (run (exec o) prog w)) ->
  files (world (run (exec o) prog w)) !! p = files w !! p.
Proof.
  revert w. induction prog as [A a|A e|A X c k IH|A child _ k IH];
    intros w Hc Hp; simpl in *; try done.
  - destruct Hc as [Hc Hk].
    pose proof (exec_files_at o X c w p Hc) as Hx.
    destruct (exec o X c w) as [r w']. simpl in *.
    change (p ∉ wrapper_paths ([ev c r] ++ calls (run (exec o) (k r) w'))) in Hp.
    rewrite wrapper_paths_app in Hp. apply not_elem_of_app in Hp as [Hp1 Hp2].
    rewrite IH by done. apply Hx.
    unfold wrapper_paths in Hp1. simpl in Hp1. by rewrite app_nil_r in Hp1.
  - destruct Hc as [_ Hk]. by apply IH.
Qed.

Lemma ocr_pages_only (P : forall X, Call X -> Prop) (req : Req)
  (imgs : list string) :
  (forall p, P _ (AnalyzeImage p)) -> (forall p l, P _ (OcrImage p l)) ->
  forall i acc, only_calls P (ocr_pages req i imgs acc).
Proof.
  intros Ha Ho. induction imgs as [|p rest IH]; intros i acc; [done|].
  simpl. split; [apply Ha|]. intros [m|e]; simpl; [|done].
  split; [apply Ho|]. intros [x|e]; simpl; [|done]. apply IH.
Qed.

Lemma pdf_extract_only (P : forall X, Call X -> Prop) (req : Req) (f : Source) :
  (forall p, P _ (ReadFileSync p)) -> (forall b, P _ (PdfParse b)) ->
  P _ Uuidv4 -> (forall a b c, P _ (PdfToImages a b c)) ->
  (forall p, P _ (AnalyzeImage p)) -> (forall p l, P _ (OcrImage p l)) ->
  only_calls P (pdf_extract UPLOAD_DIR req f).
Proof.
  intros Hr Hp Hu Hi Ha Ho. unfold pdf_extract.
  apply only_calls_bind; [by apply only_calls_call|]. intros buffer.
  apply only_calls_bind; [by apply only_calls_call|]. intros parsed.
  destruct (text_layer parsed); [done|].
  apply only_calls_bind; [by apply only_calls_call|]. intros id.
  apply only_calls_bind; [by apply only_calls_call|]. intros imgs.
  apply only_calls_bind; [by apply ocr_pages_only|]. done.
Qed.

(** What the three parts of the handler do to the responses and to the
    files. *)
Lemma pdf_extract_frame (o : Oracle) (w : World) (req : Req) (f : Source) :
  let ox := run (exec o) (pdf_extract UPLOAD_DIR req f) w in
  sent (world ox) = sent w /\
  forall p, p ∉ wrapper_paths (calls ox) -> files (world ox) !! p = files w !! p.
Proof.
  split.
  - apply (run_frame (exec o) (fun X c => responds c = false) sent);
      [apply exec_sent|]. by apply pdf_extract_only.
  - intros p. apply run_files_at. by apply pdf_extract_only.
Qed.

Lemma getFileFromReq_run (o : Oracle) (w : World) (req : Req) :
  let og := run (exec o) (getFileFromReq UPLOAD_DIR req) w in
  sent (world og) = sent w /\
  match file req with
  | Some u =>
      result og = Ok {| src_path := path u; src_originalname := originalname u;
                        cleanup := false |}
      /\ files (world og) = files w /\ calls og = []
  | None =>
      match result og with
      | Ok f =>
          cleanup f = true /\
          exists content,
            files (world og) = <[src_path f := content]> (files w) /\
            ev (DownloadToFile (src_originalname f) (src_path f))
              (Ok (src_path f)) ∈ calls og
      | Err e =>
          (files (world og) = files w
           \/ exists u d content,
                files (world og) = <[d := content]> (files w)
                /\ ev (DownloadToFile u d) (Err e) ∈ calls og) /\
          Forall (fun c => forall u d r,
                    c = ev (DownloadToFile u d) r -> exists e', r = Err e')
            (calls og)
      end
  end /\
  wrapper_paths (calls og) = [].
Proof.
  unfold getFileFromReq. destruct (file req) as [u|]; [done|].
  destruct (truthy_string (url_of req)); simpl negb; cbv iota;
    [|split; [done|]; split; [|done]; split; [by left|constructor]].
  cbn. destruct (urlExtname o (clock w) _) as [ext|e]; cbn.
  - destruct (download o _ _ _) as [content|e] eqn:Hd; cbn.
    + split; [done|]. split; [|done]. split; [done|]. exists content.
      split; [done|].
      apply elem_of_cons. right. apply elem_of_cons. right.
      apply elem_of_cons. by left.
    + split; [done|]. split; [|done]. split.
      * right. eexists _, _, _. split; [done|].
        apply elem_of_cons. right. apply elem_of_cons. right.
        apply elem_of_cons. by left.
      * repeat constructor; try (intros; discriminate).
        intros u d r Heq. inversion Heq. eauto.
  - split; [done|]. split; [|done]. split; [by left|].
    repeat constructor. intros; discriminate.
Qed.

Lemma pdf_reply_files (o : Oracle) (w : World) (res : nat) (f : Source) (out0 : Out) :
  files (world (run (exec o) (pdf_reply res f out0) w)) =
    if cleanup f then delete (src_path f) (files w) else files w.
Proof.
  unfold pdf_reply, llmSummarize. cbn.
  destruct (g4f o (clock w) _) as [s|e]; cbn;
    destruct (cleanup f); cbn; try done;
    destruct (files w !! src_path f) eqn:Hf; cbn; try done;
    by rewrite delete_id.
Qed.

Lemma pdf_catch_files (o : Oracle) (w : World) (res : nat) (e : Error) :
  files (world (run (exec o) (pdf_catch res e) w)) = files w
  /\ sent (world (run (exec o) (pdf_catch res e) w)) = sent w ++ [(res, 400, BFail e)]
  /\ result (run (exec o) (pdf_catch res e) w) = Ok tt.
Proof. by cbn. Qed.

Lemma pdf_reply_paths (o : Oracle) (w : World) (res : nat) (f : Source)
  (out0 : Out) :
  wrapper_paths (calls (run (exec o) (pdf_reply res f out0) w)) = [].
Proof.
  unfold pdf_reply, llmSummarize. cbn.
  destruct (g4f o (clock w) _) as [s|e]; cbn;
    destruct (cleanup f); cbn; try done;
    by destruct (files w !! src_path f).
Qed.

End PdfExtras.

Section PdfTheorems.

Import Js Visionless.

(** X14.  A request to [/pdf] with neither an uploaded file nor a url is
    answered 400 with the message of the error thrown by
    [getFileFromReq]; nothing is downloaded, read or parsed, and no file
    is touched. *)
Theorem pdf_without_file_or_url (UPLOAD_DIR : string) (o : Oracle) (w : World)
  (res : nat) (req : Req) :
  file req = None ->
  truthy_string (url_of req) = false ->
  let out := run (exec o) (pdf UPLOAD_DIR res req) w in
  sent (world out) = sent w ++ [(res, 400, BFail no_file_message)]
  /\ files (world out) = files w
  /\ calls out =
       [ev (ConsoleError EmptyString no_file_message) (Ok tt);
        ev (Respond res 400 (BFail no_file_message)) (Ok tt)].
Proof.
  intros Hf Hu out. subst out. unfold pdf, getFileFromReq.
  rewrite Hf, Hu. by cbn.
Qed.

Lemma pdf_without_file_or_url_witness :
  sent (world (run (exec (Sample.layered Sample.letters))
                 (pdf "/srv/uploads" 4
                    {| file := None; query := {| url := None; lang := None |};
                       body := Some {| url := Some EmptyString; lang := None |} |})
                 Sample.w0))
  = [(4, 400, BFail no_file_message)].
Proof.
  apply (pdf_without_file_or_url "/srv/uploads" (Sample.layered Sample.letters)
           Sample.w0 4); reflexivity.
Defined.

(** X15.  Every request to [/pdf] is answered exactly once, with 200 and a
    result or with 400 and an error message, and the handler never
    throws. *)
Theorem pdf_answers_once (UPLOAD_DIR : string) (o : Oracle) (w : World)
  (res : nat) (req : Req) :
  let out := run (exec o) (pdf UPLOAD_DIR res req) w in
  result out = Ok tt /\
  ((exists r, sent (world out) = sent w ++ [(res, 200, BOk r)])
   \/ (exists e, sent (world out) = sent w ++ [(res, 400, BFail e)])).
Proof.
  intros out. pose proof (pdf_run_split UPLOAD_DIR o w res req) as H.
  cbv zeta in H. fold out in H.
  destruct (getFileFromReq_run UPLOAD_DIR o w req) as (Hsg & _ & _).
  destruct (result (run (exec o) (getFileFromReq UPLOAD_DIR req) w)) as [f|e].
  - destruct (pdf_extract_frame UPLOAD_DIR o
                (world (run (exec o) (getFileFromReq UPLOAD_DIR req) w)) req f)
      as [Hsx _].
    destruct (result (run (exec o) (pdf_extract UPLOAD_DIR req f) _)) as [out0|e].
    + rewrite H. cbn [then_run result world].
      destruct (pdf_reply_run o
                  (world (run (exec o) (pdf_extract UPLOAD_DIR req f)
                     (world (run (exec o) (getFileFromReq UPLOAD_DIR req) w))))
                  res f out0) as (Hok & _ & s & Hs).
      split; [done|]. left. eexists. by rewrite Hs, Hsx, Hsg.
    + rewrite H. cbn [then_run result world].
      destruct (pdf_catch_files o
                  (world (run (exec o) (pdf_extract UPLOAD_DIR req f)
                     (world (run (exec o) (getFileFromReq UPLOAD_DIR req) w))))
                  res e) as (_ & Hs & Hok).
      split; [done|]. right. exists e. by rewrite Hs, Hsx, Hsg.
  - rewrite H. cbn [then_run result world].
    destruct (pdf_catch_files o
                (world (run (exec o) (getFileFromReq UPLOAD_DIR req) w)) res e)
      as (_ & Hs & Hok).
    split; [done|]. right. exists e. by rewrite Hs, Hsg.
Qed.

Lemma llmSummarize_run (o : Oracle) (w : World) (prompt : jstring) :
  let out := run (exec o) (llmSummarize prompt) w in
  sent (world out) = sent w /\ files (world out) = files w /\
  match g4f o (clock w) prompt with
  | Ok s => result out = Ok (Some s) /\ console (world out) = console w
  | Err e => result out = Ok None
             /\ console (world out) = console w ++ [("LLM error", e)]
  end.
Proof.
  unfold llmSummarize. cbn. by destruct (g4f o (clock w) prompt).
Qed.

(** X16.  The summarizer is not fatal: [llmSummarize] never throws, it
    returns [null] exactly when the summarizer threw, and the end of the
    [/pdf] handler then still answers 200, with [summary: null], the error
    going to the console. *)
Theorem summarizer_failure_is_not_fatal (o : Oracle) (w : World) (res : nat)
  (f : Source) (out0 : Out) (prompt : jstring) :
  (exists s, result (run (exec o) (llmSummarize prompt) w) = Ok s /\
             (s = None <-> exists e, g4f o (clock w) prompt = Err e)) /\
  (forall e, g4f o (clock w) (summarize_prompt ++ combined out0) = Err e ->
     let out := run (exec o) (pdf_reply res f out0) w in
     sent (world out) = sent w ++ [(res, 200, BOk (with_summary None out0))]
     /\ console (world out) = console w ++ [("LLM error", e)]).
Proof.
  split.
  - unfold llmSummarize. cbn. destruct (g4f o (clock w) prompt) as [s|e]; cbn.
    + eexists. split; [done|]. split; [done|]. by intros [e ?].
    + eexists. split; [done|]. split; [by eexists|done].
  - intros e He. unfold pdf_reply. rewrite run_bind.
    destruct (llmSummarize_run o w (summarize_prompt ++ combined out0))
      as (Hs & Hf & H).
    rewrite He in H. destruct H as [Hr Hc]. rewrite Hr.
    cbn [then_run result world].
    set (w1 := world (run (exec o) (llmSummarize (summarize_prompt ++ combined out0)) w)) in *.
    clearbody w1. cbn.
    destruct (cleanup f); cbn; [|by rewrite Hs, Hc].
    destruct (files w1 !! src_path f); cbn; by rewrite Hs, Hc.
Qed.

Lemma summarizer_failure_is_not_fatal_witness :
  let o := {| uuid := uuid (Sample.layered Sample.letters);
              urlExtname := urlExtname (Sample.layered Sample.letters);
              download := download (Sample.layered Sample.letters);
              pdfParse := pdfParse (Sample.layered Sample.letters);
              pdfToImages := pdfToImages (Sample.layered Sample.letters);
              analyzeImage := analyzeImage (Sample.layered Sample.letters);
              ocrImage := ocrImage (Sample.layered Sample.letters);
              g4f := fun _ _ => Err "offline";
              partial := partial (Sample.layered Sample.letters);
              page_image := page_image (Sample.layered Sample.letters);
              ocr_output := ocr_output (Sample.layered Sample.letters) |} in
  let out0 := {| out_file := "doc.pdf"; pages := []; textExtracted := true;
                 out_text := Some Sample.letters; summary := None |} in
  let f := {| src_path := "uploads/doc"; src_originalname := "doc.pdf";
              cleanup := false |} in
  sent (world (run (exec o) (pdf_reply 0 f out0) Sample.w0))
  = [(0, 200, BOk (with_summary None out0))].
Proof.
  intros o out0 f.
  destruct (summarizer_failure_is_not_fatal o Sample.w0 0 f out0 []) as [_ H].
  destruct (H "offline" eq_refl) as [Hs _]. exact Hs.
Defined.

End PdfTheorems.

Section PdfTheorems2.

Import Js Visionless.

Lemma slice_prefix_length (n : nat) (s : jstring) : length (slice 0 n s) <= n.
Proof.
  unfold slice. rewrite Nat.min_0_l, Nat.sub_0_r. simpl.
  rewrite length_take. lia.
Qed.

Lemma getFileFromReq_only (P : forall X, Call X -> Prop) (UPLOAD_DIR : string)
  (req : Req) :
  (forall u, P _ (UrlExtname u)) -> P _ Uuidv4 ->
  (forall u d, P _ (DownloadToFile u d)) ->
  only_calls P (getFileFromReq UPLOAD_DIR req).
Proof.
  intros Hu Hi Hd. unfold getFileFromReq. destruct (file req); [done|].
  destruct (negb (truthy_string (url_of req))); [done|].
  apply only_calls_bind; [by apply only_calls_call|]. intros ext.
  apply only_calls_bind; [by apply only_calls_call|]. intros id.
  apply only_calls_bind; [by apply only_calls_call|]. done.
Qed.

(** X17.  The prompt of every call to the summarizer made by the [/pdf]
    handler is the fixed instruction followed by at most 4000 code units
    of the document text. *)
Theorem pdf_prompt_is_bounded (UPLOAD_DIR : string) (o : Oracle) (w : World)
  (res : nat) (req : Req) :
  Forall (fun e => prompt_bounded (projT2 e).1)
    (calls (run (exec o) (pdf UPLOAD_DIR res req) w)).
Proof.
  apply (run_calls_only (exec o) (@prompt_bounded)).
  unfold pdf. apply only_calls_try_catch.
  - apply only_calls_bind; [by apply getFileFromReq_only|]. intros f.
    apply only_calls_bind; [by apply pdf_extract_only|]. intros out0.
    unfold pdf_reply. apply only_calls_bind.
    + unfold llmSummarize. apply only_calls_try_catch.
      * apply only_calls_bind; [|done]. apply only_calls_call.
        cbv beta iota delta [prompt_bounded]. exists (combined out0).
        split; [done|]. apply slice_prefix_length.
      * intros e. apply only_calls_bind; [by apply only_calls_call|]. done.
    + intros s. apply only_calls_bind; [|intros _; by apply only_calls_call].
      destruct (cleanup f); [|done].
      apply only_calls_try_catch; [by apply only_calls_call|done].
  - intros e. apply only_calls_bind; [by apply only_calls_call|]. intros _.
    by apply only_calls_call.
Qed.

(** The pages collected by the loop of the rasterize branch. *)
Lemma ocr_pages_run (o : Oracle) (req : Req) (imgs : list string) :
  forall i acc w ps,
    result (run (exec o) (ocr_pages req i imgs acc) w) = Ok ps ->
    page <$> ps = (page <$> acc) ++ seq (i + 1) (length imgs) /\
    image <$> ps = (image <$> acc) ++ (Path.basename <$> imgs).
Proof.
  induction imgs as [|p rest IH]; intros i acc w ps.
  - simpl. intros [= <-]. by rewrite !app_nil_r.
  - cbn. destruct (analyzeImage o (clock w) p) as [m|e]; cbn; [|done].
    destruct (ocrImage o (S (clock w)) p _) as [x|e]; cbn; [|done].
    intros Hr. apply IH in Hr as [Hp Hi]. rewrite Hp, Hi.
    rewrite !fmap_app, <- !app_assoc. simpl.
    replace (i + 1) with (S i) by lia. by replace (S i + 1) with (S (S i)) by lia.
Qed.

Lemma pdf_extract_result (UPLOAD_DIR : string) (o : Oracle) (w : World)
  (req : Req) (f : Source) (out0 : Out) :
  let ox := run (exec o) (pdf_extract UPLOAD_DIR req f) w in
  result ox = Ok out0 ->
  textExtracted out0 = false ->
  out_text out0 = None /\
  exists a b c imgs,
    ev (PdfToImages a b c) (Ok imgs) ∈ calls ox /\
    page <$> pages out0 = seq 1 (length imgs) /\
    image <$> pages out0 = Path.basename <$> imgs.
Proof.
  unfold pdf_extract. cbn.
  destruct (files w !! src_path f) as [buffer|]; cbn; [|done].
  destruct (pdfParse o (S (clock w)) buffer) as [p|e]; cbn; [|done].
  destruct (text_layer p) as [t|]; cbn; [by intros [= <-]|].
  destruct (pdfToImages o _ _ _ _) as [imgs|e] eqn:Hi; cbn; [|done].
  rewrite run_bind.
  destruct (result (run (exec o) (ocr_pages req 0 imgs []) _)) as [ps|e] eqn:Hps;
    cbn; [|done].
  intros [= <-] _. split; [done|]. eexists _, _, _, imgs. split.
  - do 3 (apply elem_of_cons; right). apply elem_of_cons. by left.
  - by apply ocr_pages_run in Hps.
Qed.

(** X18.  When [/pdf] answers with a result that was not taken from the
    text layer, the result has one page per image the renderer returned,
    numbered 1, 2, ... in the renderer's order, each naming the base name
    of its image, and it has no [text]. *)
Theorem pdf_rasterized_pages (UPLOAD_DIR : string) (o : Oracle) (w : World)
  (res : nat) (req : Req) (r : Out) :
  let out := run (exec o) (pdf UPLOAD_DIR res req) w in
  sent (world out) = sent w ++ [(res, 200, BOk r)] ->
  textExtracted r = false ->
  out_text r = None /\
  exists a b c imgs,
    ev (PdfToImages a b c) (Ok imgs) ∈ calls out /\
    page <$> pages r = seq 1 (length imgs) /\
    image <$> pages r = Path.basename <$> imgs.
Proof.
  intros out Hsent Hraster.
  pose proof (pdf_run_split UPLOAD_DIR o w res req) as H.
  cbv zeta in H. fold out in H.
  destruct (getFileFromReq_run UPLOAD_DIR o w req) as [Hsg _].
  set (og := run (exec o) (getFileFromReq UPLOAD_DIR req) w) in *.
  destruct (result og) as [f|e].
  - destruct (pdf_extract_frame UPLOAD_DIR o (world og) req f) as [Hsx _].
    pose proof (pdf_extract_result UPLOAD_DIR o (world og) req f) as Hres.
    cbv zeta in Hres.
    set (ox := run (exec o) (pdf_extract UPLOAD_DIR req f) (world og)) in *.
    destruct (result ox) as [out0|e].
    + destruct (pdf_reply_run o (world ox) res f out0) as (_ & _ & s & Hs).
      rewrite H in Hsent. cbn [then_run world] in Hsent.
      rewrite Hs, Hsx, Hsg in Hsent. apply app_inv_head in Hsent.
      injection Hsent as <-.
      destruct (Hres out0 eq_refl Hraster) as (Ht & a & b & c & imgs & Hin & Hp & Hi).
      split; [done|]. exists a, b, c, imgs. split; [|done].
      rewrite H. cbn [then_run calls]. apply elem_of_app. left.
      apply elem_of_app. by right.
    + rewrite H in Hsent. cbn [then_run world] in Hsent.
      destruct (pdf_catch_files o (world ox) res e) as (_ & Hs & _).
      rewrite Hs, Hsx, Hsg in Hsent. apply app_inv_head in Hsent.
      discriminate Hsent.
  - rewrite H in Hsent. cbn [then_run world] in Hsent.
    destruct (pdf_catch_files o (world og) res e) as (_ & Hs & _).
    rewrite Hs, Hsg in Hsent. apply app_inv_head in Hsent. discriminate Hsent.
Qed.

Lemma pdf_rasterized_pages_witness :
  let out := run (exec (Sample.layered Sample.blanks))
               (pdf "/srv/uploads" 0 Sample.req) Sample.w0 in
  let page_of n name t :=
    {| page := n; image := name; meta := Sample.some_meta;
       ocr := {| text := lit t; words := None |} |} in
  let r :=
    {| out_file := "doc.pdf";
       pages := [page_of 1 "p-1.png" "a"; page_of 2 "p-2.png" "b"];
       textExtracted := false; out_text := None;
       summary := Some (Some (lit "summary")) |} in
  out_text r = None /\
  exists a b c imgs,
    ev (PdfToImages a b c) (Ok imgs) ∈ calls out /\
    page <$> pages r = seq 1 (length imgs) /\
    image <$> pages r = Path.basename <$> imgs.
Proof.
  intros out page_of r.
  exact (pdf_rasterized_pages "/srv/uploads" (Sample.layered Sample.blanks)
           Sample.w0 0 Sample.req r eq_refl eq_refl).
Defined.




(** What the loop of the rasterize branch does to the files. *)
Lemma ocr_pages_files (o : Oracle) (req : Req) (imgs : list string) (p : string) :
  p ∉ ocr_txt <$> imgs ->
  forall i acc w,
    files (world (run (exec o) (ocr_pages req i imgs acc) w)) !! p
    = files w !! p.
Proof.
  induction imgs as [|q rest IH]; intros Hp i acc w; [done|].
  rewrite fmap_cons in Hp. apply not_elem_of_cons in Hp as [Hne Hp].
  cbn. destruct (analyzeImage o (clock w) q) as [m|e]; cbn; [|done].
  destruct (ocrImage o (S (clock w)) q _) as [x|e]; cbn.
  - rewrite IH by done.
    destruct (ocr_output o (S (clock w)) q _) as [[content|]|]; simpl;
      [by rewrite lookup_insert_ne|by rewrite lookup_delete_ne|done].
  - destruct (ocr_output o (S (clock w)) q _) as [[content|]|]; simpl;
      [by rewrite lookup_insert_ne|by rewrite lookup_delete_ne|done].
Qed.

Lemma pdf_extract_images (UPLOAD_DIR : string) (o : Oracle) (w : World)
  (req : Req) (f : Source) (out0 : Out) :
  let ox := run (exec o) (pdf_extract UPLOAD_DIR req f) w in
  result ox = Ok out0 ->
  textExtracted out0 = false ->
  exists (a b c : string) (imgs : list string),
    ev (PdfToImages a b c) (Ok imgs) ∈ calls ox /\
    image <$> pages out0 = Path.basename <$> imgs /\
    forall i, i ∈ imgs -> i ∉ ocr_txt <$> imgs ->
              is_Some (files (world ox) !! i).
Proof.
  unfold pdf_extract. cbn.
  destruct (files w !! src_path f) as [buffer|]; cbn; [|done].
  destruct (pdfParse o (S (clock w)) buffer) as [p|e]; cbn; [|done].
  destruct (text_layer p) as [t|]; cbn; [by intros [= <-]|].
  destruct (pdfToImages o _ _ _ _) as [imgs|e] eqn:Hi; cbn; [|done].
  rewrite run_bind.
  match goal with
  | |- context [run (exec o) (ocr_pages req 0 imgs []) ?w1] =>
      pose proof (fun i H => ocr_pages_files o req imgs i H 0 [] w1) as Hfs;
      destruct (result (run (exec o) (ocr_pages req 0 imgs []) w1))
        as [ps|e] eqn:Hps
  end; cbn; [|done].
  intros [= <-] _. eexists _, _, _, imgs. split; [|split].
  - do 3 (apply elem_of_cons; right). apply elem_of_cons. by left.
  - apply ocr_pages_run in Hps as [_ Himg]. exact Himg.
  - intros i Hin Hno. rewrite Hfs by done. simpl.
    rewrite render_lookup by done. by eexists.
Qed.

(** X26.  The page images are left behind: when [/pdf] answers an uploaded
    document with a result that was not taken from the text layer, every
    image [pdfToImages] listed is still on disk after the response, the
    handler having removed none (an image that is itself the recognizer
    output file of a listed image is set aside). *)
Theorem pdf_leaves_page_images (UPLOAD_DIR : string) (o : Oracle) (w : World)
  (res : nat) (req : Req) (u : Upload) (r : Out) :
  file req = Some u ->
  let out := run (exec o) (pdf UPLOAD_DIR res req) w in
  sent (world out) = sent w ++ [(res, 200, BOk r)] ->
  textExtracted r = false ->
  exists (a b c : string) (imgs : list string),
    ev (PdfToImages a b c) (Ok imgs) ∈ calls out /\
    image <$> pages r = Path.basename <$> imgs /\
    forall i, i ∈ imgs -> i ∉ ocr_txt <$> imgs ->
              is_Some (files (world out) !! i).
Proof.
  intros Hu out Hsent Hraster.
  pose proof (pdf_run_split UPLOAD_DIR o w res req) as H.
  cbv zeta in H. fold out in H.
  destruct (getFileFromReq_run UPLOAD_DIR o w req) as (Hsg & Hg & _).
  rewrite Hu in Hg. destruct Hg as (Hr & _ & _).
  set (og := run (exec o) (getFileFromReq UPLOAD_DIR req) w) in *.
  rewrite Hr in H.
  set (f := {| src_path := path u; src_originalname := originalname u;
               cleanup := false |}) in *.
  destruct (pdf_extract_frame UPLOAD_DIR o (world og) req f) as [Hsx _].
  pose proof (pdf_extract_images UPLOAD_DIR o (world og) req f) as Hres.
  cbv zeta in Hres.
  set (ox := run (exec o) (pdf_extract UPLOAD_DIR req f) (world og)) in *.
  destruct (result ox) as [out0|e].
  - destruct (pdf_reply_run o (world ox) res f out0) as (_ & _ & s & Hs).
    rewrite H in Hsent. cbn [then_run world] in Hsent.
    rewrite Hs, Hsx, Hsg in Hsent. apply app_inv_head in Hsent.
    injection Hsent as <-.
    destruct (Hres out0 eq_refl Hraster) as (a & b & c & imgs & Hin & Hi & Hfs).
    exists a, b, c, imgs. split; [|split; [done|]].
    + rewrite H. cbn [then_run calls]. apply elem_of_app. left.
      apply elem_of_app. by right.
    + intros i Hi1 Hi2. rewrite H. cbn [then_run world].
      rewrite pdf_reply_files. simpl. by apply Hfs.
  - rewrite H in Hsent. cbn [then_run world] in Hsent.
    destruct (pdf_catch_files o (world ox) res e) as (_ & Hs & _).
    rewrite Hs, Hsx, Hsg in Hsent. apply app_inv_head in Hsent.
    discriminate Hsent.
Qed.

Lemma pdf_leaves_page_images_witness :
  let out := run (exec (Sample.layered Sample.blanks))
               (pdf "/srv/uploads" 0 Sample.req) Sample.w0 in
  let page_of n name t :=
    {| page := n; image := name; meta := Sample.some_meta;
       ocr := {| text := lit t; words := None |} |} in
  let r :=
    {| out_file := "doc.pdf";
       pages := [page_of 1 "p-1.png" "a"; page_of 2 "p-2.png" "b"];
       textExtracted := false; out_text := None;
       summary := Some (Some (lit "summary")) |} in
  exists (a b c : string) (imgs : list string),
    ev (PdfToImages a b c) (Ok imgs) ∈ calls out /\
    image <$> pages r = Path.basename <$> imgs /\
    forall i, i ∈ imgs -> i ∉ ocr_txt <$> imgs ->
              is_Some (files (world out) !! i).
Proof.
  intros out page_of r.
  exact (pdf_leaves_page_images "/srv/uploads" (Sample.layered Sample.blanks)
           Sample.w0 0 Sample.req
           {| path := "uploads/doc"; originalname := "doc.pdf" |} r
           eq_refl eq_refl eq_refl).
Defined.

End PdfTheorems2.
Section PdfTheorems3.

Import Js Visionless.

(** The run of [getFileFromReq] for a request by url, by the way the
    download ends. *)
Lemma getFileFromReq_by_url (UPLOAD_DIR : string) (o : Oracle) (w : World)
  (req : Req) (url ext : string) :
  file req = None ->
  url_of req = Some url -> url <> EmptyString ->
  urlExtname o (clock w) url = Ok ext ->
  let tmp :=
    path_join [UPLOAD_DIR;
               uuid o (S (clock w)) +:+
                 (if String.eqb ext EmptyString then ".bin" else ext)] in
  let og := run (exec o) (getFileFromReq UPLOAD_DIR req) w in
  sent (world og) = sent w /\
  match download o (S (S (clock w))) url tmp with
  | Ok content =>
      result og
        = Ok {| src_path := tmp; src_originalname := url; cleanup := true |}
      /\ files (world og) = <[tmp := content]> (files w)
  | Err e =>
      result og = Err e
      /\ files (world og)
         = <[tmp := partial o (S (S (clock w))) url tmp]> (files w)
  end.
Proof.
  intros Hf Hurl Hne Hext tmp og. subst og.
  unfold getFileFromReq. rewrite Hf, Hurl. simpl truthy_string.
  apply String.eqb_neq in Hne. rewrite Hne. simpl negb. cbv iota.
  cbn. rewrite Hext. cbn. fold tmp.
  by destruct (download o (S (S (clock w))) url tmp).
Qed.

(** X20.  A document fetched by url is stored under [UPLOAD_DIR] with a
    fresh name and the extension of the url ([.bin] when it has none).
    Unless that path is one that [pdfToImages] or [ocrImage] wrote or
    removed during the request: when the handler answers 200 the
    downloaded file has been removed; when it answers 400 (reading,
    parsing, rasterizing or recognizing threw) the downloaded file is
    still there, with what was downloaded. *)
Theorem pdf_download_cleanup (UPLOAD_DIR : string) (o : Oracle) (w : World)
  (res : nat) (req : Req) (url ext : string) (content : Bytes) :
  file req = None ->
  url_of req = Some url -> url <> EmptyString ->
  urlExtname o (clock w) url = Ok ext ->
  let tmp :=
    path_join [UPLOAD_DIR;
               uuid o (S (clock w)) +:+
                 (if String.eqb ext EmptyString then ".bin" else ext)] in
  download o (S (S (clock w))) url tmp = Ok content ->
  let out := run (exec o) (pdf UPLOAD_DIR res req) w in
  tmp ∉ wrapper_paths (calls out) ->
  ((exists r, sent (world out) = sent w ++ [(res, 200, BOk r)]) ->
   files (world out) !! tmp = None) /\
  ((exists e, sent (world out) = sent w ++ [(res, 400, BFail e)]) ->
   files (world out) !! tmp = Some content).
Proof.
  intros Hf Hurl Hne Hext tmp Hd out Htmp.
  pose proof (pdf_run_split UPLOAD_DIR o w res req) as H. cbv zeta in H.
  fold out in H.
  destruct (getFileFromReq_by_url UPLOAD_DIR o w req url ext Hf Hurl Hne Hext)
    as [Hsg Hg].
  fold tmp in Hg. rewrite Hd in Hg. destruct Hg as [Hr Hfg].
  set (og := run (exec o) (getFileFromReq UPLOAD_DIR req) w) in *.
  rewrite Hr in H.
  set (f := {| src_path := tmp; src_originalname := url; cleanup := true |}) in *.
  destruct (pdf_extract_frame UPLOAD_DIR o (world og) req f) as [Hsx Hfx].
  set (ox := run (exec o) (pdf_extract UPLOAD_DIR req f) (world og)) in *.
  assert (Hkeep : files (world ox) !! tmp = Some content).
  { rewrite Hfx; [by rewrite Hfg, lookup_insert_eq|].
    intros Hin. apply Htmp. destruct (result ox); rewrite H;
      cbn [then_run calls]; rewrite !wrapper_paths_app;
      apply elem_of_app; left; apply elem_of_app; by right. }
  destruct (result ox) as [out0|e].
  - destruct (pdf_reply_run o (world ox) res f out0) as (_ & _ & s & Hs).
    split.
    + intros _. rewrite H. cbn [then_run world]. rewrite pdf_reply_files.
      simpl. apply lookup_delete_eq.
    + intros [e He]. rewrite H in He. cbn [then_run world] in He.
      rewrite Hs, Hsx, Hsg in He. apply app_inv_head in He. discriminate He.
  - destruct (pdf_catch_files o (world ox) res e) as (Hfc & Hsc & _).
    split.
    + intros [r Hr']. rewrite H in Hr'. cbn [then_run world] in Hr'.
      rewrite Hsc, Hsx, Hsg in Hr'. apply app_inv_head in Hr'. discriminate Hr'.
    + intros _. rewrite H. cbn [then_run world]. by rewrite Hfc.
Qed.

Lemma pdf_download_cleanup_witness :
  let out := run (exec (Sample.layered Sample.blanks))
               (pdf "/srv/uploads" 0 Sample.by_url) Sample.w0 in
  files (world out) !! "/srv/uploads/u.pdf" = None.
Proof.
  intros out.
  apply (pdf_download_cleanup "/srv/uploads" (Sample.layered Sample.blanks)
           Sample.w0 0 Sample.by_url "http://example.org/a.pdf" ".pdf" []);
    try reflexivity.
  - discriminate.
  - apply (bool_decide_unpack _). vm_compute. exact I.
  - eexists. vm_compute. reflexivity.
Defined.

(** A sample request answered 400: the downloaded file stays. *)
Example pdf_download_left_behind :
  let out := run (exec Sample.unparsable)
               (pdf "/srv/uploads" 0 Sample.by_url) Sample.w0 in
  sent (world out) = [(0, 400, BFail "bad XRef entry")]
  /\ files (world out) !! "/srv/uploads/u.pdf" = Some [Byte.x25].
Proof. vm_compute. split; reflexivity. Qed.

(** X27.  A download that fails leaves behind the file it had opened:
    [downloadToFile] creates the destination before the request, the
    handler answers 400 with the message of the error and never removes
    the file; nothing else changes in the files, and nothing is read,
    parsed or rasterized. *)
Theorem pdf_failed_download_leaves_a_file (UPLOAD_DIR : string) (o : Oracle)
  (w : World) (res : nat) (req : Req) (url ext : string) (e : Error) :
  file req = None ->
  url_of req = Some url -> url <> EmptyString ->
  urlExtname o (clock w) url = Ok ext ->
  let tmp :=
    path_join [UPLOAD_DIR;
               uuid o (S (clock w)) +:+
                 (if String.eqb ext EmptyString then ".bin" else ext)] in
  download o (S (S (clock w))) url tmp = Err e ->
  let out := run (exec o) (pdf UPLOAD_DIR res req) w in
  sent (world out) = sent w ++ [(res, 400, BFail e)]
  /\ files (world out)
     = <[tmp := partial o (S (S (clock w))) url tmp]> (files w)
  /\ Forall (fun c => rasterizes c = false /\ parsed_by c = None) (calls out).
Proof.
  intros Hf Hurl Hne Hext tmp Hd out.
  pose proof (pdf_run_split UPLOAD_DIR o w res req) as H. cbv zeta in H.
  fold out in H.
  destruct (getFileFromReq_by_url UPLOAD_DIR o w req url ext Hf Hurl Hne Hext)
    as [Hsg Hg].
  fold tmp in Hg. rewrite Hd in Hg. destruct Hg as [Hr Hfg].
  pose proof (getFileFromReq_events UPLOAD_DIR o w req) as Hev.
  set (og := run (exec o) (getFileFromReq UPLOAD_DIR req) w) in *.
  rewrite Hr in H. rewrite H. cbn [then_run world calls].
  destruct (pdf_catch_files o (world og) res e) as (Hfc & Hsc & _).
  rewrite Hsc, Hfc, Hsg, Hfg. split; [done|]. split; [done|].
  apply Forall_app. split; [exact Hev|]. apply pdf_catch_run.
Qed.

Lemma pdf_failed_download_leaves_a_file_witness :
  let out := run (exec Sample.unreachable)
               (pdf "/srv/uploads" 0 Sample.by_url) Sample.w0 in
  sent (world out) = [(0, 400, BFail "connect ECONNREFUSED")]
  /\ files (world out) = <["/srv/uploads/u.pdf" := []]> (files Sample.w0)
  /\ Forall (fun c => rasterizes c = false /\ parsed_by c = None) (calls out).
Proof.
  intros out.
  apply (pdf_failed_download_leaves_a_file "/srv/uploads" Sample.unreachable
           Sample.w0 0 Sample.by_url "http://example.org/a.pdf" ".pdf"
           "connect ECONNREFUSED"); try reflexivity.
  discriminate.
Defined.

End PdfTheorems3.

(** * The helpers of [index.js] *)

Section ToolsFacts.

Import Js Tools.

Lemma only_calls_lift (P : forall X, Call X -> Prop) {A : Type}
  (p : Prog Visionless.Call A) :
  (forall X (c : Visionless.Call X), P X (Base c)) -> only_calls P (lift p).
Proof.
  intros HP. induction p as [A a|A e|A X c k IH|A child IHc k IH]; simpl; auto.
Qed.

Lemma exec_replies (o : Oracle) X (c : Call X) (w : World) :
  responds c = false -> replies (exec o X c w).2 = replies w.
Proof.
  destruct c; try discriminate; intros _; simpl; repeat case_match; reflexivity.
Qed.

(** A [try] whose block answers, if at all, with its last statement. *)
Lemma answers_once_try_bind (o : Oracle) (res : nat) {A} (body : Prog Call A)
  (K : A -> Prog Call unit) (h : Error -> Prog Call unit) :
  only_calls (fun X c => responds c = false) body ->
  (forall x, answers_once o res (try_catch (K x) h)) ->
  (forall e, answers_once o res (h e)) ->
  answers_once o res (try_catch (bind body K) h).
Proof.
  intros Hb HK Hh.
  induction body as [A a|A e|A X c k IH|A child _ k IH]; simpl in *.
  - apply HK.
  - apply Hh.
  - destruct Hb as [Hc Hk]. intros w. simpl.
    pose proof (exec_replies o X c w Hc) as Hr.
    destruct (exec o X c w) as [r w']. simpl in *.
    destruct (IH r K (Hk r) HK w') as (Hres & code & body & Hrep & Hcode).
    split; [done|]. exists code, body. by rewrite Hrep, Hr.
  - destruct Hb as [_ Hk]. intros w. simpl. by apply IH.
Qed.

Lemma no_reply_analyzeImage (p : string) :
  only_calls (fun X c => responds c = false) (analyzeImage p).
Proof.
  unfold analyzeImage. apply only_calls_bind; [by apply only_calls_call|].
  intros m. apply only_calls_bind; [by apply only_calls_call|]. done.
Qed.

Lemma no_reply_ocrImage (cli : bool) (p lang : string) :
  only_calls (fun X c => responds c = false) (ocrImage cli p lang).
Proof.
  unfold ocrImage. apply only_calls_bind.
  - destruct cli; [|done]. unfold ocr_cli. apply only_calls_try_catch.
    + apply only_calls_bind; [by apply only_calls_call|]. intros _.
      apply only_calls_bind; [by apply only_calls_call|]. intros [|]; [|done].
      apply only_calls_bind; [by apply only_calls_call|]. intros txt.
      apply only_calls_bind; [|done].
      apply only_calls_try_catch; [by apply only_calls_call|done].
    + intros e. apply only_calls_bind; [by apply only_calls_call|]. done.
  - intros [x|]; [done|]. unfold ocr_worker.
    apply only_calls_bind; [by apply only_calls_call|]. intros wk.
    apply only_calls_bind; [by apply only_calls_call|]. intros _.
    apply only_calls_bind; [by apply only_calls_call|]. intros _.
    apply only_calls_bind; [by apply only_calls_call|]. intros _.
    apply only_calls_bind; [by apply only_calls_call|]. intros d.
    apply only_calls_bind; [by apply only_calls_call|]. done.
Qed.

Lemma no_reply_cleanup (f : Visionless.Source) :
  only_calls (fun X c => responds c = false) (cleanup_file f).
Proof.
  unfold cleanup_file. destruct (Visionless.cleanup f); [|done].
  apply only_calls_try_catch; [by apply only_calls_call|done].
Qed.

Lemma answers_once_catch (o : Oracle) (res : nat) (e : Error) :
  answers_once o res (route_catch res e).
Proof.
  intros w. cbn. split; [done|]. eexists _, _. split; [done|]. by right.
Qed.

Lemma answers_once_reply (o : Oracle) (res : nat) (body : Reply) :
  is_failure body = false ->
  answers_once o res (try_catch (call (Respond res 200 body)) (route_catch res)).
Proof.
  intros Hb w. cbn. split; [done|]. eexists _, _. split; [done|]. by left.
Qed.

End ToolsFacts.

Section ToolsTheorems.

Import Js Tools.

(** X21.  Every request to [/ocr] and every request to [/describe] is
    answered exactly once, with 200 and a result or with 400 and an error
    message, and the handlers never throw. *)
Theorem image_routes_answer_once (cli : bool) (UPLOAD_DIR : string)
  (o : Oracle) (res : nat) (req : Visionless.Req) :
  answers_once o res (ocr_route cli UPLOAD_DIR res req)
  /\ answers_once o res (describe_route cli UPLOAD_DIR res req).
Proof.
  split.
  - unfold ocr_route.
    apply answers_once_try_bind;
      [by apply only_calls_lift| |apply answers_once_catch]. intros f.
    apply answers_once_try_bind;
      [apply no_reply_analyzeImage| |apply answers_once_catch]. intros m.
    apply answers_once_try_bind;
      [apply no_reply_ocrImage| |apply answers_once_catch]. intros x.
    apply answers_once_try_bind;
      [apply no_reply_cleanup| |apply answers_once_catch]. intros _.
    by apply answers_once_reply.
  - unfold describe_route.
    apply answers_once_try_bind;
      [by apply only_calls_lift| |apply answers_once_catch]. intros f.
    apply answers_once_try_bind;
      [apply no_reply_analyzeImage| |apply answers_once_catch]. intros m.
    apply answers_once_try_bind;
      [apply no_reply_ocrImage| |apply answers_once_catch]. intros x.
    apply answers_once_try_bind;
      [by apply only_calls_lift| |apply answers_once_catch]. intros llm.
    apply answers_once_try_bind;
      [apply no_reply_cleanup| |apply answers_once_catch]. intros _.
    by apply answers_once_reply.
Qed.

End ToolsTheorems.

Section OcrImageFacts.

Import Js Tools.

Lemma str_le_total : Total str_le.
Proof. intros a b. apply String.leb_total. Qed.

Lemma ocr_cli_throws (o : Oracle) (w : World) (filePath lang : string)
  (e : Error) :
  tesseract o (Visionless.clock (base w)) (tesseract_args filePath lang)
    = Err e ->
  run (exec o) (ocr_cli filePath lang) w =
    {| result := Ok None;
       world :=
         (exec o _
            (ConsoleWarn "tesseract CLI failed, falling back to tesseract.js" e)
            (tick w)).2;
       calls :=
         [ev (SpawnTesseract (tesseract_args filePath lang)) (Err e);
          ev (ConsoleWarn "tesseract CLI failed, falling back to tesseract.js" e)
             (Ok tt)];
       spawned := [] |}.
Proof. intros He. unfold ocr_cli. cbn. rewrite He. reflexivity. Qed.

Lemma ocr_cli_writes_nothing (o : Oracle) (w : World) (filePath lang : string) :
  tesseract o (Visionless.clock (base w)) (tesseract_args filePath lang)
    = Ok None ->
  Visionless.files (base w) !! ((filePath +:+ "-ocr") +:+ ".txt") = None ->
  (filePath +:+ "-ocr") +:+ ".txt" ∉ dirs w ->
  run (exec o) (ocr_cli filePath lang) w =
    {| result := Ok None;
       world := tick (tick w);
       calls :=
         [ev (SpawnTesseract (tesseract_args filePath lang)) (Ok tt);
          ev (ExistsSync ((filePath +:+ "-ocr") +:+ ".txt")) (Ok false)];
       spawned := [] |}.
Proof.
  intros Hn Hf Hd. unfold ocr_cli. cbn. rewrite Hn. cbn. rewrite Hf.
  rewrite (bool_decide_eq_false_2 _ Hd).
  rewrite bool_decide_eq_false_2 by (by intros [? ?]). reflexivity.
Qed.

Lemma exec_may_touch (o : Oracle) X (c : Call X) (w : World) (p : string) :
  ~ may_touch c p ->
  Visionless.files (base (exec o X c w).2) !! p
  = Visionless.files (base w) !! p.
Proof.
  destruct c as [X c'| | | | | | | | | | | | | | | | ]; simpl; intros Hc;
    try done; try (by repeat case_match).
  - destruct c'; simpl in *; try done.
    + by destruct (Visionless.files (base w) !! _).
    + destruct (Visionless.files (base w) !! _); simpl; [|done].
      by rewrite lookup_delete_ne.
  - destruct (tesseract o _ args) as [[content|]|e]; simpl; try done.
    destruct (output_of args) as [txt|] eqn:Ho; simpl; [|done].
    rewrite lookup_insert_ne; [done|]. by intros ->.
Qed.

Lemma ocrImage_may_touch (cli : bool) (filePath lang p : string) :
  p <> (filePath +:+ "-ocr") +:+ ".txt" ->
  only_calls (fun X c => ~ may_touch c p) (ocrImage cli filePath lang).
Proof.
  intros Hp. unfold ocrImage. apply only_calls_bind.
  - destruct cli; [|done]. unfold ocr_cli. apply only_calls_try_catch.
    + apply only_calls_bind.
      { apply only_calls_call. simpl. by intros [= <-]. }
      intros _.
      apply only_calls_bind; [by apply only_calls_call; simpl; auto|].
      intros [|]; [|done].
      apply only_calls_bind; [by apply only_calls_call; simpl; auto|].
      intros txt. apply only_calls_bind; [|done].
      apply only_calls_try_catch; [|done].
      apply only_calls_call. simpl. by intros <-.
    + intros e. apply only_calls_bind; [by apply only_calls_call; simpl; auto|].
      done.
  - intros [x|]; [done|]. unfold ocr_worker.
    apply only_calls_bind; [by apply only_calls_call; simpl; auto|]. intros wk.
    apply only_calls_bind; [by apply only_calls_call; simpl; auto|]. intros _.
    apply only_calls_bind; [by apply only_calls_call; simpl; auto|]. intros _.
    apply only_calls_bind; [by apply only_calls_call; simpl; auto|]. intros _.
    apply only_calls_bind; [by apply only_calls_call; simpl; auto|]. intros d.
    apply only_calls_bind; [by apply only_calls_call; simpl; auto|]. done.
Qed.

End OcrImageFacts.

Section OcrImageTheorems.

Import Js Tools.

(** X22.  With the command-line recognizer enabled, [ocrImage] returns
    the decoded content of [<filePath>-ocr.txt] whenever that file exists
    after the recognizer has run, whether the recognizer wrote it or it was
    there before: the result has no [words], the file is removed, and the
    library worker is not used. *)
Theorem ocrImage_returns_the_output_file (o : Oracle) (w : World)
  (filePath lang : string) (wrote : option Visionless.Bytes)
  (content : Visionless.Bytes) :
  let txtPath := (filePath +:+ "-ocr") +:+ ".txt" in
  let out := run (exec o) (ocrImage true filePath lang) w in
  tesseract o (Visionless.clock (base w)) (tesseract_args filePath lang)
    = Ok wrote ->
  match wrote with
  | Some written => Some written
  | None => Visionless.files (base w) !! txtPath
  end = Some content ->
  result out
    = Ok {| Visionless.text := utf8 o content; Visionless.words := None |}
  /\ Visionless.files (base (world out))
     = delete txtPath (Visionless.files (base w))
  /\ Forall (fun e => uses_worker e = false) (calls out).
Proof.
  intros txtPath out Ht Hc. subst out. unfold ocrImage, ocr_cli.
  cbn. rewrite Ht.
  destruct wrote as [written|]; cbn.
  - injection Hc as ->. fold txtPath. rewrite lookup_insert_eq. cbn.
    rewrite lookup_insert_eq. cbn. rewrite lookup_insert_eq. cbn.
    split; [done|]. split; [by rewrite delete_insert_eq|].
    repeat constructor.
  - fold txtPath. rewrite Hc. cbn. rewrite Hc. cbn. rewrite Hc. cbn.
    split; [done|]. split; [done|]. repeat constructor.
Qed.

Lemma ocrImage_returns_the_output_file_witness :
  let w :=
    set_files (insert "uploads/doc-ocr.txt" Sample.hi) Sample.w0 in
  let out :=
    run (exec (Sample.cli (Ok None))) (ocrImage true "uploads/doc" "eng") w in
  result out
    = Ok {| Visionless.text := lit "hi"; Visionless.words := None |}
  /\ Visionless.files (base (world out))
     = delete "uploads/doc-ocr.txt" (Visionless.files (base w))
  /\ Forall (fun e => uses_worker e = false) (calls out).
Proof.
  exact (ocrImage_returns_the_output_file (Sample.cli (Ok None))
           (set_files (insert "uploads/doc-ocr.txt" Sample.hi) Sample.w0)
           "uploads/doc" "eng" None Sample.hi eq_refl eq_refl).
Defined.

(** X23.  A failure of the command-line recognizer never reaches the
    caller of [ocrImage].  When starting it throws, the error is written
    to the console as a warning; when it runs but leaves no output file,
    nothing is logged.  In both cases the result is the one of the library
    worker, run on the same files. *)
Theorem ocrImage_falls_back_to_the_worker (o : Oracle) (w : World)
  (filePath lang : string) :
  let txtPath := (filePath +:+ "-ocr") +:+ ".txt" in
  let now := Visionless.clock (base w) in
  let out := run (exec o) (ocrImage true filePath lang) w in
  let fallback logged :=
    exists w1,
      Visionless.files (base w1) = Visionless.files (base w)
      /\ Visionless.console (base w1) = Visionless.console (base w) ++ logged
      /\ Visionless.clock (base w1) = now + 2
      /\ dirs w1 = dirs w /\ replies w1 = replies w
      /\ result out = result (run (exec o) (ocr_worker filePath lang) w1)
      /\ world out = world (run (exec o) (ocr_worker filePath lang) w1) in
  (forall e,
     tesseract o now (tesseract_args filePath lang) = Err e ->
     fallback
       [("tesseract CLI failed, falling back to tesseract.js"%string, e)])
  /\ (tesseract o now (tesseract_args filePath lang) = Ok None ->
      Visionless.files (base w) !! txtPath = None ->
      txtPath ∉ dirs w ->
      fallback []).
Proof.
  intros txtPath now out fallback. subst out fallback now. split.
  - intros e He. unfold ocrImage. rewrite run_bind, (ocr_cli_throws _ _ _ _ _ He).
    cbn [result world then_run]. eexists. split_and!; [..|reflexivity|reflexivity];
      cbn; try reflexivity. lia.
  - intros Hn Hf Hd. unfold ocrImage.
    rewrite run_bind, (ocr_cli_writes_nothing _ _ _ _ Hn Hf Hd).
    cbn [result world then_run]. eexists. split_and!; [..|reflexivity|reflexivity];
      cbn; try reflexivity; [by rewrite app_nil_r|lia].
Qed.

Lemma ocrImage_falls_back_to_the_worker_witness :
  let o := Sample.cli (Err "spawn EINVAL") in
  let out := run (exec o) (ocrImage true "uploads/doc" "eng") Sample.w0 in
  exists w1,
    Visionless.files (base w1) = Visionless.files (base Sample.w0)
    /\ Visionless.console (base w1)
       = Visionless.console (base Sample.w0)
         ++ [("tesseract CLI failed, falling back to tesseract.js"%string,
              "spawn EINVAL"%string)]
    /\ Visionless.clock (base w1) = Visionless.clock (base Sample.w0) + 2
    /\ dirs w1 = dirs Sample.w0 /\ replies w1 = replies Sample.w0
    /\ result out = result (run (exec o) (ocr_worker "uploads/doc" "eng") w1)
    /\ world out = world (run (exec o) (ocr_worker "uploads/doc" "eng") w1).
Proof.
  exact (proj1 (ocrImage_falls_back_to_the_worker
                  (Sample.cli (Err "spawn EINVAL")) Sample.w0
                  "uploads/doc" "eng") "spawn EINVAL"%string eq_refl).
Defined.

(** [path.join] normalizes: a trailing slash of the directory and a
    leading [./] do not show in the joined path. *)
Example path_join_normalizes :
  Visionless.path_join ["out3/"; "p-1.png"] = "out3/p-1.png"
  /\ Visionless.path_join ["./out4"; "p-1.png"] = "out4/p-1.png"
  /\ Visionless.path_join ["/srv/uploads"; "pdfimgs"; "u"]
     = "/srv/uploads/pdfimgs/u"
  /\ Visionless.path_join ["/srv/uploads"; "../x"; EmptyString; "y/"]
     = "/srv/x/y/".
Proof. vm_compute. repeat split. Qed.

(** X24.  What [pdfToImages] returns is sorted by code units and holds,
    up to order, [path.join(outDir, f)], normalized as [path.join] does,
    for exactly the entries [f] of the listing of [outDir] whose name
    starts with [baseName] and ends with [.png];
    entries are neither dropped nor merged when names repeat.  The
    directory is created only when nothing of that name exists. *)
Theorem pdfToImages_lists_sorted_pages (o : Oracle) (w : World)
  (pdfPath outDir baseName : string) (imgs : list string) :
  let out := run (exec o) (pdfToImages pdfPath outDir baseName) w in
  result out = Ok imgs ->
  Sorted str_le imgs
  /\ (exists entries : list string,
        ev (ReaddirSync outDir) (Ok entries) ∈ calls out
        /\ imgs ≡ₚ (fun f => Visionless.path_join [outDir; f])
                     <$> filter (fun f => is_page_image baseName f = true)
                           entries)
  /\ dirs (world out)
     = (if bool_decide (is_Some (Visionless.files (base w) !! outDir))
           || bool_decide (outDir ∈ dirs w)
        then dirs w else {[ outDir ]} ∪ dirs w).
Proof.
  intros out. subst out. unfold pdfToImages. cbn.
  destruct (bool_decide (is_Some (Visionless.files (base w) !! outDir))
            || bool_decide (outDir ∈ dirs w)); cbn.
  - destruct (pdftoppm o _ _ _) as [[]|e]; cbn; [|discriminate].
    destruct (readdir o _ _) as [entries|e]; cbn; [|discriminate].
    intros [= <-]. split; [apply (@Sorted_merge_sort _ str_le _ str_le_total)|].
    split; [|done]. exists entries. split; [set_solver|].
    apply merge_sort_Permutation.
  - destruct (pdftoppm o _ _ _) as [[]|e]; cbn; [|discriminate].
    destruct (readdir o _ _) as [entries|e]; cbn; [|discriminate].
    intros [= <-]. split; [apply (@Sorted_merge_sort _ str_le _ str_le_total)|].
    split; [|done]. exists entries. split; [set_solver|].
    apply merge_sort_Permutation.
Qed.

Lemma pdfToImages_lists_sorted_pages_witness :
  let out :=
    run (exec (Sample.cli (Ok None))) (pdfToImages "in.pdf" "out" "p")
      Sample.w0 in
  Sorted str_le ["out/p-1.png"; "out/p-2.png"]
  /\ (exists entries : list string,
        ev (ReaddirSync "out") (Ok entries) ∈ calls out
        /\ ["out/p-1.png"; "out/p-2.png"]
             ≡ₚ (fun f => Visionless.path_join ["out"; f])
                  <$> filter (fun f => is_page_image "p" f = true) entries)
  /\ dirs (world out)
     = (if bool_decide (is_Some (Visionless.files (base Sample.w0) !! "out"))
           || bool_decide ("out" ∈ dirs Sample.w0)
        then dirs Sample.w0 else {[ "out" ]} ∪ dirs Sample.w0).
Proof.
  exact (pdfToImages_lists_sorted_pages (Sample.cli (Ok None)) Sample.w0
           "in.pdf" "out" "p" ["out/p-1.png"; "out/p-2.png"] eq_refl).
Defined.

(** X25.  The recognized text quoted in the prompt of [/describe] is the
    trimmed text cut after 400 code units: it is the whole trimmed text
    when that is short enough, and never longer than 400.  The placeholder
    is quoted for an empty text; a text of white space alone gives an
    empty excerpt instead. *)
Theorem describe_excerpt_is_bounded (o : Visionless.Ocr) :
  length (excerpt o) <= 400
  /\ (Visionless.text o = [] -> excerpt o = lit "[none]")
  /\ (Visionless.text o <> [] ->
      excerpt o = take 400 (trim (Visionless.text o))
      /\ (Forall (fun c => is_whitespace c = true) (Visionless.text o) ->
          excerpt o = [])).
Proof.
  unfold excerpt. destruct (Visionless.text o) as [|c s] eqn:Ht.
  - split; [cbn; lia|]. split; [done|]. by intros [].
  - cbn [truthy]. split; [apply slice_prefix_length|].
    split; [done|]. intros _.
    assert (Hs : forall t, slice 0 400 t = take 400 t).
    { intros t. unfold slice. rewrite Nat.min_0_l, Nat.sub_0_r, drop_0.
      destruct (decide (400 <= length t)) as [Hl|Hl].
      - by rewrite Nat.min_l.
      - rewrite Nat.min_r by lia. rewrite (take_ge t (length t)) by lia.
        by rewrite (take_ge t 400) by lia. }
    split; [apply Hs|]. intros Hw. rewrite Hs.
    unfold trim. by rewrite (trim_start_blank _ Hw).
Qed.

Lemma describe_excerpt_is_bounded_witness :
  excerpt {| Visionless.text := lit "  "; Visionless.words := None |} = [].
Proof.
  apply (describe_excerpt_is_bounded
           {| Visionless.text := lit "  "; Visionless.words := None |}).
  - discriminate.
  - repeat constructor.
Defined.

(** X28.  Whatever the recognizers do, [ocrImage] creates, changes and
    removes no file other than [<filePath>-ocr.txt], the output file of
    the command-line recognizer: every other path holds after the call
    what it held before, with the command line enabled or not. *)
Theorem ocrImage_touches_only_its_output_file (cli : bool) (o : Oracle)
  (w : World) (filePath lang p : string) :
  p <> (filePath +:+ "-ocr") +:+ ".txt" ->
  Visionless.files (base (world (run (exec o) (ocrImage cli filePath lang) w)))
    !! p
  = Visionless.files (base w) !! p.
Proof.
  intros Hp.
  apply (run_frame (exec o) (fun X (c : Call X) => ~ may_touch c p)
           (fun w => Visionless.files (base w) !! p)).
  - intros X c w0. apply exec_may_touch.
  - by apply ocrImage_may_touch.
Qed.

Lemma ocrImage_touches_only_its_output_file_witness :
  Visionless.files
    (base (world (run (exec (Sample.cli (Ok (Some Sample.hi))))
                    (ocrImage true "uploads/doc" "eng") Sample.w0)))
    !! "uploads/doc"
  = Some [Byte.x25; Byte.x50].
Proof.
  apply (ocrImage_touches_only_its_output_file true
           (Sample.cli (Ok (Some Sample.hi))) Sample.w0 "uploads/doc" "eng"
           "uploads/doc").
  discriminate.
Defined.

End OcrImageTheorems.
